(** * Emu68: the line-5 and line-F emitters, the context-transfer routines,
      the translation-unit lookup and the execution loop.

    The development follows three source files:
    - [M68k_LINEF.c]  : [TrimDoubleRange] and [EMIT_lineF];
    - [M68k_LINE5.c]  : [EMIT_LoadARMCC] and [EMIT_line5];
    - [src/aarch64/start.c] : [M68K_LoadContext], [M68K_SaveContext],
      [FindUnit] and [ExecutionLoop].

    Machine integers are values of [Z] with the wrap-around written out,
    records stand for C structs, and the pieces of hand written assembly are
    translated instruction by instruction into state-passing functions. *)

From Stdlib Require Import ZArith Lia Bool List QArith Qpower.
From stdpp Require Import functions.
From stdpp Require Import base list.
From coqutil Require Import Z.bitblast.
Import ListNotations.

Local Open Scope Z_scope.

(** ** Machine words *)

Definition u16 (x : Z) : Z := x mod 2 ^ 16.
Definition u32 (x : Z) : Z := x mod 2 ^ 32.
Definition u64 (x : Z) : Z := x mod 2 ^ 64.

(** Sign extension of a 16-bit quantity (what [ldrsh] delivers). *)
Definition sext16 (x : Z) : Z :=
  let v := u16 x in if v <? 2 ^ 15 then v else v - 2 ^ 16.

(** ** M68k_LINEF.c : [TrimDoubleRange]

    A [double] is its 64-bit pattern.  The function reads and writes it
    through the union [{ uint64_t i; uint32_t i32[2]; double d; }].  The
    translator runs the host big-endian (data words are stored with [BE32],
    instruction words are byte-swapped with [INSN_TO_LE]), so [i32[0]] is the
    most significant half of [i]. *)

Definition i32_0 (i : Z) : Z := Z.land (Z.shiftr i 32) 0xffffffff.

(** [u.i32[0] = v], the other half of [u.i] kept. *)
Definition set_i32_0 (i v : Z) : Z :=
  Z.lor (Z.shiftl (u32 v) 32) (Z.land i 0xffffffff).

(** [__builtin_clzll] on a non-zero 64-bit value. *)
Definition clzll (x : Z) : Z := 63 - Z.log2 x.

Definition TrimDoubleRange (a : Z) : Z :=
  let n := a in
  let exp := Z.land (Z.shiftr (i32_0 n) 20) 0x7ff in
  let man := Z.land n 0x000fffffffffffff in
  let '(man, exp) :=
    if negb (man =? 0) && (0x3ff <? exp) && (exp <? 0x3ff + 52) then
      let man := Z.land (u64 (Z.shiftl man (exp - 0x3ff))) 0x001fffffffffffff in
      let exp := 0x3ff in
      if negb (man =? 0) then
        let d := clzll man - 11 in
        if negb (d =? 0) then
          (Z.land (u64 (Z.shiftl man d)) 0x000fffffffffffff, u32 (exp - d))
        else (man, exp)
      else (man, 0)
    else if (man =? 0) && (0x3ff <? exp) then (man, 0)
    else (man, exp) in
  let out := Z.land man (u64 (Z.lnot 0x0010000000000000)) in
  set_i32_0 out (Z.lor (i32_0 out) (u32 (Z.shiftl exp 20))).

(** IEEE-754 binary64 reading of a bit pattern. *)

Definition double_sign (b : Z) : bool := Z.testbit b 63.
Definition double_exp (b : Z) : Z := Z.land (Z.shiftr b 52) 0x7ff.
Definition double_man (b : Z) : Z := Z.land b 0x000fffffffffffff.

Definition double_finite (b : Z) : bool := negb (double_exp b =? 0x7ff).

(** The rational number a finite double stands for. *)
Definition double_value (b : Z) : Q :=
  let e := double_exp b in
  let m := if e =? 0 then double_man b else 2 ^ 52 + double_man b in
  let k := if e =? 0 then -1074 else e - 1075 in
  let v := (inject_Z m * Qpower 2 k)%Q in
  if double_sign b then Qopp v else v.

(** A finite double whose value lies in the half-open interval [0, 2). *)
Definition in_range_0_2 (b : Z) : Prop :=
  double_finite b = true /\ (0 <= double_value b)%Q /\ (double_value b < 2)%Q.

(** The same function read as arithmetic on the exponent and mantissa
    fields; [TrimDoubleRange_arith_eq] proves the two equal. *)
Definition TrimDoubleRange_arith (a : Z) : Z :=
  let e := double_exp a in
  let m := double_man a in
  if negb (m =? 0) && (0x3ff <? e) && (e <? 0x3ff + 52) then
    let M := (m * 2 ^ (e - 0x3ff)) mod 2 ^ 53 in
    if M =? 0 then 0
    else let d := 52 - Z.log2 M in
         (0x3ff - d) * 2 ^ 52 + (M * 2 ^ d) mod 2 ^ 52
  else if (m =? 0) && (0x3ff <? e) then 0
  else e * 2 ^ 52 + m.

(** ** The emitters' output

    [ARM.h], [M68k.h] and [RegisterAllocator.h] are not among the sources.
    What the emitters write through [ptr] is therefore kept symbolic: one
    constructor of [insn] for each instruction macro of [ARM.h] the two
    emitters call, carrying the macro's arguments in the macro's order. *)

Inductive insn : Type :=
| mov_reg_shift (dest src shift : Z)
| bic_immed (dest src imm : Z)
| tst_immed (src imm : Z)
| orr_cc_immed (cc dest src imm : Z)
| msr (src mask : Z)
| add_immed (dest src imm : Z)
| add_cc_immed (cc dest src imm : Z)
| sub_immed (dest src imm : Z)
| cmn_immed (src imm : Z)
| lsr_immed (dest src shift : Z)
| bfi (dest src lsb width : Z)
| ldrsh_offset (base dest offset : Z)
| ldr_offset (base dest offset : Z)
| add_reg (dest src1 src2 shift : Z)
| b_cc (cc offset : Z)
| blx_cc_reg (cc target : Z)
| cmp_reg (src1 src2 : Z)
| movw_immed_u16 (dest imm : Z)
| movt_immed_u16 (dest imm : Z)
| push (mask : Z)
| pop (mask : Z)
| fabsd (dest src : Z)
| fldd (dest base offset : Z)
| fmuld (dest src1 src2 : Z)
| fsubd (dest src1 src2 : Z)
| fcpyd (dest src : Z)
| fnegd (dest src : Z)
| fnegd_cc (cc dest src : Z)
| udf (imm : Z).

(** The routines and the table whose addresses the line-F emitter stores
    in the stream. *)
Inductive symbol : Type :=
| sym_constants | sym_PolySine | sym_PolyCosine | sym_TrimDoubleRange.

(** One 32-bit cell of the output buffer.  [ptr] is an index into the
    buffer, so a stored pointer to a cell is the cell's index. *)
Inductive word : Type :=
| Insn (i : insn)          (* [*ptr++ = macro(...)] *)
| Raw (w : Z)              (* a literal word: [INSN_TO_LE(0x...)], [1], [2] *)
| Addr (s : symbol)        (* [BE32((uint32_t)&sym)] *)
| PtrTo (p : nat)          (* [(uint32_t)branch] *)
| Sum (w : word) (k : Z)   (* [w + k] on a word that is not a branch *)
| Or (w : word) (k : Z).   (* [w | k] on a word that is not a branch *)

(** The undefined-instruction guard is the word [udf(...)] produces. *)
Definition is_udf (w : word) : bool :=
  match w with Insn (udf _) => true | _ => false end.

(** Writes through a pointer to an earlier cell: [*p = INSN_TO_LE(INSN_TO_LE( *p ) + k)]
    and [*p |= INSN_TO_LE(k)].  They are only applied to branches written
    with offset 0; the offset is the low field of the encoding, so both land
    in the offset. *)
Inductive patch_op : Type :=
| AddTo (k : Z)
| OrWith (k : Z).

Definition word_add (k : Z) (w : word) : word :=
  match w with
  | Insn (b_cc cc off) => Insn (b_cc cc (off + k))
  | _ => Sum w k
  end.

Definition word_or (k : Z) (w : word) : word :=
  match w with
  | Insn (b_cc cc off) => Insn (b_cc cc (Z.lor off k))
  | _ => Or w k
  end.

Definition apply_patch (op : patch_op) (w : word) : word :=
  match op with
  | AddTo k => word_add k w
  | OrWith k => word_or k w
  end.

(** Calls out of the emitters: the register allocator and the two PC
    helpers.  Each takes [&ptr] (or [ptr]) and may append words of its own. *)
Inductive service : Type :=
| RA_AllocARMRegister_
| RA_FreeARMRegister_ (r : Z)
| RA_MapM68kRegister_ (n : Z)
| RA_SetDirtyM68kRegister_ (n : Z)
| RA_MapFPURegister_ (n : Z)
| RA_MapFPURegisterForWrite_ (n : Z)
| RA_AllocFPURegister_
| RA_FreeFPURegister_ (r : Z)
| EMIT_AdvancePC_ (n : Z)
| EMIT_FlushPC_.

(** What an emitter does, in order. *)
Inductive event : Type :=
| Emit (w : word)                                  (* [*ptr++ = w] *)
| Patch (p : nat) (op : patch_op)                  (* a write to the earlier cell [p] *)
| Call (c : service) (res : Z) (ws : list word).   (* a call, its result, its words *)

(** The services as an interface: a state of their own, and for each call
    the result, the words appended and the next state.  [REG_PC] and
    [REG_SR] are the header's host registers for the guest PC and SR. *)
Class Services (RA : Type) : Type := {
  serve : service -> RA -> Z * list word * RA;
  REG_PC : Z;
  REG_SR : Z
}.

Section Emitter.

Context {RA : Type} {SV : Services RA}.

(** The emitter's view: the guest code being read ([m68k], by word index,
    already in host byte order), the cursor into it, the buffer, the
    services' state and the record of what was done. *)
Record emitter : Type := mkEmitter {
  m68k : Z -> Z;
  m68k_ptr : Z;
  code : list word;
  ra : RA;
  trace : list event
}.

Definition M (A : Type) : Type := emitter -> A * emitter.

Definition ret {A} (a : A) : M A := fun s => (a, s).

Definition bind {A B} (m : M A) (k : A -> M B) : M B :=
  fun s => let '(a, s') := m s in k a s'.

Notation "x <- c1 ;; c2" := (bind c1 (fun x => c2))
  (at level 100, c1 at next level, c2 at level 200).
Notation "c1 ;; c2" := (bind c1 (fun _ => c2))
  (at level 100, c2 at level 200).

(** [ptr] *)
Definition get_ptr : M nat := fun s => (length (code s), s).

(** [*ptr++ = w] *)
Definition emit (w : word) : M unit := fun s =>
  (tt, mkEmitter (m68k s) (m68k_ptr s) (code s ++ [w]) (ra s) (trace s ++ [Emit w])).

(** A write to the cell [p] of the buffer ([p] before [ptr]). *)
Definition patch (p : nat) (op : patch_op) : M unit := fun s =>
  (tt, mkEmitter (m68k s) (m68k_ptr s) (alter (apply_patch op) p (code s)) (ra s)
         (trace s ++ [Patch p op])).

Definition call (c : service) : M Z := fun s =>
  let '(r, ws, ra') := serve c (ra s) in
  (r, mkEmitter (m68k s) (m68k_ptr s) (code s ++ ws) ra' (trace s ++ [Call c r ws])).

(** [BE16(( *m68k_ptr )[i])] *)
Definition fetch16 (i : Z) : M Z := fun s => (u16 (m68k s (m68k_ptr s + i)), s).

(** [( *m68k_ptr ) += n] *)
Definition m68k_advance (n : Z) : M unit := fun s =>
  (tt, mkEmitter (m68k s) (m68k_ptr s + n) (code s) (ra s) (trace s)).

Definition RA_AllocARMRegister : M Z := call RA_AllocARMRegister_.
Definition RA_FreeARMRegister (r : Z) : M unit := call (RA_FreeARMRegister_ r) ;; ret tt.
Definition RA_MapM68kRegister (n : Z) : M Z := call (RA_MapM68kRegister_ n).
Definition RA_SetDirtyM68kRegister (n : Z) : M unit :=
  call (RA_SetDirtyM68kRegister_ n) ;; ret tt.
Definition RA_MapFPURegister (n : Z) : M Z := call (RA_MapFPURegister_ n).
Definition RA_MapFPURegisterForWrite (n : Z) : M Z := call (RA_MapFPURegisterForWrite_ n).
Definition RA_AllocFPURegister : M Z := call RA_AllocFPURegister_.
Definition RA_FreeFPURegister (r : Z) : M unit := call (RA_FreeFPURegister_ r) ;; ret tt.
Definition EMIT_AdvancePC (n : Z) : M unit := call (EMIT_AdvancePC_ n) ;; ret tt.
Definition EMIT_FlushPC : M unit := call EMIT_FlushPC_ ;; ret tt.

(** Condition codes.  The ARM ones are the architecture's encodings, the
    guest ones the positions in [M68K_ccTo_ARM] its comments name. *)
Definition ARM_CC_EQ := 0.
Definition ARM_CC_NE := 1.
Definition ARM_CC_CS := 2.
Definition ARM_CC_CC := 3.
Definition ARM_CC_MI := 4.
Definition ARM_CC_PL := 5.
Definition ARM_CC_VS := 6.
Definition ARM_CC_VC := 7.
Definition ARM_CC_HI := 8.
Definition ARM_CC_LS := 9.
Definition ARM_CC_GE := 10.
Definition ARM_CC_LT := 11.
Definition ARM_CC_GT := 12.
Definition ARM_CC_LE := 13.
Definition ARM_CC_AL := 14.

Definition M_CC_T := 0.
Definition M_CC_F := 1.

(** ** M68k_LINE5.c *)

Definition M68K_ccTo_ARM_table : list Z :=
  [ ARM_CC_AL; 0x0f; ARM_CC_HI; ARM_CC_LS; ARM_CC_CC; ARM_CC_CS; ARM_CC_NE;
    ARM_CC_EQ; ARM_CC_VC; ARM_CC_VS; ARM_CC_PL; ARM_CC_MI; ARM_CC_GE;
    ARM_CC_LT; ARM_CC_GT; ARM_CC_LE ].

Definition M68K_ccTo_ARM (m68k_cc : Z) : Z :=
  nth (Z.to_nat m68k_cc) M68K_ccTo_ARM_table 0.

Definition EMIT_LoadARMCC (m68k_cc : Z) : M unit :=
  tmp <- RA_AllocARMRegister ;;
  emit (Insn (mov_reg_shift tmp m68k_cc 28)) ;;
  emit (Insn (bic_immed tmp tmp 0x203)) ;;
  emit (Insn (tst_immed tmp 2)) ;;
  emit (Insn (orr_cc_immed ARM_CC_NE tmp tmp 0x201)) ;;
  emit (Insn (tst_immed tmp 1)) ;;
  emit (Insn (orr_cc_immed ARM_CC_NE tmp tmp 0x202)) ;;
  emit (Insn (msr tmp 8)) ;;
  RA_FreeARMRegister tmp.

Definition EMIT_line5 : M unit :=
  opcode <- fetch16 0 ;;
  m68k_advance 1 ;;
  if Z.land opcode 0xf0c0 =? 0x50c0 then
    (* Scc/TRAPcc/DBcc *)
    if Z.land opcode 0x38 =? 0x08 then
      (* DBcc *)
      counter_reg <- RA_MapM68kRegister (Z.land opcode 7) ;;
      let m68k_condition := Z.land (Z.shiftr opcode 8) 0x0f in
      let arm_condition := M68K_ccTo_ARM m68k_condition in
      m68k_advance 1 ;;
      if m68k_condition =? M_CC_T then
        emit (Insn (add_immed REG_PC REG_PC 4))
      else
        branch_1 <-
          (if negb (m68k_condition =? M_CC_F) then
             EMIT_LoadARMCC REG_SR ;;
             emit (Insn (add_cc_immed (Z.lxor arm_condition 1) REG_PC REG_PC 2)) ;;
             emit (Insn (add_cc_immed arm_condition REG_PC REG_PC 4)) ;;
             b1 <- get_ptr ;;
             emit (Insn (b_cc arm_condition 0)) ;;
             ret (Some b1)
           else ret None) ;;
        reg <- RA_AllocARMRegister ;;
        emit (Insn (mov_reg_shift reg counter_reg 16)) ;;
        emit (Insn (sub_immed reg reg 0x801)) ;;
        emit (Insn (cmn_immed reg 0x801)) ;;
        emit (Insn (lsr_immed reg reg 16)) ;;
        emit (Insn (bfi counter_reg reg 0 16)) ;;
        RA_SetDirtyM68kRegister (Z.land opcode 7) ;;
        emit (Insn (ldrsh_offset REG_PC reg 0)) ;;
        emit (Insn (add_cc_immed ARM_CC_EQ REG_PC REG_PC 2)) ;;
        branch_2 <- get_ptr ;;
        emit (Insn (b_cc ARM_CC_EQ 0)) ;;
        emit (Insn (add_reg REG_PC REG_PC reg 0)) ;;
        RA_FreeARMRegister reg ;;
        match branch_1 with
        | Some b1 =>
            patch b1 (AddTo (Z.of_nat branch_2 - Z.of_nat b1)) ;;
            emit (PtrTo b1)
        | None => ret tt
        end ;;
        emit (PtrTo branch_2) ;;
        emit (Raw (match branch_1 with None => 1 | Some _ => 2 end)) ;;
        emit (Raw 0xfffffffe) ;;
        RA_FreeARMRegister reg
    else if Z.land opcode 0x38 =? 0x38 then
      ret tt  (* TRAPcc *)
    else
      ret tt  (* Scc *)
  else if Z.land opcode 0xf100 =? 0x5100 then
    ret tt  (* SUBQ *)
  else if Z.land opcode 0xf100 =? 0x5000 then
    ret tt  (* ADDQ *)
  else ret tt.

(** ** M68k_LINEF.c : [EMIT_lineF] *)

(** Indices into [constants], two 32-bit words per double. *)
Definition C_1_PI := 3.
Definition C_0_5 := 8.
Definition C_1_5 := 9.
Definition C_10P0 := 0x32.

(** Byte distance between two cells of the buffer,
    [(intptr_t)a - (intptr_t)b]. *)
Definition byte_diff (a b : nat) : Z := 4 * (Z.of_nat a - Z.of_nat b).

(** [*p |= INSN_TO_LE(ptr - p - 2)] *)
Definition link_here (p : nat) : M unit :=
  here <- get_ptr ;;
  patch p (OrWith (Z.of_nat here - Z.of_nat p - 2)).

(** [ref_ptr = ptr+2; *ptr++ = ldr_offset(15, 12, adr - ref_ptr);
     *ptr++ = blx_cc_reg(ARM_CC_AL, 12);] *)
Definition call_literal (adr : nat) : M unit :=
  here <- get_ptr ;;
  let ref_ptr := (here + 2)%nat in
  emit (Insn (ldr_offset 15 12 (byte_diff adr ref_ptr))) ;;
  emit (Insn (blx_cc_reg ARM_CC_AL 12)).

Definition EMIT_lineF : M unit :=
  opcode <- fetch16 0 ;;
  opcode2 <- fetch16 1 ;;
  let ext_count := 1 in
  m68k_advance 1 ;;
  (* FABS.X reg-reg *)
  (if (opcode =? 0xf200) && (Z.land opcode2 0x407f =? 0x0018) then
     let fp_src := Z.land (Z.shiftr opcode2 10) 7 in
     let fp_dst := Z.land (Z.shiftr opcode2 7) 7 in
     emit (Insn (fabsd fp_dst fp_src)) ;;
     EMIT_AdvancePC (2 * (ext_count + 1)) ;;
     m68k_advance ext_count
   else ret tt) ;;
  (* FMOVECR reg *)
  if (opcode =? 0xf200) && (Z.land opcode2 0xfc00 =? 0x5c00) then
    let fp_dst := Z.land (Z.shiftr opcode2 7) 7 in
    base_reg <- RA_AllocARMRegister ;;
    let offset := Z.land opcode2 0x7f in
    fp_dst <- RA_MapFPURegisterForWrite fp_dst ;;
    emit (Insn (ldr_offset 15 base_reg 4)) ;;
    emit (Insn (fldd fp_dst base_reg (offset * 2))) ;;
    emit (Insn (b_cc ARM_CC_AL 0)) ;;
    emit (Addr sym_constants) ;;
    RA_FreeARMRegister base_reg ;;
    EMIT_AdvancePC (2 * (ext_count + 1)) ;;
    m68k_advance ext_count
  (* FSIN.X reg, reg *)
  else if (opcode =? 0xf200) && (Z.land opcode2 0xe07f =? 0x000e) then
    fp_dst <- RA_MapFPURegister (Z.land (Z.shiftr opcode2 7) 7) ;;
    fp_src <- RA_MapFPURegister (Z.land (Z.shiftr opcode2 10) 7) ;;
    base_reg <- RA_AllocARMRegister ;;
    top_half <- RA_AllocARMRegister ;;
    sign <- RA_AllocARMRegister ;;
    cmp_num <- RA_AllocARMRegister ;;
    fp_tmp1 <- RA_AllocFPURegister ;;
    fp_tmp2 <- RA_AllocFPURegister ;;
    fp_dst <- RA_MapFPURegisterForWrite fp_dst ;;
    emit (Insn (ldr_offset 15 base_reg 0)) ;;
    emit (Insn (b_cc ARM_CC_AL 3)) ;;
    emit (Addr sym_constants) ;;
    adr_sin <- get_ptr ;;
    emit (Addr sym_PolySine) ;;
    adr_cos <- get_ptr ;;
    emit (Addr sym_PolyCosine) ;;
    adr_trim <- get_ptr ;;
    emit (Addr sym_TrimDoubleRange) ;;
    emit (Insn (movw_immed_u16 cmp_num 0)) ;;
    (* Get sign (topmost bit) to separate arm register *)
    emit (Raw (Z.lor (Z.lor 0xee300b10 (Z.shiftl sign 12)) (Z.shiftl fp_src 16))) ;;
    emit (Insn (fabsd fp_tmp1 fp_src)) ;;
    emit (Insn (fldd fp_tmp2 base_reg (C_1_PI * 2))) ;;
    emit (Insn (fmuld 0 fp_tmp1 fp_tmp2)) ;;
    (* Trim range to 0..2 *)
    emit (Insn (push (Z.lor (Z.lor (Z.shiftl 1 base_reg) 0x0f) (Z.shiftl 1 12)))) ;;
    call_literal adr_trim ;;
    emit (Insn (pop (Z.lor (Z.lor (Z.shiftl 1 base_reg) 0x0f) (Z.shiftl 1 12)))) ;;
    emit (Raw (Z.lor 0xee300b10 (Z.shiftl top_half 12))) ;;
    (* Range 1 *)
    emit (Insn (movt_immed_u16 cmp_num 0x3fe0)) ;;
    emit (Insn (cmp_reg top_half cmp_num)) ;;
    tmp_ptr <- get_ptr ;;
    emit (Insn (b_cc ARM_CC_GT 0)) ;;
    call_literal adr_sin ;;
    emit (Insn (fcpyd fp_dst 0)) ;;
    exit_1 <- get_ptr ;;
    emit (Insn (b_cc ARM_CC_AL 0)) ;;
    link_here tmp_ptr ;;
    (* Range 2 *)
    emit (Insn (movt_immed_u16 cmp_num 0x3ff0)) ;;
    emit (Insn (cmp_reg top_half cmp_num)) ;;
    tmp_ptr <- get_ptr ;;
    emit (Insn (b_cc ARM_CC_GT 0)) ;;
    emit (Insn (fldd fp_tmp1 base_reg (C_0_5 * 2))) ;;
    emit (Insn (fsubd 0 0 fp_tmp1)) ;;
    call_literal adr_cos ;;
    emit (Insn (fcpyd fp_dst 0)) ;;
    exit_2 <- get_ptr ;;
    emit (Insn (b_cc ARM_CC_AL 0)) ;;
    link_here tmp_ptr ;;
    (* Range 3 *)
    emit (Insn (movt_immed_u16 cmp_num 0x3ff8)) ;;
    emit (Insn (cmp_reg top_half cmp_num)) ;;
    tmp_ptr <- get_ptr ;;
    emit (Insn (b_cc ARM_CC_GT 0)) ;;
    emit (Insn (fldd fp_tmp1 base_reg (C_10P0 * 2))) ;;
    emit (Insn (fsubd 0 0 fp_tmp1)) ;;
    call_literal adr_sin ;;
    emit (Insn (fnegd fp_dst 0)) ;;
    exit_3 <- get_ptr ;;
    emit (Insn (b_cc ARM_CC_AL 0)) ;;
    link_here tmp_ptr ;;
    (* Range 4 *)
    emit (Insn (fldd fp_tmp1 base_reg (C_1_5 * 2))) ;;
    emit (Insn (fsubd 0 0 fp_tmp1)) ;;
    call_literal adr_sin ;;
    emit (Insn (fnegd fp_dst 0)) ;;
    link_here exit_1 ;;
    link_here exit_2 ;;
    link_here exit_3 ;;
    emit (Insn (tst_immed sign 0xf80)) ;;
    emit (Insn (fnegd_cc ARM_CC_MI fp_dst fp_dst)) ;;
    RA_FreeFPURegister fp_tmp1 ;;
    RA_FreeFPURegister fp_tmp2 ;;
    RA_FreeARMRegister base_reg ;;
    RA_FreeARMRegister top_half ;;
    RA_FreeARMRegister sign ;;
    RA_FreeARMRegister cmp_num ;;
    EMIT_AdvancePC (2 * (ext_count + 1)) ;;
    m68k_advance ext_count ;;
    emit (Raw 0xfffffff0)
  (* FCOS.X reg, reg *)
  else if (opcode =? 0xf200) && (Z.land opcode2 0xe07f =? 0x001d) then
    fp_dst <- RA_MapFPURegister (Z.land (Z.shiftr opcode2 7) 7) ;;
    fp_src <- RA_MapFPURegister (Z.land (Z.shiftr opcode2 10) 7) ;;
    base_reg <- RA_AllocARMRegister ;;
    top_half <- RA_AllocARMRegister ;;
    cmp_num <- RA_AllocARMRegister ;;
    fp_tmp1 <- RA_AllocFPURegister ;;
    fp_tmp2 <- RA_AllocFPURegister ;;
    fp_dst <- RA_MapFPURegisterForWrite fp_dst ;;
    emit (Insn (ldr_offset 15 base_reg 0)) ;;
    emit (Insn (b_cc ARM_CC_AL 3)) ;;
    emit (Addr sym_constants) ;;
    adr_sin <- get_ptr ;;
    emit (Addr sym_PolySine) ;;
    adr_cos <- get_ptr ;;
    emit (Addr sym_PolyCosine) ;;
    adr_trim <- get_ptr ;;
    emit (Addr sym_TrimDoubleRange) ;;
    emit (Insn (movw_immed_u16 cmp_num 0)) ;;
    emit (Insn (fabsd fp_tmp1 fp_src)) ;;
    emit (Insn (fldd fp_tmp2 base_reg (C_1_PI * 2))) ;;
    emit (Insn (fmuld 0 fp_tmp1 fp_tmp2)) ;;
    (* Trim range to 0..2 *)
    emit (Insn (push (Z.lor (Z.lor (Z.shiftl 1 base_reg) 0x0f) (Z.shiftl 1 12)))) ;;
    call_literal adr_trim ;;
    emit (Insn (pop (Z.lor (Z.lor (Z.shiftl 1 base_reg) 0x0f) (Z.shiftl 1 12)))) ;;
    emit (Raw (Z.lor 0xee300b10 (Z.shiftl top_half 12))) ;;
    (* Range 1 *)
    emit (Insn (movt_immed_u16 cmp_num 0x3fe0)) ;;
    emit (Insn (cmp_reg top_half cmp_num)) ;;
    tmp_ptr <- get_ptr ;;
    emit (Insn (b_cc ARM_CC_GT 0)) ;;
    call_literal adr_cos ;;
    emit (Insn (fcpyd fp_dst 0)) ;;
    exit_1 <- get_ptr ;;
    emit (Insn (b_cc ARM_CC_AL 0)) ;;
    link_here tmp_ptr ;;
    (* Range 2 *)
    emit (Insn (movt_immed_u16 cmp_num 0x3ff0)) ;;
    emit (Insn (cmp_reg top_half cmp_num)) ;;
    tmp_ptr <- get_ptr ;;
    emit (Insn (b_cc ARM_CC_GT 0)) ;;
    emit (Insn (fldd fp_tmp1 base_reg (C_0_5 * 2))) ;;
    emit (Insn (fsubd 0 0 fp_tmp1)) ;;
    call_literal adr_sin ;;
    emit (Insn (fnegd fp_dst 0)) ;;
    exit_2 <- get_ptr ;;
    emit (Insn (b_cc ARM_CC_AL 0)) ;;
    link_here tmp_ptr ;;
    (* Range 3 *)
    emit (Insn (movt_immed_u16 cmp_num 0x3ff8)) ;;
    emit (Insn (cmp_reg top_half cmp_num)) ;;
    tmp_ptr <- get_ptr ;;
    emit (Insn (b_cc ARM_CC_GT 0)) ;;
    emit (Insn (fldd fp_tmp1 base_reg (C_10P0 * 2))) ;;
    emit (Insn (fsubd 0 0 fp_tmp1)) ;;
    call_literal adr_cos ;;
    emit (Insn (fnegd fp_dst 0)) ;;
    exit_3 <- get_ptr ;;
    emit (Insn (b_cc ARM_CC_AL 0)) ;;
    link_here tmp_ptr ;;
    (* Range 4 *)
    emit (Insn (fldd fp_tmp1 base_reg (C_1_5 * 2))) ;;
    emit (Insn (fsubd 0 0 fp_tmp1)) ;;
    call_literal adr_sin ;;
    emit (Insn (fcpyd fp_dst 0)) ;;
    link_here exit_1 ;;
    link_here exit_2 ;;
    link_here exit_3 ;;
    RA_FreeFPURegister fp_tmp1 ;;
    RA_FreeFPURegister fp_tmp2 ;;
    RA_FreeARMRegister base_reg ;;
    RA_FreeARMRegister top_half ;;
    RA_FreeARMRegister cmp_num ;;
    EMIT_AdvancePC (2 * (ext_count + 1)) ;;
    m68k_advance ext_count ;;
    emit (Raw 0xfffffff0)
  (* FNOP *)
  else if (opcode =? 0xf280) && (opcode2 =? 0) then
    EMIT_AdvancePC (2 * (ext_count + 1)) ;;
    m68k_advance ext_count ;;
    EMIT_FlushPC
  else
    emit (Insn (udf opcode)).

(** The two words [EMIT_lineF] decodes. *)
Definition lineF_opcode (s : emitter) : Z := u16 (m68k s (m68k_ptr s + 0)).
Definition lineF_opcode2 (s : emitter) : Z := u16 (m68k s (m68k_ptr s + 1)).

(** The guard words an emitter wrote itself, and the guard words in the
    buffer. *)
Definition is_udf_event (e : event) : bool :=
  match e with Emit w => is_udf w | _ => false end.

Definition udf_events (t : list event) : nat :=
  length (filter (fun e => is_udf_event e = true) t).

Definition udf_words (c : list word) : nat :=
  length (filter (fun w => is_udf w = true) c).

(** An action that writes no guard word of its own, whatever the state. *)
Definition no_guard {A} (m : M A) : Prop :=
  forall s, udf_events (trace (snd (m s))) = udf_events (trace s).

(** An emitter at the start of an empty buffer. *)
Definition start (guest : Z -> Z) (pc : Z) (r : RA) : emitter :=
  mkEmitter guest pc [] r [].

(** Reading a trace: the calls that free the host register [r], and the
    records an emitter leaves behind its code for the link pass (stored
    pointers, literal words, and the fix-up of an earlier branch). *)
Definition is_free_of (r : Z) (e : event) : bool :=
  match e with
  | Call (RA_FreeARMRegister_ r') _ _ => r' =? r
  | _ => false
  end.

Definition frees_of (r : Z) (t : list event) : nat :=
  length (filter (fun e => is_free_of r e = true) t).

Definition is_record (e : event) : bool :=
  match e with
  | Emit (PtrTo _) | Emit (Raw _) | Patch _ _ => true
  | _ => false
  end.

End Emitter.

(** ** What the emitted line-5 code does

    The instructions are those of the 32-bit ARM instruction set; their
    meaning below is the architecture's, restricted to the macros the DBcc
    emitter uses (the other constructors are not executed here). *)

Record arm : Type := mkArm {
  reg : Z -> Z;          (* r0..r14, 32-bit values *)
  flag_N : bool;
  flag_Z : bool;
  flag_C : bool;
  flag_V : bool
}.

Definition set_reg (r v : Z) (st : arm) : arm :=
  mkArm (fun x => if x =? r then u32 v else reg st x)
        (flag_N st) (flag_Z st) (flag_C st) (flag_V st).

Definition set_flags (n z c v : bool) (st : arm) : arm :=
  mkArm (reg st) n z c v.

Definition ror32 (v n : Z) : Z :=
  u32 (Z.lor (Z.shiftr v n) (Z.shiftl v (32 - n))).

(** The 12-bit "modified immediate": an 8-bit value rotated right by twice
    the 4-bit rotation. *)
Definition arm_imm (imm12 : Z) : Z :=
  ror32 (Z.land imm12 0xff) (2 * Z.shiftr imm12 8).

(** ConditionPassed() *)
Definition cond_holds (cc : Z) (st : arm) : bool :=
  let base :=
    match Z.shiftr cc 1 with
    | 0 => flag_Z st
    | 1 => flag_C st
    | 2 => flag_N st
    | 3 => flag_V st
    | 4 => flag_C st && negb (flag_Z st)
    | 5 => eqb (flag_N st) (flag_V st)
    | 6 => eqb (flag_N st) (flag_V st) && negb (flag_Z st)
    | _ => true
    end in
  if Z.testbit cc 0 && negb (cc =? 15) then negb base else base.

(** One instruction: the next state and, for a taken branch, its offset
    field.  [mem16] reads a halfword of guest memory. *)
Definition exec (mem16 : Z -> Z) (i : insn) (st : arm) : option (arm * option Z) :=
  match i with
  | mov_reg_shift d s sh => Some (set_reg d (Z.shiftl (reg st s) sh) st, None)
  | bic_immed d s imm =>
      Some (set_reg d (Z.land (reg st s) (u32 (Z.lnot (arm_imm imm)))) st, None)
  | tst_immed s imm =>
      let r := Z.land (reg st s) (arm_imm imm) in
      let c := if Z.shiftr imm 8 =? 0 then flag_C st else Z.testbit (arm_imm imm) 31 in
      Some (set_flags (Z.testbit r 31) (r =? 0) c (flag_V st) st, None)
  | orr_cc_immed cc d s imm =>
      Some (if cond_holds cc st then set_reg d (Z.lor (reg st s) (arm_imm imm)) st else st,
            None)
  | msr s mask =>
      Some (if Z.testbit mask 3
            then set_flags (Z.testbit (reg st s) 31) (Z.testbit (reg st s) 30)
                           (Z.testbit (reg st s) 29) (Z.testbit (reg st s) 28) st
            else st, None)
  | add_immed d s imm => Some (set_reg d (reg st s + arm_imm imm) st, None)
  | add_cc_immed cc d s imm =>
      Some (if cond_holds cc st then set_reg d (reg st s + arm_imm imm) st else st, None)
  | sub_immed d s imm => Some (set_reg d (reg st s - arm_imm imm) st, None)
  | cmn_immed s imm =>
      let a := reg st s in
      let b := arm_imm imm in
      let r := u32 (a + b) in
      let sa := if Z.testbit a 31 then a - 2 ^ 32 else a in
      let sb := if Z.testbit b 31 then b - 2 ^ 32 else b in
      let sr := if Z.testbit r 31 then r - 2 ^ 32 else r in
      Some (set_flags (Z.testbit r 31) (r =? 0) (2 ^ 32 <=? a + b)
                      (negb (sa + sb =? sr)) st, None)
  | lsr_immed d s sh => Some (set_reg d (Z.shiftr (reg st s) sh) st, None)
  | bfi d s lsb width =>
      let field := Z.shiftl (Z.ones width) lsb in
      Some (set_reg d (Z.lor (Z.land (reg st d) (Z.lnot field))
                             (Z.land (Z.shiftl (reg st s) lsb) field)) st, None)
  | ldrsh_offset base d off =>
      Some (set_reg d (sext16 (mem16 (u32 (reg st base + off)))) st, None)
  | add_reg d s1 s2 sh =>
      Some (set_reg d (reg st s1 + u32 (Z.shiftl (reg st s2) sh)) st, None)
  | b_cc cc off => Some (st, if cond_holds cc st then Some off else None)
  | _ => None
  end.

(** Running the words of one guest instruction from cell [pc].  A taken
    branch at cell [p] with offset field [off] continues at [p + 2 + off].
    Execution of the instruction's code is over at the first cell that is
    not an instruction (the records the emitter leaves for the link pass)
    or at the end of the buffer. *)
Fixpoint run (fuel : nat) (mem16 : Z -> Z) (c : list word) (pc : nat) (st : arm)
  : option arm :=
  match fuel with
  | O => None
  | S fuel' =>
      match c !! pc with
      | Some (Insn i) =>
          match exec mem16 i st with
          | Some (st', None) => run fuel' mem16 c (S pc) st'
          | Some (st', Some off) =>
              let target := Z.of_nat pc + 2 + off in
              if target <? 0 then None else run fuel' mem16 c (Z.to_nat target) st'
          | None => None
          end
      | _ => Some st
      end
  end.

(** Services that answer from a script: every call that returns a register
    takes the next number of the script, and no call appends code of its own
    (every guest register is resident, the PC advance is accumulated).  The
    two arguments are the host registers of the guest PC and SR. *)
Definition scripted_serve (c : service) (script : list Z) : Z * list word * list Z :=
  match c with
  | RA_AllocARMRegister_ | RA_MapM68kRegister_ _ | RA_MapFPURegister_ _
  | RA_MapFPURegisterForWrite_ _ | RA_AllocFPURegister_ =>
      (hd 0 script, [], tl script)
  | _ => (0, [], script)
  end.

Definition scripted (pc sr : Z) : Services (list Z) :=
  {| serve := scripted_serve; REG_PC := pc; REG_SR := sr |}.

(** The code [EMIT_line5] leaves in an empty buffer for the guest words
    [guest], under scripted services. *)
Definition line5_code (pc sr : Z) (script : list Z) (guest : Z -> Z) : list word :=
  code (snd (@EMIT_line5 _ (scripted pc sr) (start guest 0 script))).

Definition line5_trace (pc sr : Z) (script : list Z) (guest : Z -> Z) : list event :=
  trace (snd (@EMIT_line5 _ (scripted pc sr) (start guest 0 script))).

Definition lineF_trace (pc sr : Z) (script : list Z) (guest : Z -> Z) : list event :=
  trace (snd (@EMIT_lineF _ (scripted pc sr) (start guest 0 script))).

Definition lineF_code (pc sr : Z) (script : list Z) (guest : Z -> Z) : list word :=
  code (snd (@EMIT_lineF _ (scripted pc sr) (start guest 0 script))).

(** Guest words given as a list, zero elsewhere. *)
Definition words (l : list Z) : Z -> Z :=
  fun i => if i <? 0 then 0 else nth (Z.to_nat i) l 0.

(** Guest memory holding the halfwords [l] from address [base] on. *)
Definition halfwords_at (base : Z) (l : list Z) : Z -> Z :=
  fun a => if (a <? base) || negb ((a - base) mod 2 =? 0) then 0
           else nth (Z.to_nat ((a - base) / 2)) l 0.

(** A guest loop that consists of the one instruction at address [at_pc]
    (a [DBcc Dn, *] whose displacement leads back to itself): the emitted
    code is entered again as long as the guest PC, kept in host register
    [pcreg], is [at_pc].  The result counts the entries. *)
Fixpoint entries (fuel : nat) (mem16 : Z -> Z) (c : list word) (at_pc pcreg : Z)
  (st : arm) : option (nat * arm) :=
  match fuel with
  | O => None
  | S fuel' =>
      if reg st pcreg =? at_pc then
        match run 64 mem16 c 0 st with
        | Some st' =>
            match entries fuel' mem16 c at_pc pcreg st' with
            | Some (n, st'') => Some (S n, st'')
            | None => None
            end
        | None => None
        end
      else Some (O, st)
  end.

(** A host state with the given registers, zero elsewhere, flags clear. *)
Definition arm_with (rs : list (Z * Z)) : arm :=
  mkArm (fun r => match find (fun p => fst p =? r) rs with
                  | Some p => snd p
                  | None => 0
                  end) false false false false.

(** Instructions that never leave the instruction sequence, and the host
    register an instruction writes. *)
Definition straight (w : word) : bool :=
  match w with
  | Insn (b_cc _ _) => false
  | Insn _ => true
  | _ => false
  end.

Definition writes_only (r : Z) (w : word) : bool :=
  match w with
  | Insn (mov_reg_shift d _ _) | Insn (bic_immed d _ _) | Insn (orr_cc_immed _ d _ _)
  | Insn (add_immed d _ _) | Insn (add_cc_immed _ d _ _) | Insn (sub_immed d _ _)
  | Insn (lsr_immed d _ _) | Insn (bfi d _ _ _) | Insn (ldrsh_offset _ d _)
  | Insn (add_reg d _ _ _) => d =? r
  | _ => true
  end.

(** ** src/aarch64/start.c : the machine

    [A64.h], [M68k.h] and [RegisterAllocator.h] are not among the sources, so
    the host registers that carry guest state keep the names the assembly
    gives them ([REG_D0] .. [REG_D7], [REG_A0] .. [REG_A7], [REG_PC],
    [REG_FP0] .. [REG_FP7]); the registers the assembly names by number are
    [X n].  The fields of [struct M68KState] are reached by name, as the
    assembly does through [__builtin_offsetof]. *)

Module Host.

Inductive reg : Type :=
| REG_D (i : Z)
| REG_A (i : Z)
| REG_PC
| REG_FP (i : Z)
| X (n : Z)
| TPIDR_EL0       (* holds the guest SR *)
| TPIDR_EL1       (* holds the guest PC of the fragment in [x12] *)
| TPIDRRO_EL0.    (* holds the pointer to the context *)

#[global] Instance reg_eq_dec : EqDecision reg.
Proof. solve_decision. Defined.

End Host.

Module M68KState.

Inductive field : Type :=
| D (i : Z)
| A (i : Z)
| PC
| SR
| USP
| ISP
| MSP
| FP (i : Z)
| CACR
| VBR
| PINT
| IPL0.

#[global] Instance field_eq_dec : EqDecision field.
Proof. solve_decision. Defined.

End M68KState.

(** Status register bits ([SR_S], [SR_M], [SRB_S], [SRB_M], [SRB_IPL] of
    [M68k.h]): the 68k layout, which the dispatcher spells out when it sets S
    with [orr #0x2000], clears T1/T0 with [bic #0xc000] and prints the mask as
    [(sr >> 8) & 7]. *)
Definition SR_S := 0x2000.
Definition SR_M := 0x1000.
Definition SRB_S := 13.
Definition SRB_M := 12.
Definition SRB_IPL := 8.

(** [CACRB_IE]: the instruction-cache enable bit, the one [enable_cache]
    sets with [CACR = 0x80008000]. *)
Definition CACRB_IE := 15.

(** The host registers, the context record [ctx] points at, the memory the
    guest addresses (bytes), and the host memory holding the translation
    cache (64-bit cells, addressed by their byte address).  The context and
    the cache lie outside the 4 GB the guest can address. *)
Record machine : Type := mkMachine {
  regs : Host.reg -> Z;
  ctx : M68KState.field -> Z;
  mem : Z -> Z;
  heap : Z -> Z
}.

(** Register views and writes: a [w] write zero-extends into the [x]
    register. *)
Definition get_x (r : Host.reg) (m : machine) : Z := regs m r.
Definition get_w (r : Host.reg) (m : machine) : Z := u32 (regs m r).

Definition set_x (r : Host.reg) (v : Z) (m : machine) : machine :=
  mkMachine (<[r := u64 v]> (regs m)) (ctx m) (mem m) (heap m).

Definition set_w (r : Host.reg) (v : Z) (m : machine) : machine :=
  mkMachine (<[r := u32 v]> (regs m)) (ctx m) (mem m) (heap m).

(** [str w, ctx->f], [strh w, ctx->f], [str d, ctx->f] *)
Definition ctx_str (f : M68KState.field) (v : Z) (m : machine) : machine :=
  mkMachine (regs m) (<[f := u32 v]> (ctx m)) (mem m) (heap m).

Definition ctx_strh (f : M68KState.field) (v : Z) (m : machine) : machine :=
  mkMachine (regs m) (<[f := u16 v]> (ctx m)) (mem m) (heap m).

Definition ctx_str_d (f : M68KState.field) (v : Z) (m : machine) : machine :=
  mkMachine (regs m) (<[f := u64 v]> (ctx m)) (mem m) (heap m).

(** [ldp w1, w2, ctx->f1] and [stp w1, w2, ctx->f1] on adjacent fields. *)
Definition ldp_w (r1 r2 : Host.reg) (f1 f2 : M68KState.field) (m : machine) : machine :=
  set_w r2 (ctx m f2) (set_w r1 (ctx m f1) m).

Definition stp_w (r1 r2 : Host.reg) (f1 f2 : M68KState.field) (m : machine) : machine :=
  ctx_str f2 (get_w r2 m) (ctx_str f1 (get_w r1 m) m).

Definition ldr_d (r : Host.reg) (f : M68KState.field) (m : machine) : machine :=
  set_x r (ctx m f) m.

Definition str_d (r : Host.reg) (f : M68KState.field) (m : machine) : machine :=
  ctx_str_d f (get_x r m) m.

(** The stack pointer bank [SR] selects: MSP under S and M, ISP under S
    alone, USP otherwise. *)
Definition active_bank (sr : Z) : M68KState.field :=
  if negb (Z.land sr SR_S =? 0) then
    if negb (Z.land sr SR_M =? 0) then M68KState.MSP else M68KState.ISP
  else M68KState.USP.

Definition M68K_LoadContext (p : Z) (m : machine) : machine :=
  let m := set_x Host.TPIDRRO_EL0 p m in
  let m := ldp_w (Host.REG_D 0) (Host.REG_D 1) (M68KState.D 0) (M68KState.D 1) m in
  let m := ldp_w (Host.REG_D 2) (Host.REG_D 3) (M68KState.D 2) (M68KState.D 3) m in
  let m := ldp_w (Host.REG_D 4) (Host.REG_D 5) (M68KState.D 4) (M68KState.D 5) m in
  let m := ldp_w (Host.REG_D 6) (Host.REG_D 7) (M68KState.D 6) (M68KState.D 7) m in
  let m := ldp_w (Host.REG_A 0) (Host.REG_A 1) (M68KState.A 0) (M68KState.A 1) m in
  let m := ldp_w (Host.REG_A 2) (Host.REG_A 3) (M68KState.A 2) (M68KState.A 3) m in
  let m := ldp_w (Host.REG_A 4) (Host.REG_A 5) (M68KState.A 4) (M68KState.A 5) m in
  let m := ldp_w (Host.REG_A 6) (Host.REG_A 7) (M68KState.A 6) (M68KState.A 7) m in
  let m := set_w Host.REG_PC (ctx m M68KState.PC) m in
  let m := ldr_d (Host.REG_FP 0) (M68KState.FP 0) m in
  let m := ldr_d (Host.REG_FP 1) (M68KState.FP 1) m in
  let m := ldr_d (Host.REG_FP 2) (M68KState.FP 2) m in
  let m := ldr_d (Host.REG_FP 3) (M68KState.FP 3) m in
  let m := ldr_d (Host.REG_FP 4) (M68KState.FP 4) m in
  let m := ldr_d (Host.REG_FP 5) (M68KState.FP 5) m in
  let m := ldr_d (Host.REG_FP 6) (M68KState.FP 6) m in
  let m := ldr_d (Host.REG_FP 7) (M68KState.FP 7) m in
  (* ldrh w1, ctx->SR; msr tpidr_EL0, x1 *)
  let m := set_w (Host.X 1) (u16 (ctx m M68KState.SR)) m in
  let m := set_x Host.TPIDR_EL0 (get_x (Host.X 1) m) m in
  if negb (Z.land (ctx m M68KState.SR) SR_S =? 0) then
    if negb (Z.land (ctx m M68KState.SR) SR_M =? 0) then
      set_w (Host.REG_A 7) (ctx m M68KState.MSP) m
    else
      set_w (Host.REG_A 7) (ctx m M68KState.ISP) m
  else
    set_w (Host.REG_A 7) (ctx m M68KState.USP) m.

Definition M68K_SaveContext (p : Z) (m : machine) : machine :=
  let m := stp_w (Host.REG_D 0) (Host.REG_D 1) (M68KState.D 0) (M68KState.D 1) m in
  let m := stp_w (Host.REG_D 2) (Host.REG_D 3) (M68KState.D 2) (M68KState.D 3) m in
  let m := stp_w (Host.REG_D 4) (Host.REG_D 5) (M68KState.D 4) (M68KState.D 5) m in
  let m := stp_w (Host.REG_D 6) (Host.REG_D 7) (M68KState.D 6) (M68KState.D 7) m in
  let m := stp_w (Host.REG_A 0) (Host.REG_A 1) (M68KState.A 0) (M68KState.A 1) m in
  let m := stp_w (Host.REG_A 2) (Host.REG_A 3) (M68KState.A 2) (M68KState.A 3) m in
  let m := stp_w (Host.REG_A 4) (Host.REG_A 5) (M68KState.A 4) (M68KState.A 5) m in
  let m := stp_w (Host.REG_A 6) (Host.REG_A 7) (M68KState.A 6) (M68KState.A 7) m in
  let m := ctx_str M68KState.PC (get_w Host.REG_PC m) m in
  let m := str_d (Host.REG_FP 0) (M68KState.FP 0) m in
  let m := str_d (Host.REG_FP 1) (M68KState.FP 1) m in
  let m := str_d (Host.REG_FP 2) (M68KState.FP 2) m in
  let m := str_d (Host.REG_FP 3) (M68KState.FP 3) m in
  let m := str_d (Host.REG_FP 4) (M68KState.FP 4) m in
  let m := str_d (Host.REG_FP 5) (M68KState.FP 5) m in
  let m := str_d (Host.REG_FP 6) (M68KState.FP 6) m in
  let m := str_d (Host.REG_FP 7) (M68KState.FP 7) m in
  (* mrs x1, tpidr_EL0; strh w1, ctx->SR *)
  let m := set_x (Host.X 1) (get_x Host.TPIDR_EL0 m) m in
  let m := ctx_strh M68KState.SR (get_w (Host.X 1) m) m in
  if negb (Z.land (ctx m M68KState.SR) SR_S =? 0) then
    if negb (Z.land (ctx m M68KState.SR) SR_M =? 0) then
      ctx_str M68KState.MSP (get_w (Host.REG_A 7) m) m
    else
      ctx_str M68KState.ISP (get_w (Host.REG_A 7) m) m
  else
    ctx_str M68KState.USP (get_w (Host.REG_A 7) m) m.

(** The guest registers as the guest sees them in the host registers:
    32 bits of each data and address register and of the PC, 16 bits of SR,
    64 bits of each FPU register. *)
Definition guest_reg_view (r : Host.reg) (m : machine) : Z :=
  match r with
  | Host.REG_D _ | Host.REG_A _ | Host.REG_PC => u32 (regs m r)
  | Host.TPIDR_EL0 => u16 (regs m r)
  | _ => u64 (regs m r)
  end.

Definition is_guest_reg (r : Host.reg) : bool :=
  match r with
  | Host.REG_D i | Host.REG_A i | Host.REG_FP i => (0 <=? i) && (i <? 8)
  | Host.REG_PC | Host.TPIDR_EL0 => true
  | _ => false
  end.

(** ** src/aarch64/start.c : [FindUnit]

    The cache directory and the units live in host memory, read and written
    in 64-bit cells.  A unit starts with two list nodes (successor and
    predecessor pointers: cells +0/+8 and +16/+24) and holds the guest
    address it translates at +32; [ICache] is the address of the pointer to
    the array of bucket lists, 24 bytes each. *)

Definition ldr_x (rd : Host.reg) (addr : Z) (m : machine) : machine :=
  set_x rd (heap m (u64 addr)) m.

Definition str_x (addr v : Z) (m : machine) : machine :=
  mkMachine (regs m) (ctx m) (mem m) (<[u64 addr := u64 v]> (heap m)).

(** [eor w0, wPC, wPC, lsr #16; and x0, x0, #0xffff] *)
Definition unit_hash (pc : Z) : Z :=
  Z.land (Z.lxor (u32 pc) (Z.shiftr (u32 pc) 16)) 0xffff.

(** From [FindUnit:] to the [b 1f]: [x0] is the first node of the bucket. *)
Definition FindUnit_bucket (ICache : Z) (m : machine) : machine :=
  let m := set_x (Host.X 4) ICache m in
  let m := set_w (Host.X 0)
             (Z.lxor (get_w Host.REG_PC m) (Z.shiftr (get_w Host.REG_PC m) 16)) m in
  let m := set_x (Host.X 0) (Z.land (get_x (Host.X 0) m) 0xffff) m in
  let m := ldr_x (Host.X 4) (get_x (Host.X 4) m) m in
  let m := set_x (Host.X 0) (get_x (Host.X 0) m + Z.shiftl (get_x (Host.X 0) m) 1) m in
  ldr_x (Host.X 0) (get_x (Host.X 4) m + Z.shiftl (get_x (Host.X 0) m) 3) m.

(** The loop between labels [1:] and [3:].  [true]: left through [b.eq 2f]
    with the unit in [x0]; [false]: the end of the list was reached. *)
Fixpoint FindUnit_walk (fuel : nat) (m : machine) : option (bool * machine) :=
  match fuel with
  | O => None
  | S fuel' =>
      let m := ldr_x (Host.X 4) (get_x (Host.X 0) m) m in
      if get_x (Host.X 4) m =? 0 then Some (false, m)
      else
        let m := ldr_x (Host.X 5) (get_x (Host.X 0) m + 32) m in
        if get_w (Host.X 5) m =? get_w Host.REG_PC m then Some (true, m)
        else FindUnit_walk fuel' (set_x (Host.X 0) (get_x (Host.X 4) m) m)
  end.

(** Label [2:] up to the [ret]. *)
Definition FindUnit_promote (m : machine) : machine :=
  let m := ldr_x (Host.X 4) (get_x (Host.X 0) m + 24) m in
  let m := ldr_x (Host.X 5) (get_x (Host.X 4) m + 8) m in
  if get_x (Host.X 5) m =? 0 then m
  else
    let m := ldr_x (Host.X 6) (get_x (Host.X 0) m + 16) m in
    (* stp x4, x5, [x0, #16] *)
    let m := str_x (get_x (Host.X 0) m + 16) (get_x (Host.X 4) m) m in
    let m := str_x (get_x (Host.X 0) m + 24) (get_x (Host.X 5) m) m in
    let m := set_x (Host.X 7) (get_x (Host.X 0) m + 0x10) m in
    let m := str_x (get_x (Host.X 5) m) (get_x (Host.X 7) m) m in
    (* stp x6, x7, [x4] *)
    let m := str_x (get_x (Host.X 4) m) (get_x (Host.X 6) m) m in
    let m := str_x (get_x (Host.X 4) m + 8) (get_x (Host.X 7) m) m in
    str_x (get_x (Host.X 6) m + 8) (get_x (Host.X 4) m) m.

(** [FindUnit]: the result is in [x0], zero on a miss. *)
Definition FindUnit (ICache : Z) (fuel : nat) (m : machine) : option machine :=
  match FindUnit_walk fuel (FindUnit_bucket ICache m) with
  | Some (true, m') => Some (FindUnit_promote m')
  | Some (false, m') => Some (set_x (Host.X 0) 0 m')
  | None => None
  end.

(** A bucket as the walk sees it: from node [n], following the successor
    cells, the nodes [ns] and then the node [t] whose successor is null. *)
Inductive chain (h : Z -> Z) : Z -> list Z -> Z -> Prop :=
| chain_end t : h t = 0 -> chain h t [] t
| chain_node n ns t : h n <> 0 -> chain h (h n) ns t -> chain h n (n :: ns) t.

(** Addresses at which a unit fits below [2^64]. *)
Definition unit_address (n : Z) : Prop := 0 < n /\ n + 40 <= 2 ^ 64.

(** The first unit of [ns] whose guest address is [pc], or null. *)
Definition first_match (h : Z -> Z) (pc : Z) (ns : list Z) : Z :=
  match List.find (fun n => u32 (h (n + 32)) =? u32 pc) ns with
  | Some n => n
  | None => 0
  end.

(** The cells the lookup reads in a bucket, and the cells the promotion of
    unit [u] writes. *)
Definition bucket_cells (ns : list Z) (t : Z) : list Z :=
  flat_map (fun n => [n; n + 32]) ns ++ [t].

Definition promote_cells (h : Z -> Z) (u : Z) : list Z :=
  let p := u64 (h (u64 (u + 24))) in
  let pp := u64 (h (u64 (p + 8))) in
  let s := u64 (h (u64 (u + 16))) in
  if pp =? 0 then []
  else [u64 (u + 16); u64 (u + 24); pp; p; u64 (p + 8); u64 (s + 8)].

(** Where the bucket of [pc] starts. *)
Definition bucket_slot (ICache : Z) (h : Z -> Z) (pc : Z) : Z :=
  u64 (h (u64 ICache) + Z.shiftl (u64 (unit_hash pc + Z.shiftl (unit_hash pc) 1)) 3).


(** The second list as label [2:] sees it around unit [u]: the node before
    it, the node before that one, and the node after it. *)
Definition lru_pred (h : Z -> Z) (u : Z) : Z := u64 (h (u64 (u + 24))).
Definition lru_pred2 (h : Z -> Z) (u : Z) : Z := u64 (h (u64 (lru_pred h u + 8))).
Definition lru_succ (h : Z -> Z) (u : Z) : Z := u64 (h (u64 (u + 16))).

(** A host memory given by the cells that are not zero. *)
Fixpoint heap_of (cells : list (Z * Z)) (a : Z) : Z :=
  match cells with
  | [] => 0
  | (k, v) :: cells' => if a =? k then v else heap_of cells' a
  end.

Definition machine_of (pc : Z) (cells : list (Z * Z)) : machine :=
  mkMachine (fun r => match r with Host.REG_PC => pc | _ => 0 end)
            (fun _ => 0) (fun _ => 0) (heap_of cells).

(** Two units in the bucket of guest address [0x00010002], whose hash is 3:
    the directory is at [0x1000] (found through the variable at [0x100]), so
    the bucket is the 24-byte list header at [0x1048]; unit [0x2000]
    translates [0x00000003] and comes first, unit [0x3000] translates
    [0x00010002].  In the second list, whose header is at [0x5000], the unit
    at [0x2000] also comes first. *)
Definition two_units : list (Z * Z) :=
  [ (0x100, 0x1000);
    (0x1048, 0x2000); (0x1050, 0); (0x1058, 0x3000);
    (0x2000, 0x3000); (0x2008, 0x1048); (0x2020, 0x00000003);
    (0x3000, 0x1050); (0x3008, 0x2000); (0x3020, 0x00010002);
    (0x5000, 0x2010); (0x5008, 0); (0x5010, 0x3010);
    (0x2010, 0x3010); (0x2018, 0x5000);
    (0x3010, 0x5008); (0x3018, 0x2010) ].
(** ** src/aarch64/start.c : [ExecutionLoop]

    The dispatcher is one piece of assembly with three preprocessor
    switches.  What it reaches outside the file is gathered in an
    [environment]: the address of [ICache], the offsets of the fields of
    [struct M68KTranslationUnit], the two C functions it calls, the translated
    fragments it enters with [blr x12], and the answer of the GPIO status
    register the PISTORM build reads.

    [bl], [blr] and [ret] are calls and returns: code addresses are not part
    of the machine, so [x30] is only moved by the [stp] and [ldp] of the
    prologue and the epilogue.  [X 31] stands for [sp]; the host stack lies in
    [heap].  The numbers of the host registers that carry guest registers are
    fixed in [RegisterAllocator.h]; the model keeps them apart from the
    registers the assembly names by number. *)

Record config : Type := mkConfig {
  PISTORM : bool;
  EMU68_LOG_FETCHES : bool;
  EMU68_LOG_USES : bool
}.

Record environment : Type := mkEnvironment {
  ICache : Z;
  mt_ARMEntryPoint : Z;       (* [offset] *)
  mt_FetchCount : Z;          (* [fcount] *)
  mt_ARMCode_UseCount : Z;    (* [diff] *)
  M68K_GetTranslationUnit : machine -> machine;
  M68K_VerifyUnit : machine -> machine;
  fragment : Z -> machine -> machine;
  gpio_ldr : Z -> machine -> Z
}.

(** What an iteration does besides changing the machine. *)
Inductive step : Type :=
| Lookup (pc : Z)               (* the bucket walk, inline or through [bl FindUnit] *)
| Verify (unit : Z)             (* [bl M68K_VerifyUnit] *)
| Translate (pc : Z)            (* [bl M68K_GetTranslationUnit] *)
| Enter (entry pc : Z)          (* [blr x12] *)
| GpioStr (offset v : Z)        (* [str w, [x2, #offset]] on the GPIO block *)
| GpioLdr (offset : Z).         (* [ldr w, [x2, #offset]] on the GPIO block *)

(** *** Guest memory: bytes, the most significant first *)

Definition u8 (x : Z) : Z := x mod 2 ^ 8.

Definition mem_strh (addr v : Z) (m : machine) : machine :=
  mkMachine (regs m) (ctx m)
    (<[u64 (addr + 1) := u8 v]>
       (<[u64 addr := u8 (Z.shiftr v 8)]> (mem m)))
    (heap m).

Definition mem_str_w (addr v : Z) (m : machine) : machine :=
  mkMachine (regs m) (ctx m)
    (<[u64 (addr + 3) := u8 v]>
       (<[u64 (addr + 2) := u8 (Z.shiftr v 8)]>
          (<[u64 (addr + 1) := u8 (Z.shiftr v 16)]>
             (<[u64 addr := u8 (Z.shiftr v 24)]> (mem m)))))
    (heap m).

Definition mem_ldrh (addr : Z) (m : machine) : Z :=
  u8 (mem m (u64 addr)) * 2 ^ 8 + u8 (mem m (u64 (addr + 1))).

Definition mem_ldr_w (addr : Z) (m : machine) : Z :=
  u8 (mem m (u64 addr)) * 2 ^ 24 + u8 (mem m (u64 (addr + 1))) * 2 ^ 16 +
  u8 (mem m (u64 (addr + 2))) * 2 ^ 8 + u8 (mem m (u64 (addr + 3))).

(** [strh w, [xA7, #-2]!] and [str w, [xA7, #-4]!] *)
Definition push_h (v : Z) (m : machine) : machine :=
  let m := set_x (Host.REG_A 7) (get_x (Host.REG_A 7) m - 2) m in
  mem_strh (get_x (Host.REG_A 7) m) v m.

Definition push_w (v : Z) (m : machine) : machine :=
  let m := set_x (Host.REG_A 7) (get_x (Host.REG_A 7) m - 4) m in
  mem_str_w (get_x (Host.REG_A 7) m) v m.

(** *** Bit-field instructions on [w] registers *)

Definition ubfx_w (s lsb width : Z) : Z := Z.land (Z.shiftr s lsb) (Z.ones width).

Definition bfi_w (d s lsb width : Z) : Z :=
  Z.lor (Z.land d (Z.lnot (Z.shiftl (Z.ones width) lsb)))
        (Z.shiftl (Z.land s (Z.ones width)) lsb).

Definition bic_w (a b : Z) : Z := u32 (Z.land a (Z.lnot b)).

(** [lsl wd, wn, wm]: the amount is [wm] modulo 32. *)
Definition lsl_w (a b : Z) : Z := u32 (Z.shiftl a (b mod 32)).

Definition clz_w (x : Z) : Z := if x =? 0 then 32 else 31 - Z.log2 x.

Definition rev_w (x : Z) : Z :=
  Z.land x 0xff * 2 ^ 24 + Z.land (Z.shiftr x 8) 0xff * 2 ^ 16 +
  Z.land (Z.shiftr x 16) 0xff * 2 ^ 8 + Z.land (Z.shiftr x 24) 0xff.

(** The signed reading [b.gt] compares. *)
Definition sext32 (x : Z) : Z :=
  let v := u32 x in if v <? 2 ^ 31 then v else v - 2 ^ 32.

(** *** The blocks of the loop *)

(** Leaving user mode: [tbnz w2, #srb_s] ... up to the label the frame is
    built at.  [w2] holds SR, [x0] the context. *)
Definition enter_supervisor (m : machine) : machine :=
  if Z.testbit (get_w (Host.X 2) m) SRB_S then m
  else
    let m := ctx_str M68KState.USP (get_w (Host.REG_A 7) m) m in
    if Z.testbit (get_w (Host.X 2) m) SRB_M
    then set_w (Host.REG_A 7) (ctx m M68KState.MSP) m
    else set_w (Host.REG_A 7) (ctx m M68KState.ISP) m.

(** From [lsl w3, .., #2] to [ldr wPC, [x1, x3]]: the frame, the new SR
    (prepared in [w5]) and the new PC.  [w3] holds the level, [w2] the old
    SR. *)
Definition exception_frame (level : Z) (m : machine) : machine :=
  let m := set_w (Host.X 3) (Z.shiftl level 2) m in
  let m := set_w (Host.X 3) (get_w (Host.X 3) m + 0x60) m in
  let m := push_h (get_w (Host.X 3) m) m in
  let m := push_w (get_w Host.REG_PC m) m in
  let m := push_h (get_w (Host.X 2) m) m in
  let m := set_w (Host.X 5) (bic_w (get_w (Host.X 5) m) 0xc000) m in
  let m := set_w (Host.X 5) (Z.lor (get_w (Host.X 5) m) 0x2000) m in
  let m := set_x Host.TPIDR_EL0 (get_x (Host.X 5) m) m in
  let m := set_w (Host.X 1) (ctx m M68KState.VBR) m in
  set_w Host.REG_PC (mem_ldr_w (get_x (Host.X 1) m + get_x (Host.X 3) m) m) m.

(** Label [9:] without PISTORM: [w1] holds PINT, not zero.  First the
    pending levels the mask lets through, in [w3]. *)
Definition PINT_unmasked (m : machine) : machine :=
  let m := set_x (Host.X 2) (get_x Host.TPIDR_EL0 m) m in
  let m := set_w (Host.X 3) (ubfx_w (get_w (Host.X 2) m) SRB_IPL 3) m in
  let m := set_w (Host.X 4) 2 m in
  let m := set_w (Host.X 4) (lsl_w (get_w (Host.X 4) m) (get_w (Host.X 3) m)) m in
  let m := set_w (Host.X 4) (get_w (Host.X 4) m - 1) m in
  let m := set_w (Host.X 4) (bic_w (get_w (Host.X 4) m) 0x80) m in
  set_w (Host.X 3) (bic_w (get_w (Host.X 1) m) (get_w (Host.X 4) m)) m.

(** Labels [91:] and [94:]: the highest of these levels, in [w3]; its bit
    cleared in PINT; the SR with that level as mask, in [w5]. *)
Definition PINT_accept (m : machine) : machine :=
  let m := set_w (Host.X 3) (clz_w (get_w (Host.X 3) m)) m in
  let m := set_w (Host.X 3) (- get_w (Host.X 3) m) m in
  let m := set_w (Host.X 3) (get_w (Host.X 3) m + 31) m in
  let m := set_w (Host.X 4) 1 m in
  let m := set_w (Host.X 4) (lsl_w (get_w (Host.X 4) m) (get_w (Host.X 3) m)) m in
  let m := set_w (Host.X 1) (bic_w (get_w (Host.X 1) m) (get_w (Host.X 4) m)) m in
  let m := ctx_str M68KState.PINT (get_w (Host.X 1) m) m in
  let m := set_w (Host.X 5) (get_w (Host.X 2) m) m in
  set_w (Host.X 5) (bfi_w (get_w (Host.X 5) m) (get_w (Host.X 3) m) SRB_IPL 3) m.

Definition ExecutionLoop_PINT (m : machine) : machine :=
  let m := PINT_unmasked m in
  let m :=
    if get_w (Host.X 3) m =? 0 then m
    else
      let m := enter_supervisor m in
      let m := PINT_accept m in
      exception_frame (get_w (Host.X 3) m) m in
  (* 93: *)
  set_x (Host.X 2) (get_x Host.TPIDR_EL1 m) m.

(** Label [9:] with PISTORM: the level comes from the status register of the
    bus interface, read into [w1]; the mask is left in [w3]. *)
Definition GPIO : Z := 0xf2200000.

Definition IPL_read (gpio : Z -> machine -> Z) (m : machine) : list step * machine :=
  let m := set_x (Host.X 2) GPIO m in
  let m := set_w (Host.X 1) 0x0c000000 m in
  let m := set_w (Host.X 3) 0x40000000 m in
  let writes :=
    [GpioStr 28 (get_w (Host.X 1) m); GpioStr 28 (get_w (Host.X 3) m);
     GpioStr 28 (get_w (Host.X 3) m); GpioStr 28 (get_w (Host.X 3) m);
     GpioStr 28 (get_w (Host.X 3) m)] in
  let m := set_w (Host.X 3) (gpio (4 * 13) m) m in
  let m := set_w (Host.X 1) 0xff00 m in
  let m := set_w (Host.X 1)
             (Z.lor (Z.land (get_w (Host.X 1) m) 0xffff) (Z.shiftl 0xecff 16)) m in
  let trace := writes ++ [GpioLdr (4 * 13); GpioStr (4 * 10) (get_w (Host.X 1) m)] in
  let m := set_w (Host.X 3) (rev_w (get_w (Host.X 3) m)) m in
  let m := set_w (Host.X 1) (ubfx_w (get_w (Host.X 3) m) 21 3) m in
  let m := set_x (Host.X 2) (get_x Host.TPIDR_EL0 m) m in
  (trace, set_w (Host.X 3) (ubfx_w (get_w (Host.X 2) m) SRB_IPL 3) m).

(** Label [93:] of that build: the SR with the level as mask, in [w5]. *)
Definition IPL_accept (m : machine) : machine :=
  let m := set_w (Host.X 5) (get_w (Host.X 2) m) m in
  set_w (Host.X 5) (bfi_w (get_w (Host.X 5) m) (get_w (Host.X 1) m) SRB_IPL 3) m.

Definition ExecutionLoop_IPL (gpio : Z -> machine -> Z) (m : machine)
  : list step * machine :=
  let '(trace, m) := IPL_read gpio m in
  let m :=
    if (get_w (Host.X 1) m =? 7)
       || (sext32 (get_w (Host.X 3) m) <? sext32 (get_w (Host.X 1) m))
    then
      (* 91: *)
      let m := enter_supervisor m in
      (* 93: *)
      let m := IPL_accept m in
      exception_frame (get_w (Host.X 1) m) m
    else m in
  (* 92: *)
  (trace, set_x (Host.X 2) (get_x Host.TPIDR_EL1 m) m).

(** Where label [1:] leads: out of the loop through [4:], or to [99:]. *)
Inductive head : Type :=
| Leave (m : machine)
| Dispatch (m : machine).

Definition ExecutionLoop_head (cfg : config) (env : environment) (m : machine)
  : list step * head :=
  let m := set_x (Host.X 0) (get_x Host.TPIDRRO_EL0 m) m in
  let m := set_x (Host.X 2) (get_x Host.TPIDR_EL1 m) m in
  if negb (PISTORM cfg) && (get_w Host.REG_PC m =? 0) then ([], Leave m)
  else if PISTORM cfg then
    let m := set_w (Host.X 1) (ctx m M68KState.IPL0) m in
    if get_w (Host.X 1) m =? 0
    then let '(tr, m) := ExecutionLoop_IPL (gpio_ldr env) m in (tr, Dispatch m)
    else ([], Dispatch m)
  else
    let m := set_w (Host.X 1) (ctx m M68KState.PINT) m in
    if negb (get_w (Host.X 1) m =? 0)
    then ([], Dispatch (ExecutionLoop_PINT m))
    else ([], Dispatch m).

(** The counters of [EMU68_LOG_USES] and [EMU68_LOG_FETCHES]. *)
Definition log_use (cfg : config) (env : environment) (m : machine) : machine :=
  if EMU68_LOG_USES cfg then
    let m := set_x (Host.X 0)
               (Z.land (get_x (Host.X 12) m) (Z.lnot 0x0000001000000000)) m in
    let m := ldr_x (Host.X 1) (get_x (Host.X 0) m - mt_ARMCode_UseCount env) m in
    let m := set_x (Host.X 1) (get_x (Host.X 1) m + 1) m in
    str_x (get_x (Host.X 0) m - mt_ARMCode_UseCount env) (get_x (Host.X 1) m) m
  else m.

Definition log_fetch (cfg : config) (env : environment) (m : machine) : machine :=
  if EMU68_LOG_FETCHES cfg then
    let m := ldr_x (Host.X 1) (get_x (Host.X 0) m + mt_FetchCount env) m in
    let m := set_x (Host.X 1) (get_x (Host.X 1) m + 1) m in
    str_x (get_x (Host.X 0) m + mt_FetchCount env) (get_x (Host.X 1) m) m
  else m.

(** [blr x12] *)
Definition enter (env : environment) (m : machine) : list step * machine :=
  ([Enter (get_x (Host.X 12) m) (get_w Host.REG_PC m)],
   fragment env (get_x (Host.X 12) m) m).

(** [ldr x12, [x0, #offset]] ... [bl M68K_LoadContext] ... [blr x12], the
    common end of the two paths that leave the host registers. *)
Definition reload_and_enter (cfg : config) (env : environment) (m : machine)
  : list step * machine :=
  let m := ldr_x (Host.X 12) (get_x (Host.X 0) m + mt_ARMEntryPoint env) m in
  let m := log_fetch cfg env m in
  let m := set_x (Host.X 0) (get_x Host.TPIDRRO_EL0 m) m in
  let m := M68K_LoadContext (get_x (Host.X 0) m) m in
  let m := log_use cfg env m in
  enter env m.

(** From [99:] to the [b 1b] that ends the iteration.  [None]: a bucket walk
    did not end within [fuel] nodes. *)
Definition ExecutionLoop_dispatch (cfg : config) (env : environment)
  (fuel : nat) (m : machine) : option (list step * machine) :=
  let m := set_w (Host.X 1) (ctx m M68KState.CACR) m in
  if negb (Z.testbit (get_w (Host.X 1) m) CACRB_IE) then
    (* 2: the instruction cache is off *)
    let m := M68K_SaveContext (get_x (Host.X 0) m) m in
    let m := set_w (Host.X 0) (Z.lnot 0) m in
    let m := set_x Host.TPIDR_EL1 (get_x (Host.X 0) m) m in
    let m := set_w (Host.X 20) (get_w Host.REG_PC m) m in
    match FindUnit (ICache env) fuel m with
    | None => None
    | Some m1 =>
        let m2 := M68K_VerifyUnit env m1 in
        let '(tr, m3) :=
          if negb (get_x (Host.X 0) m2 =? 0) then ([], m2)
          else
            let m2 := set_w (Host.X 0) (get_w (Host.X 20) m2) m2 in
            ([Translate (get_w (Host.X 0) m2)], M68K_GetTranslationUnit env m2) in
        let '(tr', m4) := reload_and_enter cfg env m3 in
        Some (Lookup (get_w Host.REG_PC m) :: Verify (get_x (Host.X 0) m1)
                :: tr ++ tr', m4)
    end
  else if get_w (Host.X 2) m =? get_w Host.REG_PC m then
    (* the fragment in x12 is the one for this PC *)
    let '(tr, m) := enter env (log_use cfg env m) in Some (tr, m)
  else
    (* 13: *)
    match FindUnit_walk fuel (FindUnit_bucket (ICache env) m) with
    | None => None
    | Some (true, m1) =>
        (* 52: and 55: *)
        let m1 := FindUnit_promote m1 in
        let m1 := ldr_x (Host.X 12) (get_x (Host.X 0) m1 + mt_ARMEntryPoint env) m1 in
        let m1 := log_fetch cfg env m1 in
        let m1 := set_x Host.TPIDR_EL1 (get_x Host.REG_PC m1) m1 in
        let '(tr, m2) := enter env (log_use cfg env m1) in
        Some (Lookup (get_w Host.REG_PC m) :: tr, m2)
    | Some (false, m1) =>
        (* 5: *)
        let m1 := set_x (Host.X 0) (get_x Host.TPIDRRO_EL0 m1) m1 in
        let m1 := M68K_SaveContext (get_x (Host.X 0) m1) m1 in
        let m1 := set_w (Host.X 0) (get_w Host.REG_PC m1) m1 in
        let m1 := set_x Host.TPIDR_EL1 (get_x Host.REG_PC m1) m1 in
        let m2 := M68K_GetTranslationUnit env m1 in
        let '(tr, m3) := reload_and_enter cfg env m2 in
        Some (Lookup (get_w Host.REG_PC m) :: Translate (get_w (Host.X 0) m1) :: tr, m3)
    end.

(** The entry up to label [1:], and label [4:] up to the [ret]. *)
Definition SP : Host.reg := Host.X 31.

Definition stp_x (r1 r2 : Host.reg) (addr : Z) (m : machine) : machine :=
  str_x (addr + 8) (get_x r2 m) (str_x addr (get_x r1 m) m).

Definition ldp_x (r1 r2 : Host.reg) (addr : Z) (m : machine) : machine :=
  ldr_x r2 (addr + 8) (ldr_x r1 addr m).

Definition ExecutionLoop_push_frame (m : machine) : machine :=
  let m := set_x SP (get_x SP m - 128) m in
  let m := stp_x (Host.X 29) (Host.X 30) (get_x SP m) m in
  let m := stp_x (Host.X 27) (Host.X 28) (get_x SP m + 1 * 16) m in
  let m := stp_x (Host.X 25) (Host.X 26) (get_x SP m + 2 * 16) m in
  let m := stp_x (Host.X 23) (Host.X 24) (get_x SP m + 3 * 16) m in
  let m := stp_x (Host.X 21) (Host.X 22) (get_x SP m + 4 * 16) m in
  stp_x (Host.X 19) (Host.X 20) (get_x SP m + 5 * 16) m.

Definition ExecutionLoop_prologue (m : machine) : machine :=
  let m := ExecutionLoop_push_frame m in
  M68K_LoadContext (get_x (Host.X 0) m) m.

Definition ExecutionLoop_pop_frame (m : machine) : machine :=
  let m := ldp_x (Host.X 27) (Host.X 28) (get_x SP m + 1 * 16) m in
  let m := ldp_x (Host.X 25) (Host.X 26) (get_x SP m + 2 * 16) m in
  let m := ldp_x (Host.X 23) (Host.X 24) (get_x SP m + 3 * 16) m in
  let m := ldp_x (Host.X 21) (Host.X 22) (get_x SP m + 4 * 16) m in
  let m := ldp_x (Host.X 19) (Host.X 20) (get_x SP m + 5 * 16) m in
  let m := ldp_x (Host.X 29) (Host.X 30) (get_x SP m) m in
  set_x SP (get_x SP m + 128) m.

Definition ExecutionLoop_epilogue (m : machine) : machine :=
  let m := set_x (Host.X 0) (get_x Host.TPIDRRO_EL0 m) m in
  let m := M68K_SaveContext (get_x (Host.X 0) m) m in
  ExecutionLoop_pop_frame m.

(** The loop from label [1:]: the machine at the [ret] and what was done on
    the way.  [None]: the loop was still running after [fuel] iterations, or
    a bucket walk did not end. *)
Fixpoint ExecutionLoop_from (cfg : config) (env : environment)
  (fuel : nat) (m : machine) : option (list step * machine) :=
  match fuel with
  | O => None
  | S fuel' =>
      match ExecutionLoop_head cfg env m with
      | (tr, Leave m1) => Some (tr, ExecutionLoop_epilogue m1)
      | (tr, Dispatch m1) =>
          match ExecutionLoop_dispatch cfg env fuel m1 with
          | None => None
          | Some (tr1, m2) =>
              match ExecutionLoop_from cfg env fuel' m2 with
              | None => None
              | Some (tr2, m3) => Some (tr ++ tr1 ++ tr2, m3)
              end
          end
      end
  end.

Definition ExecutionLoop (cfg : config) (env : environment)
  (fuel : nat) (m : machine) : option (list step * machine) :=
  ExecutionLoop_from cfg env fuel (ExecutionLoop_prologue m).

(** The guest's status register as the dispatcher holds it, and its
    interrupt mask. *)
Definition guest_SR (m : machine) : Z := u32 (regs m Host.TPIDR_EL0).
Definition IPM (sr : Z) : Z := Z.land (Z.shiftr sr SRB_IPL) 7.

(** The highest level pending in a PINT word. *)
Definition highest_pending (pint : Z) : Z := Z.log2 pint.

(** A level the mask lets through: above IPM, or level 7. *)
Definition unmasked (ipm level : Z) : bool := (ipm <? level) || (level =? 7).

(** The stack the frame is pushed on: the one in A7 when the guest is in
    supervisor mode already, otherwise MSP or ISP as M tells. *)
Definition frame_stack (m : machine) : Z :=
  let sr := guest_SR m in
  if Z.testbit sr SRB_S then regs m (Host.REG_A 7)
  else if Z.testbit sr SRB_M then u32 (ctx m M68KState.MSP)
  else u32 (ctx m M68KState.ISP).

(** An environment that does nothing: the C functions and the fragments
    return at once. *)
Definition idle : environment :=
  mkEnvironment 0x100 0 0 0 (fun m => m) (fun m => m) (fun _ m => m) (fun _ _ => 0).

(** What the interrupt blocks compute, as functions of SR, PINT and the
    level: the PINT bits the mask hides, the level [clz] finds, and the SR
    the guest is left with. *)
Definition PINT_mask (ipm : Z) : Z := bic_w (u32 (lsl_w 2 ipm - 1)) 0x80.

Definition PINT_level (w3 : Z) : Z := u32 (u32 (- u32 (clz_w w3)) + 31).

Definition interrupt_SR (sr level : Z) : Z :=
  Z.lor (bic_w (u32 (bfi_w sr level SRB_IPL 3)) 0xc000) 0x2000.

(** The level the PISTORM build finds in the status word: [rev w3, w3;
    ubfx w1, w3, #21, #3]. *)
Definition IPL_of_status (status : Z) : Z := ubfx_w (rev_w (u32 status)) 21 3.

(** The accesses to the GPIO block on the way. *)
Definition IPL_accesses : list step :=
  [ GpioStr 28 0x0c000000; GpioStr 28 0x40000000; GpioStr 28 0x40000000;
    GpioStr 28 0x40000000; GpioStr 28 0x40000000; GpioLdr (4 * 13);
    GpioStr (4 * 10) 0xecffff00 ].

(** The check of one mask and one PINT word against [unmasked] and
    [highest_pending]. *)
Definition PINT_check (ipm pint : Z) : bool :=
  let w3 := bic_w pint (PINT_mask ipm) in
  let L := highest_pending pint in
  if unmasked ipm L
  then negb (w3 =? 0) && (PINT_level w3 =? L) &&
       (bic_w pint (lsl_w 1 L) =? pint - 2 ^ L)
  else w3 =? 0.

Definition upto (n : nat) : list Z := map Z.of_nat (seq 0 n).

(** A guest in user mode with IPM = 3, levels 5 and 2 pending, its stack at
    [0x8000] and the interrupt stack at [0x4000]; [pc] is the guest PC, [ipl0]
    the IPL0 field the PISTORM build looks at. *)
Definition pending_5_and_2 (pc ipl0 : Z) : machine :=
  mkMachine
    (fun r => match r with
              | Host.TPIDR_EL0 => 0x0300
              | Host.REG_PC => pc
              | Host.REG_A _ => 0x8000
              | _ => 0
              end)
    (fun f => match f with
              | M68KState.PINT => 0x24
              | M68KState.ISP => 0x4000
              | M68KState.IPL0 => ipl0
              | _ => 0
              end)
    (fun _ => 0) (fun _ => 0).
(** * Properties *)

(** ** Machine words *)

Lemma u16_range x : 0 <= u16 x < 2 ^ 16.
Proof. unfold u16. apply Z.mod_pos_bound. lia. Qed.

Lemma u32_range x : 0 <= u32 x < 2 ^ 32.
Proof. unfold u32. apply Z.mod_pos_bound. lia. Qed.

Lemma u64_range x : 0 <= u64 x < 2 ^ 64.
Proof. unfold u64. apply Z.mod_pos_bound. lia. Qed.

Lemma u32_small x : 0 <= x < 2 ^ 32 -> u32 x = x.
Proof. intros H. unfold u32. now apply Z.mod_small. Qed.

Lemma u64_small x : 0 <= x < 2 ^ 64 -> u64 x = x.
Proof. intros H. unfold u64. now apply Z.mod_small. Qed.

(** Bit-level bounds used throughout. *)

Lemma land_mask_range x n : 0 <= n -> 0 <= Z.land x (2 ^ n - 1) < 2 ^ n.
Proof.
  intros Hn. replace (2 ^ n - 1) with (Z.ones n) by (rewrite Z.ones_equiv; lia).
  rewrite Z.land_ones by assumption. apply Z.mod_pos_bound. lia.
Qed.

Lemma lor_lt_pow2 a b n :
  0 <= n -> 0 <= a < 2 ^ n -> 0 <= b < 2 ^ n -> 0 <= Z.lor a b < 2 ^ n.
Proof.
  intros Hn Ha Hb.
  assert (E : Z.lor a b = Z.lor a b mod 2 ^ n).
  { rewrite <- Z.land_ones, Z.land_lor_distr_l, !Z.land_ones by assumption.
    now rewrite !Z.mod_small by assumption. }
  rewrite E. apply Z.mod_pos_bound. lia.
Qed.

Lemma testbit_above x n : 0 <= n -> 0 <= x < 2 ^ n -> Z.testbit x n = false.
Proof.
  intros Hn [H0 H1].
  destruct (Z.eq_dec x 0) as [->|Hne]; [apply Z.bits_0|].
  apply Z.bits_above_log2; [assumption|].
  apply Z.log2_lt_pow2; lia.
Qed.
(** ** [TrimDoubleRange] *)

Lemma lor_shiftl_add x y n :
  0 <= n -> 0 <= x < 2 ^ n -> Z.lor (Z.shiftl y n) x = y * 2 ^ n + x.
Proof.
  intros Hn Hx. rewrite Z.or_to_plus; [now rewrite Z.shiftl_mul_pow2|].
  replace x with (x mod 2 ^ n) by (apply Z.mod_small; lia).
  Z.bitblast. subst. now rewrite Z.testbit_neg_r by lia.
Qed.

Lemma trim_exp_field a :
  Z.land (Z.shiftr (i32_0 a) 20) 0x7ff = double_exp a.
Proof.
  unfold i32_0, double_exp.
  change 0x7ff with (Z.ones 11). change 0xffffffff with (Z.ones 32).
  Z.bitblast.
Qed.

Lemma pack_fields M E :
  0 <= M < 2 ^ 52 -> 0 <= E < 2 ^ 11 ->
  set_i32_0 M (Z.lor (i32_0 M) (u32 (Z.shiftl E 20))) = E * 2 ^ 52 + M.
Proof.
  intros HM HE. unfold set_i32_0, i32_0.
  change 0xffffffff with (Z.ones 32).
  assert (H1 : 0 <= M / 2 ^ 32 < 2 ^ 20).
  { split; [apply Z.div_pos; lia|apply Z.div_lt_upper_bound; lia]. }
  assert (H2 : 0 <= M mod 2 ^ 32 < 2 ^ 32) by (apply Z.mod_pos_bound; lia).
  rewrite !Z.land_ones, Z.shiftr_div_pow2 by lia.
  rewrite (Z.mod_small (M / 2 ^ 32)) by lia.
  assert (H3 : u32 (Z.shiftl E 20) = Z.shiftl E 20).
  { apply u32_small. rewrite Z.shiftl_mul_pow2 by lia. lia. }
  rewrite H3, (Z.lor_comm (M / 2 ^ 32)), (lor_shiftl_add _ E 20) by lia.
  rewrite u32_small by lia.
  rewrite lor_shiftl_add by lia.
  pose proof (Z.div_mod M (2 ^ 32)). lia.
Qed.

Lemma mod_mod_pow2 x n m : 0 <= n <= m -> (x mod 2 ^ m) mod 2 ^ n = x mod 2 ^ n.
Proof.
  intros H. rewrite <- !Z.land_ones by lia. Z.bitblast.
Qed.

Lemma land_u64_shiftl x s n :
  0 <= s -> 0 <= n <= 64 ->
  Z.land (u64 (Z.shiftl x s)) (Z.ones n) = (x * 2 ^ s) mod 2 ^ n.
Proof.
  intros Hs Hn. rewrite Z.land_ones, Z.shiftl_mul_pow2 by lia.
  unfold u64. apply mod_mod_pow2. lia.
Qed.

Lemma clear_bit52 M :
  0 <= M < 2 ^ 53 ->
  Z.land M (u64 (Z.lnot 0x0010000000000000)) = M mod 2 ^ 52.
Proof.
  intros HM.
  replace M with (M mod 2 ^ 53) at 1 by (apply Z.mod_small; lia).
  rewrite <- !Z.land_ones, <- Z.land_assoc by lia. reflexivity.
Qed.

Lemma double_exp_range a : 0 <= double_exp a < 2 ^ 11.
Proof. unfold double_exp. change 0x7ff with (2 ^ 11 - 1). apply land_mask_range. lia. Qed.

Lemma double_man_range a : 0 <= double_man a < 2 ^ 52.
Proof.
  unfold double_man. change 0x000fffffffffffff with (2 ^ 52 - 1).
  apply land_mask_range. lia.
Qed.

Lemma TrimDoubleRange_arith_eq a : TrimDoubleRange a = TrimDoubleRange_arith a.
Proof.
  unfold TrimDoubleRange, TrimDoubleRange_arith.
  rewrite trim_exp_field. fold (double_man a).
  pose proof (double_exp_range a) as He. pose proof (double_man_range a) as Hm.
  set (e := double_exp a) in *. set (m := double_man a) in *.
  destruct (negb (m =? 0) && (0x3ff <? e) && (e <? 0x3ff + 52)) eqn:C1.
  - apply andb_prop in C1 as [C1 C3]. apply andb_prop in C1 as [C1 C2].
    apply Z.ltb_lt in C2, C3.
    cbv zeta.
    change 0x001fffffffffffff with (Z.ones 53).
    rewrite !land_u64_shiftl by lia.
    set (M := (m * 2 ^ (e - 0x3ff)) mod 2 ^ 53).
    assert (HM : 0 <= M < 2 ^ 53) by (apply Z.mod_pos_bound; lia).
    destruct (M =? 0) eqn:EM; cbn [negb].
    + apply Z.eqb_eq in EM. rewrite EM. reflexivity.
    + apply Z.eqb_neq in EM.
      assert (HL : 0 <= Z.log2 M < 53).
      { split; [apply Z.log2_nonneg|apply Z.log2_lt_pow2; lia]. }
      unfold clzll.
      replace (63 - Z.log2 M - 11) with (52 - Z.log2 M) by lia.
      set (d := 52 - Z.log2 M).
      destruct (d =? 0) eqn:Ed; cbn [negb].
      * apply Z.eqb_eq in Ed. rewrite clear_bit52 by lia.
        rewrite pack_fields; [|apply Z.mod_pos_bound; lia|lia].
        rewrite Ed, Z.sub_0_r, Z.pow_0_r, Z.mul_1_r. reflexivity.
      * change 0x000fffffffffffff with (Z.ones 52).
        rewrite land_u64_shiftl by lia.
        assert (HM2 : 0 <= (M * 2 ^ d) mod 2 ^ 52 < 2 ^ 52) by (apply Z.mod_pos_bound; lia).
        rewrite clear_bit52 by lia.
        rewrite (Z.mod_small (_ mod _)) by lia.
        rewrite (u32_small (0x3ff - d)) by lia.
        rewrite pack_fields by lia. reflexivity.
  - destruct ((m =? 0) && (0x3ff <? e)) eqn:C2.
    + apply andb_prop in C2 as [C2 _]. apply Z.eqb_eq in C2. rewrite C2. reflexivity.
    + rewrite clear_bit52, Z.mod_small by lia.
      rewrite pack_fields by lia. reflexivity.
Qed.

Lemma TrimDoubleRange_arith_range a : 0 <= TrimDoubleRange_arith a < 2 ^ 63.
Proof.
  unfold TrimDoubleRange_arith.
  pose proof (double_exp_range a) as He. pose proof (double_man_range a) as Hm.
  set (e := double_exp a) in *. set (m := double_man a) in *.
  destruct (negb (m =? 0) && (0x3ff <? e) && (e <? 0x3ff + 52)).
  - cbv zeta. set (M := (m * 2 ^ (e - 0x3ff)) mod 2 ^ 53).
    assert (HM : 0 <= M < 2 ^ 53) by (apply Z.mod_pos_bound; lia).
    destruct (M =? 0) eqn:EM; [lia|]. apply Z.eqb_neq in EM.
    assert (HL : 0 <= Z.log2 M < 53).
    { split; [apply Z.log2_nonneg|apply Z.log2_lt_pow2; lia]. }
    pose proof (Z.mod_pos_bound (M * 2 ^ (52 - Z.log2 M)) (2 ^ 52)). lia.
  - destruct ((m =? 0) && (0x3ff <? e)); lia.
Qed.

Lemma packed_exp M E :
  0 <= M < 2 ^ 52 -> 0 <= E < 2 ^ 11 -> double_exp (E * 2 ^ 52 + M) = E.
Proof.
  intros HM HE. unfold double_exp. change 0x7ff with (Z.ones 11).
  rewrite Z.land_ones, Z.shiftr_div_pow2 by lia.
  rewrite Z.div_add_l, (Z.div_small M) by lia.
  rewrite Z.add_0_r. apply Z.mod_small. lia.
Qed.

Lemma packed_man M E :
  0 <= M < 2 ^ 52 -> double_man (E * 2 ^ 52 + M) = M.
Proof.
  intros HM. unfold double_man. change 0x000fffffffffffff with (Z.ones 52).
  rewrite Z.land_ones by lia.
  rewrite Z.add_comm, Z.mod_add by lia. apply Z.mod_small. lia.
Qed.

Lemma double_fields a :
  0 <= a < 2 ^ 63 -> a = double_exp a * 2 ^ 52 + double_man a.
Proof.
  intros Ha. unfold double_exp, double_man.
  change 0x7ff with (Z.ones 11). change 0x000fffffffffffff with (Z.ones 52).
  rewrite !Z.land_ones, Z.shiftr_div_pow2 by lia.
  assert (0 <= a / 2 ^ 52 < 2 ^ 11).
  { split; [apply Z.div_pos; lia|apply Z.div_lt_upper_bound; lia]. }
  rewrite (Z.mod_small (a / 2 ^ 52)) by lia.
  pose proof (Z.div_mod a (2 ^ 52)). lia.
Qed.

(** Whatever the exponent, a pattern that is already below 2.0 and
    non-negative is returned as it is. *)
Lemma TrimDoubleRange_fixed a :
  0 <= a < 2 ^ 63 -> double_exp a <= 0x3ff -> TrimDoubleRange a = a.
Proof.
  intros Ha He. rewrite TrimDoubleRange_arith_eq. unfold TrimDoubleRange_arith.
  replace (0x3ff <? double_exp a) with false by (symmetry; apply Z.ltb_ge; lia).
  rewrite !andb_false_r. cbn [andb]. symmetry. now apply double_fields.
Qed.

(** On every input the first two branches are written for (an exponent
    below [0x3ff + 52], or a zero mantissa) the result is a non-negative
    pattern whose exponent field is at most [0x3ff]. *)
Lemma TrimDoubleRange_handled a :
  double_exp a < 0x3ff + 52 \/ double_man a = 0 ->
  0 <= TrimDoubleRange a < 2 ^ 63 /\ double_exp (TrimDoubleRange a) <= 0x3ff.
Proof.
  intros H. split; [rewrite TrimDoubleRange_arith_eq; apply TrimDoubleRange_arith_range|].
  rewrite TrimDoubleRange_arith_eq. unfold TrimDoubleRange_arith.
  pose proof (double_exp_range a) as He. pose proof (double_man_range a) as Hm.
  set (e := double_exp a) in *. set (m := double_man a) in *.
  destruct (negb (m =? 0) && (0x3ff <? e) && (e <? 0x3ff + 52)) eqn:C1.
  - cbv zeta. set (M := (m * 2 ^ (e - 0x3ff)) mod 2 ^ 53).
    assert (HM : 0 <= M < 2 ^ 53) by (apply Z.mod_pos_bound; lia).
    destruct (M =? 0) eqn:EM; [change (double_exp 0) with 0; lia|]. apply Z.eqb_neq in EM.
    assert (HL : 0 <= Z.log2 M < 53).
    { split; [apply Z.log2_nonneg|apply Z.log2_lt_pow2; lia]. }
    rewrite packed_exp; [lia|apply Z.mod_pos_bound; lia|lia].
  - destruct ((m =? 0) && (0x3ff <? e)) eqn:C2; [change (double_exp 0) with 0; lia|].
    rewrite packed_exp by lia.
    destruct (Z.eqb_spec m 0) as [Em|Em]; cbn [negb andb] in C1, C2.
    + apply Z.ltb_ge in C2. lia.
    + destruct (Z.ltb_spec 0x3ff e) as [L|L]; [|lia].
      cbn [andb] in C1. apply Z.ltb_ge in C1. lia.
Qed.

(** The branch the function does not have: a non-zero mantissa under an
    exponent of [0x3ff + 52] or more comes back with only its sign cleared. *)
Lemma TrimDoubleRange_unhandled a :
  0x3ff + 52 <= double_exp a -> double_man a <> 0 ->
  TrimDoubleRange a = double_exp a * 2 ^ 52 + double_man a.
Proof.
  intros He Hm. rewrite TrimDoubleRange_arith_eq. unfold TrimDoubleRange_arith.
  replace (double_exp a <? 0x3ff + 52) with false by (symmetry; apply Z.ltb_ge; lia).
  replace (double_man a =? 0) with false by (symmetry; now apply Z.eqb_neq).
  rewrite andb_false_r. reflexivity.
Qed.

(** C10. For every 64-bit pattern (negative numbers, infinities and NaNs
    included; indeed for every integer taken as the argument) the pattern
    returned by [TrimDoubleRange] has the IEEE-754 sign bit, bit 63, clear:
    the result is rebuilt from a mantissa below [2^52] and an exponent field
    below [2^11] placed at bits 20..30 of the upper word. *)
Theorem TrimDoubleRange_sign_clear :
  forall a : Z,
    double_sign (TrimDoubleRange a) = false /\
    Z.testbit (i32_0 (TrimDoubleRange a)) 31 = false /\
    0 <= TrimDoubleRange a < 2 ^ 63.
Proof.
  intros a.
  assert (R : 0 <= TrimDoubleRange a < 2 ^ 63).
  { rewrite TrimDoubleRange_arith_eq. apply TrimDoubleRange_arith_range. }
  split; [|split; [|exact R]].
  - unfold double_sign. apply testbit_above; lia.
  - unfold i32_0. change 0xffffffff with (Z.ones 32).
    rewrite Z.land_spec, Z.shiftr_spec by lia.
    change (31 + 32) with 63. rewrite (testbit_above _ 63) by lia. reflexivity.
Qed.

Example TrimDoubleRange_negative : TrimDoubleRange 0xc004000000000000 = 0x3fe0000000000000.
Proof. reflexivity. Qed.

Example TrimDoubleRange_neg_infinity : TrimDoubleRange 0xfff0000000000000 = 0.
Proof. reflexivity. Qed.

Example TrimDoubleRange_neg_nan : TrimDoubleRange 0xfff8000000000001 = 0x7ff8000000000001.
Proof. reflexivity. Qed.

Example TrimDoubleRange_three : TrimDoubleRange 0x4008000000000000 = 0x3ff0000000000000.
Proof. reflexivity. Qed.

(** C3, at the input 2^52 + 1.  The pattern [0x4330000000000001] is a finite
    double (exponent field [0x433 = 0x3ff + 52], mantissa 1).  Its mantissa
    is not zero and its exponent is not below [0x3ff + 52], so neither branch
    of the function applies and the pattern comes back unchanged: the value
    returned is 4503599627370497, which is not in [0, 2). *)
Theorem TrimDoubleRange_large_odd_unchanged :
  double_finite 0x4330000000000001 = true /\
  TrimDoubleRange 0x4330000000000001 = 0x4330000000000001 /\
  (double_value (TrimDoubleRange 0x4330000000000001) == 4503599627370497)%Q /\
  ~ in_range_0_2 (TrimDoubleRange 0x4330000000000001).
Proof.
  split; [reflexivity|]. split; [reflexivity|]. split; [reflexivity|].
  intros (_ & _ & H). vm_compute in H. discriminate H.
Qed.

(** Reading the interval [0, 2) off the fields: a non-negative pattern
    stands for a number in [0, 2) exactly when its exponent field is at most
    [0x3ff]. *)
Lemma in_range_0_2_fields b :
  0 <= b < 2 ^ 63 -> (in_range_0_2 b <-> double_exp b <= 0x3ff).
Proof.
  intros Hb. unfold in_range_0_2, double_value, double_finite.
  assert (Hs : double_sign b = false) by (unfold double_sign; apply testbit_above; lia).
  rewrite Hs.
  pose proof (double_exp_range b) as He. pose proof (double_man_range b) as Hm.
  set (e := double_exp b) in *. set (m := double_man b) in *. cbv zeta.
  set (m' := if e =? 0 then m else 2 ^ 52 + m).
  set (k := if e =? 0 then -1074 else e - 1075).
  assert (Hm' : 0 <= m' < 2 ^ 53) by (subst m'; destruct (e =? 0); lia).
  assert (H12 : (1 <= 2)%Q) by (vm_compute; discriminate).
  split.
  - intros (_ & _ & Hlt).
    destruct (Z.le_gt_cases e 0x3ff) as [|Hgt]; [assumption|exfalso].
    assert (Hk : k = e - 1075) by (subst k; destruct (Z.eqb_spec e 0); lia).
    assert (Hmm : m' = 2 ^ 52 + m) by (subst m'; destruct (Z.eqb_spec e 0); lia).
    apply (Qlt_not_le _ _ Hlt).
    apply Qle_trans with (inject_Z (2 ^ 52) * Qpower 2 (-51))%Q;
      [vm_compute; discriminate|].
    apply Qle_trans with (inject_Z m' * Qpower 2 (-51))%Q.
    + apply Qmult_le_compat_r; [rewrite <- Zle_Qle; lia|vm_compute; discriminate].
    + rewrite !(Qmult_comm (inject_Z m')).
      apply Qmult_le_compat_r; [|change 0%Q with (inject_Z 0); rewrite <- Zle_Qle; lia].
      apply Qpower_le_compat_l; [lia|exact H12].
  - intros Hle. split; [|split].
    + apply negb_true_iff, Z.eqb_neq. lia.
    + apply Qmult_le_0_compat; [change 0%Q with (inject_Z 0); rewrite <- Zle_Qle; lia|].
      apply Qpower_0_le. vm_compute; discriminate.
    + assert (Hk : k <= -52) by (subst k; destruct (Z.eqb_spec e 0); lia).
      apply Qle_lt_trans with (inject_Z m' * Qpower 2 (-52))%Q.
      * rewrite !(Qmult_comm (inject_Z m')).
        apply Qmult_le_compat_r; [|change 0%Q with (inject_Z 0); rewrite <- Zle_Qle; lia].
        apply Qpower_le_compat_l; [lia|exact H12].
      * apply Qlt_le_trans with (inject_Z (2 ^ 53) * Qpower 2 (-52))%Q;
          [|vm_compute; discriminate].
        apply Qmult_lt_compat_r; [reflexivity|rewrite <- Zlt_Qlt; lia].
Qed.

(** The second half of C3 holds on the patterns with a clear sign bit: a
    finite non-negative double already in [0, 2) is returned bit for bit
    (-0.0, whose sign bit is set, comes back as +0.0). *)
Lemma TrimDoubleRange_idempotent_in_range a :
  0 <= a < 2 ^ 63 -> in_range_0_2 a -> TrimDoubleRange a = a.
Proof.
  intros Ha Hr. apply TrimDoubleRange_fixed; [assumption|].
  now apply in_range_0_2_fields.
Qed.

(** The first half of C3 holds on the inputs the two branches cover. *)
Lemma TrimDoubleRange_handled_in_range a :
  double_exp a < 0x3ff + 52 \/ double_man a = 0 ->
  in_range_0_2 (TrimDoubleRange a).
Proof.
  intros H. destruct (TrimDoubleRange_handled a H) as [R E].
  now apply in_range_0_2_fields.
Qed.

(** ** [EMIT_line5]: the calls it makes *)

Section Line5Trace.

Context {RA : Type} {SV : Services RA}.

#[local] Ltac run_services :=
  repeat match goal with
         | |- context [serve ?c ?r] =>
             let x := fresh "r" in
             let ws := fresh "ws" in
             let a := fresh "ra" in
             destruct (serve c r) as [[x ws] a] eqn:?; cbn
         end.

#[local] Ltac unfold_emitter :=
  unfold EMIT_LoadARMCC, RA_MapM68kRegister, RA_AllocARMRegister, RA_FreeARMRegister,
    RA_SetDirtyM68kRegister, RA_MapFPURegister, RA_MapFPURegisterForWrite,
    RA_AllocFPURegister, RA_FreeFPURegister, EMIT_AdvancePC, EMIT_FlushPC,
    call, emit, patch, get_ptr, m68k_advance, bind, ret;
  cbn [m68k m68k_ptr code ra trace].

(** C9. On the DBcc path of [EMIT_line5] with a condition other than T, for
    any register allocator: the scratch register [reg] obtained from
    [RA_AllocARMRegister] for the counter arithmetic is handed to
    [RA_FreeARMRegister] right after the last PC update
    ([add_reg(REG_PC, REG_PC, reg, 0)]) and a second time after the trailing
    patch records; between its allocation and the first of the two calls
    there is no free at all, so it is freed twice in one emission. *)
Theorem EMIT_line5_DBcc_frees_scratch_twice :
  forall s : emitter,
    let opcode := u16 (m68k s (m68k_ptr s)) in
    Z.land opcode 0xf0c0 = 0x50c0 ->
    Z.land opcode 0x38 = 0x08 ->
    Z.land (Z.shiftr opcode 8) 0x0f <> M_CC_T ->
    exists pre reg wa body r1 w1 recs r2 w2,
      trace (snd (EMIT_line5 s)) =
        trace s ++ pre ++ [Call RA_AllocARMRegister_ reg wa] ++ body ++
        [Emit (Insn (add_reg REG_PC REG_PC reg 0));
         Call (RA_FreeARMRegister_ reg) r1 w1] ++
        recs ++ [Call (RA_FreeARMRegister_ reg) r2 w2] /\
      Forall (fun e => match e with Call (RA_FreeARMRegister_ _) _ _ => False | _ => True end)
             body /\
      recs <> [] /\
      Forall (fun e => is_record e = true) recs.
Proof.
  intros s opcode H1 H2 H3.
  unfold EMIT_line5, bind, fetch16. rewrite Z.add_0_r. fold opcode.
  rewrite H1, H2. cbn [Z.eqb Pos.eqb].
  apply Z.eqb_neq in H3. rewrite H3.
  unfold_emitter.
  destruct (Z.land (Z.shiftr opcode 8) 15 =? M_CC_F) eqn:EF; cbn [negb].
  - run_services. rewrite <- !app_assoc. cbn [app].
    eexists [_], _, _, [_;_;_;_;_;_;_;_;_], _, _, [_;_;_], _, _.
    split; [reflexivity|]. split; [repeat constructor|]. split; [discriminate|].
    repeat constructor.
  - run_services. rewrite <- !app_assoc. cbn [app].
    eexists [_;_;_;_;_;_;_;_;_;_;_;_;_], _, _, [_;_;_;_;_;_;_;_;_], _, _,
            [_;_;_;_;_], _, _.
    split; [reflexivity|]. split; [repeat constructor|]. split; [discriminate|].
    repeat constructor.
Qed.

End Line5Trace.

(** The same on DBF D0 with a scripted allocator. *)
Lemma EMIT_line5_DBcc_frees_scratch_twice_witness :
  exists pre reg wa body r1 w1 recs r2 w2,
    line5_trace 11 10 [4; 0] (words [0x51c8; 0xfffe]) =
      [] ++ pre ++ [Call RA_AllocARMRegister_ reg wa] ++ body ++
      [Emit (Insn (add_reg 11 11 reg 0)); Call (RA_FreeARMRegister_ reg) r1 w1] ++
      recs ++ [Call (RA_FreeARMRegister_ reg) r2 w2] /\
    Forall (fun e => match e with Call (RA_FreeARMRegister_ _) _ _ => False | _ => True end)
           body /\
    recs <> [] /\
    Forall (fun e => is_record e = true) recs.
Proof.
  apply (@EMIT_line5_DBcc_frees_scratch_twice (list Z) (scripted 11 10)
           (start (words [0x51c8; 0xfffe]) 0 [4; 0])).
  - reflexivity.
  - reflexivity.
  - vm_compute. discriminate.
Defined.

Example EMIT_line5_DBF_trace :
  line5_trace 11 10 [4; 0] (words [0x51c8; 0xfffe]) =
    [ Call (RA_MapM68kRegister_ 0) 4 [];
      Call RA_AllocARMRegister_ 0 [];
      Emit (Insn (mov_reg_shift 0 4 16));
      Emit (Insn (sub_immed 0 0 0x801));
      Emit (Insn (cmn_immed 0 0x801));
      Emit (Insn (lsr_immed 0 0 16));
      Emit (Insn (bfi 4 0 0 16));
      Call (RA_SetDirtyM68kRegister_ 0) 0 [];
      Emit (Insn (ldrsh_offset 11 0 0));
      Emit (Insn (add_cc_immed ARM_CC_EQ 11 11 2));
      Emit (Insn (b_cc ARM_CC_EQ 0));
      Emit (Insn (add_reg 11 11 0 0));
      Call (RA_FreeARMRegister_ 0) 0 [];
      Emit (PtrTo 7);
      Emit (Raw 1);
      Emit (Raw 0xfffffffe);
      Call (RA_FreeARMRegister_ 0) 0 [] ].
Proof. reflexivity. Qed.

(** ** [EMIT_lineF]: where the guard word is written *)

Lemma udf_events_app t1 t2 : udf_events (t1 ++ t2) = (udf_events t1 + udf_events t2)%nat.
Proof. unfold udf_events. now rewrite filter_app, length_app. Qed.

Lemma udf_events_singleton e :
  udf_events [e] = if is_udf_event e then 1%nat else 0%nat.
Proof.
  unfold udf_events. rewrite filter_cons, filter_nil.
  destruct (is_udf_event e); case_decide; try reflexivity; congruence.
Qed.

(** The opcode tests of [EMIT_lineF] exclude each other where it matters:
    a second word of FABS.X has bit 14 clear, one of FMOVECR has it set, and
    the low seven bits tell FABS (0x18), FSIN (0x0e) and FCOS (0x1d) apart. *)
Lemma FABS_not_FMOVECR w : Z.land w 0x407f = 0x0018 -> Z.land w 0xfc00 <> 0x5c00.
Proof.
  intros H E.
  assert (A : Z.land (Z.land w 0x407f) 0x4000 = 0) by now rewrite H.
  assert (B : Z.land (Z.land w 0xfc00) 0x4000 = 0x4000) by now rewrite E.
  rewrite <- Z.land_assoc in A, B.
  change (Z.land 0x407f 0x4000) with 0x4000 in A.
  change (Z.land 0xfc00 0x4000) with 0x4000 in B. congruence.
Qed.

Lemma FABS_not_FSIN w : Z.land w 0x407f = 0x0018 -> Z.land w 0xe07f <> 0x000e.
Proof.
  intros H E.
  assert (A : Z.land (Z.land w 0x407f) 0x7f = 0x18) by now rewrite H.
  assert (B : Z.land (Z.land w 0xe07f) 0x7f = 0x0e) by now rewrite E.
  rewrite <- Z.land_assoc in A, B.
  change (Z.land 0x407f 0x7f) with 0x7f in A.
  change (Z.land 0xe07f 0x7f) with 0x7f in B. congruence.
Qed.

Lemma FABS_not_FCOS w : Z.land w 0x407f = 0x0018 -> Z.land w 0xe07f <> 0x001d.
Proof.
  intros H E.
  assert (A : Z.land (Z.land w 0x407f) 0x7f = 0x18) by now rewrite H.
  assert (B : Z.land (Z.land w 0xe07f) 0x7f = 0x1d) by now rewrite E.
  rewrite <- Z.land_assoc in A, B.
  change (Z.land 0x407f 0x7f) with 0x7f in A.
  change (Z.land 0xe07f 0x7f) with 0x7f in B. congruence.
Qed.

Section LineFTrace.

Context {RA : Type} {SV : Services RA}.

#[local] Ltac run_services :=
  repeat match goal with
         | |- context [serve ?c ?r] =>
             let x := fresh "r" in
             let ws := fresh "ws" in
             let a := fresh "ra" in
             destruct (serve c r) as [[x ws] a] eqn:?;
             cbn [trace code ra m68k m68k_ptr snd fst]
         end.

#[local] Ltac unfold_emitter :=
  unfold call_literal, link_here;
  unfold RA_MapM68kRegister, RA_AllocARMRegister, RA_FreeARMRegister,
    RA_SetDirtyM68kRegister, RA_MapFPURegister, RA_MapFPURegisterForWrite,
    RA_AllocFPURegister, RA_FreeFPURegister, EMIT_AdvancePC, EMIT_FlushPC,
    call, emit, patch, get_ptr, m68k_advance, bind, ret;
  cbn [m68k m68k_ptr code ra trace].

(** An opcode pair none of the five tests accepts gets the guard word and
    nothing else. *)
Lemma EMIT_lineF_unrecognized s :
  (lineF_opcode s =? 0xf200) && (Z.land (lineF_opcode2 s) 0x407f =? 0x0018) = false ->
  (lineF_opcode s =? 0xf200) && (Z.land (lineF_opcode2 s) 0xfc00 =? 0x5c00) = false ->
  (lineF_opcode s =? 0xf200) && (Z.land (lineF_opcode2 s) 0xe07f =? 0x000e) = false ->
  (lineF_opcode s =? 0xf200) && (Z.land (lineF_opcode2 s) 0xe07f =? 0x001d) = false ->
  (lineF_opcode s =? 0xf280) && (lineF_opcode2 s =? 0) = false ->
  trace (snd (EMIT_lineF s)) = trace s ++ [Emit (Insn (udf (lineF_opcode s)))].
Proof.
  unfold lineF_opcode, lineF_opcode2. intros H1 H2 H3 H4 H5.
  unfold EMIT_lineF, bind, fetch16. cbn [m68k_advance m68k m68k_ptr].
  rewrite H1. cbn [ret]. cbn [m68k m68k_ptr]. rewrite H2, H3, H4, H5.
  reflexivity.
Qed.

(** FABS.X: the first [if] emits the instruction and the PC advance, and,
    as the chain of tests that follows starts with a fresh [if], control
    falls through it to the final [else]. *)
Lemma EMIT_lineF_FABS s :
  lineF_opcode s = 0xf200 ->
  Z.land (lineF_opcode2 s) 0x407f = 0x0018 ->
  exists r ws,
    trace (snd (EMIT_lineF s)) =
      trace s ++
      [ Emit (Insn (fabsd (Z.land (Z.shiftr (lineF_opcode2 s) 7) 7)
                          (Z.land (Z.shiftr (lineF_opcode2 s) 10) 7)));
        Call (EMIT_AdvancePC_ 4) r ws;
        Emit (Insn (udf 0xf200)) ].
Proof.
  unfold lineF_opcode, lineF_opcode2. intros H1 H2.
  pose proof (FABS_not_FMOVECR _ H2) as N1. apply Z.eqb_neq in N1.
  pose proof (FABS_not_FSIN _ H2) as N2. apply Z.eqb_neq in N2.
  pose proof (FABS_not_FCOS _ H2) as N3. apply Z.eqb_neq in N3.
  unfold EMIT_lineF, bind, fetch16. cbn [m68k_advance m68k m68k_ptr].
  rewrite H1, H2, N1, N2, N3. cbn [Z.eqb Pos.eqb andb].
  unfold_emitter. run_services.
  rewrite <- !app_assoc. cbn [app]. eauto.
Qed.

Lemma no_guard_ret {A} (a : A) : no_guard (RA:=RA) (ret a).
Proof. intros s. reflexivity. Qed.

Lemma no_guard_bind {A B} (m : @M RA A) (k : A -> @M RA B) :
  no_guard m -> (forall a, no_guard (k a)) -> no_guard (bind m k).
Proof.
  intros Hm Hk s. unfold bind. destruct (m s) as [a s'] eqn:E.
  rewrite Hk. specialize (Hm s). now rewrite E in Hm.
Qed.

Lemma no_guard_emit w : is_udf w = false -> no_guard (RA:=RA) (emit w).
Proof.
  intros H s. unfold emit. cbn [snd trace].
  rewrite udf_events_app, udf_events_singleton. cbn [is_udf_event]. rewrite H. lia.
Qed.

Lemma no_guard_patch p op : no_guard (RA:=RA) (patch p op).
Proof.
  intros s. unfold patch. cbn [snd trace].
  rewrite udf_events_app, udf_events_singleton. cbn [is_udf_event]. lia.
Qed.

Lemma no_guard_call c : no_guard (call c).
Proof.
  intros s. unfold call. destruct (serve c (ra s)) as [[r ws] ra']. cbn [snd trace].
  rewrite udf_events_app, udf_events_singleton. cbn [is_udf_event]. lia.
Qed.

Lemma no_guard_get_ptr : no_guard (RA:=RA) get_ptr.
Proof. intros s. reflexivity. Qed.

Lemma no_guard_m68k_advance n : no_guard (RA:=RA) (m68k_advance n).
Proof. intros s. reflexivity. Qed.

#[local] Ltac no_guard_step :=
  lazymatch goal with
  | |- no_guard (bind _ _) => apply no_guard_bind; [|intros ?]
  | |- no_guard (ret _) => apply no_guard_ret
  | |- no_guard get_ptr => apply no_guard_get_ptr
  | |- no_guard (m68k_advance _) => apply no_guard_m68k_advance
  | |- no_guard (patch _ _) => apply no_guard_patch
  | |- no_guard (call _) => apply no_guard_call
  | |- no_guard (emit _) => apply no_guard_emit; reflexivity
  end.

#[local] Ltac no_guard_all :=
  unfold call_literal, link_here, RA_MapM68kRegister, RA_AllocARMRegister,
    RA_FreeARMRegister, RA_SetDirtyM68kRegister, RA_MapFPURegister,
    RA_MapFPURegisterForWrite, RA_AllocFPURegister, RA_FreeFPURegister,
    EMIT_AdvancePC, EMIT_FlushPC;
  repeat no_guard_step.

(** FMOVECR, FSIN.X, FCOS.X and FNOP (the tests after FABS.X): the emitter
    writes no guard word. *)
Lemma EMIT_lineF_no_guard s :
  (lineF_opcode s =? 0xf200) && (Z.land (lineF_opcode2 s) 0x407f =? 0x0018) = false ->
  (lineF_opcode s =? 0xf200) && (Z.land (lineF_opcode2 s) 0xfc00 =? 0x5c00) = true \/
  (lineF_opcode s =? 0xf200) && (Z.land (lineF_opcode2 s) 0xe07f =? 0x000e) = true \/
  (lineF_opcode s =? 0xf200) && (Z.land (lineF_opcode2 s) 0xe07f =? 0x001d) = true \/
  (lineF_opcode s =? 0xf280) && (lineF_opcode2 s =? 0) = true ->
  udf_events (trace (snd (EMIT_lineF s))) = udf_events (trace s).
Proof.
  unfold lineF_opcode, lineF_opcode2. intros H1 H.
  unfold EMIT_lineF.
  unfold bind at 1, fetch16 at 1. unfold bind at 1, fetch16 at 1.
  rewrite H1.
  set (opcode := u16 (m68k s (m68k_ptr s + 0))) in *.
  set (opcode2 := u16 (m68k s (m68k_ptr s + 1))) in *.
  apply (no_guard_bind (m68k_advance 1)); [apply no_guard_m68k_advance|intros _].
  apply no_guard_bind; [apply no_guard_ret|intros _].
  destruct ((opcode =? 0xf200) && (Z.land opcode2 0xfc00 =? 0x5c00)); [no_guard_all|].
  destruct ((opcode =? 0xf200) && (Z.land opcode2 0xe07f =? 0x000e)); [no_guard_all|].
  destruct ((opcode =? 0xf200) && (Z.land opcode2 0xe07f =? 0x001d)); [no_guard_all|].
  destruct ((opcode =? 0xf280) && (opcode2 =? 0)); [no_guard_all|].
  destruct H as [H|[H|[H|H]]]; discriminate H.
Qed.

End LineFTrace.

(** C6, at FABS.X FP0,FP0 (opcode words [0xf200 0x0018]).  FABS.X is one of
    the instructions the emitter recognises, and yet the words it writes for
    it end in the guard word [udf(0xf200)]: the buffer holds one
    undefined-instruction word. *)
Theorem EMIT_lineF_FABS_emits_guard :
  lineF_trace 11 10 [] (words [0xf200; 0x0018]) =
    [ Emit (Insn (fabsd 0 0));
      Call (EMIT_AdvancePC_ 4) 0 [];
      Emit (Insn (udf 0xf200)) ] /\
  lineF_code 11 10 [] (words [0xf200; 0x0018]) =
    [ Insn (fabsd 0 0); Insn (udf 0xf200) ] /\
  udf_words (lineF_code 11 10 [] (words [0xf200; 0x0018])) = 1%nat.
Proof. repeat split; reflexivity. Qed.

Example EMIT_lineF_FNOP_trace :
  lineF_trace 11 10 [] (words [0xf280; 0x0000]) =
    [ Call (EMIT_AdvancePC_ 4) 0 []; Call EMIT_FlushPC_ 0 [] ].
Proof. reflexivity. Qed.

Example EMIT_lineF_FMOVECR_code :
  lineF_code 11 10 [3; 5] (words [0xf200; 0x5c00]) =
    [ Insn (ldr_offset 15 3 4); Insn (fldd 5 3 0); Insn (b_cc ARM_CC_AL 0);
      Addr sym_constants ].
Proof. reflexivity. Qed.

Example EMIT_lineF_unknown_code :
  lineF_code 11 10 [] (words [0xf200; 0x0022]) = [ Insn (udf 0xf200) ].
Proof. reflexivity. Qed.

(** ** [EMIT_line5]: what the DBcc code does *)

(** C1, at [DBF D0, *] (opcode [0x51c8], displacement [0xfffe], placed at
    guest address [0x1000], guest PC in r11, D0 in r4).  On the DBF path the
    emitter does not emit the [add PC, PC, #2] that its conditional path
    emits before the counter arithmetic, so the emitted [ldrsh] reads the
    opcode word itself as displacement and the exit advances PC by 2 only.
    - With [D0 = 0x00010003] one execution leaves [D0 = 0x00010002] and
      [PC = 0x1000 + 0x51c8], not [0x1000]: the loop is entered once, not
      four times.
    - With [D0 = 0x00010000] (the exit) it leaves [D0 = 0x0001ffff] and
      [PC = 0x1002], the address of the displacement word, not [0x1004].
    The low half of the counter is decremented and its high half kept, as
    the claim says. *)
Theorem EMIT_line5_DBF_wrong_displacement :
  let c := line5_code 11 10 [4; 0] (words [0x51c8; 0xfffe]) in
  let mem := halfwords_at 0x1000 [0x51c8; 0xfffe] in
  option_map (fun st => (reg st 4, reg st 11))
    (run 64 mem c 0 (arm_with [(4, 0x00010003); (11, 0x1000)]))
    = Some (0x00010002, 0x61c8) /\
  option_map (fun st => (reg st 4, reg st 11))
    (run 64 mem c 0 (arm_with [(4, 0x00010000); (11, 0x1000)]))
    = Some (0x0001ffff, 0x1002) /\
  option_map (fun '(n, st) => (n, reg st 4, reg st 11))
    (entries 10 mem c 0x1000 11 (arm_with [(4, 0x00010003); (11, 0x1000)]))
    = Some (1%nat, 0x00010002, 0x61c8).
Proof. repeat split; reflexivity. Qed.

Example EMIT_line5_DBF_code :
  line5_code 11 10 [4; 0] (words [0x51c8; 0xfffe]) =
    [ Insn (mov_reg_shift 0 4 16);
      Insn (sub_immed 0 0 0x801);
      Insn (cmn_immed 0 0x801);
      Insn (lsr_immed 0 0 16);
      Insn (bfi 4 0 0 16);
      Insn (ldrsh_offset 11 0 0);
      Insn (add_cc_immed ARM_CC_EQ 11 11 2);
      Insn (b_cc ARM_CC_EQ 0);
      Insn (add_reg 11 11 0 0);
      PtrTo 7; Raw 1; Raw 0xfffffffe ].
Proof. reflexivity. Qed.

(** The sibling path does what the DBF path misses: [DBEQ D0, *] with the
    guest Z flag clear (condition false) is entered four times from
    [D0.low16 = 3] and exits to [0x1004] with [D0 = 0x0001ffff]; with Z set
    it exits at once and leaves D0 alone. *)
Example EMIT_line5_DBEQ_loop :
  let c := line5_code 11 10 [4; 7; 0] (words [0x57c8; 0xfffe]) in
  let mem := halfwords_at 0x1000 [0x57c8; 0xfffe] in
  option_map (fun '(n, st) => (n, reg st 4, reg st 11))
    (entries 10 mem c 0x1000 11 (arm_with [(4, 0x00010003); (11, 0x1000); (10, 0)]))
    = Some (4%nat, 0x0001ffff, 0x1004) /\
  option_map (fun '(n, st) => (n, reg st 4, reg st 11))
    (entries 10 mem c 0x1000 11 (arm_with [(4, 0x00010003); (11, 0x1000); (10, 4)]))
    = Some (1%nat, 0x00010003, 0x1004).
Proof. split; reflexivity. Qed.

Example EMIT_line5_DBT_code :
  line5_code 11 10 [4] (words [0x50c8; 0xfffe]) = [ Insn (add_immed 11 11 4) ].
Proof. reflexivity. Qed.
Lemma line5_code_DBcc pc sr counter_reg tmp scratch opcode disp :
  0 <= opcode < 2 ^ 16 ->
  Z.land opcode 0xf0c0 = 0x50c0 ->
  Z.land opcode 0x38 = 0x08 ->
  Z.land (Z.shiftr opcode 8) 0x0f <> M_CC_T ->
  Z.land (Z.shiftr opcode 8) 0x0f <> M_CC_F ->
  line5_code pc sr [counter_reg; tmp; scratch] (words [opcode; disp]) =
    let acc := M68K_ccTo_ARM (Z.land (Z.shiftr opcode 8) 0x0f) in
    [ Insn (mov_reg_shift tmp sr 28);
      Insn (bic_immed tmp tmp 0x203);
      Insn (tst_immed tmp 2);
      Insn (orr_cc_immed ARM_CC_NE tmp tmp 0x201);
      Insn (tst_immed tmp 1);
      Insn (orr_cc_immed ARM_CC_NE tmp tmp 0x202);
      Insn (msr tmp 8);
      Insn (add_cc_immed (Z.lxor acc 1) pc pc 2);
      Insn (add_cc_immed acc pc pc 4);
      Insn (b_cc acc 8);
      Insn (mov_reg_shift scratch counter_reg 16);
      Insn (sub_immed scratch scratch 0x801);
      Insn (cmn_immed scratch 0x801);
      Insn (lsr_immed scratch scratch 16);
      Insn (bfi counter_reg scratch 0 16);
      Insn (ldrsh_offset pc scratch 0);
      Insn (add_cc_immed ARM_CC_EQ pc pc 2);
      Insn (b_cc ARM_CC_EQ 0);
      Insn (add_reg pc pc scratch 0);
      PtrTo 9; PtrTo 17; Raw 2; Raw 0xfffffffe ].
Proof.
  intros Hop H1 H2 H3 H4.
  unfold line5_code, EMIT_line5, bind, fetch16, start. cbn [m68k m68k_ptr].
  change (words [opcode; disp] (0 + 0)) with opcode.
  replace (u16 opcode) with opcode by (unfold u16; rewrite Z.mod_small; lia).
  rewrite H1, H2. cbn [Z.eqb Pos.eqb].
  apply Z.eqb_neq in H3, H4. rewrite H3, H4.
  reflexivity.
Qed.

(** *** Stepping through emitted code *)

Lemma run_step fuel mem16 c pc st i st' :
  c !! pc = Some (Insn i) -> exec mem16 i st = Some (st', None) ->
  run (S fuel) mem16 c pc st = run fuel mem16 c (S pc) st'.
Proof. intros Hl He. cbn [run]. now rewrite Hl, He. Qed.

Lemma run_jump fuel mem16 c pc st i st' off :
  c !! pc = Some (Insn i) -> exec mem16 i st = Some (st', Some off) ->
  0 <= Z.of_nat pc + 2 + off ->
  run (S fuel) mem16 c pc st = run fuel mem16 c (Z.to_nat (Z.of_nat pc + 2 + off)) st'.
Proof.
  intros Hl He Ht. cbn [run]. rewrite Hl, He.
  destruct (Z.ltb_spec (Z.of_nat pc + 2 + off) 0); [lia|reflexivity].
Qed.

Lemma run_stop fuel mem16 c pc st :
  match c !! pc with Some (Insn _) => False | _ => True end ->
  run (S fuel) mem16 c pc st = Some st.
Proof. intros H. cbn [run]. destruct (c !! pc) as [[]|]; tauto. Qed.

Lemma exec_straight mem16 i st st' o :
  straight (Insn i) = true -> exec mem16 i st = Some (st', o) -> o = None.
Proof. destruct i; cbn; intros S E; try discriminate; congruence. Qed.

Lemma exec_writes_only mem16 i st st' o r x :
  writes_only r (Insn i) = true -> exec mem16 i st = Some (st', o) ->
  x <> r -> reg st' x = reg st x.
Proof.
  intros W E Hx.
  destruct i; cbn in W, E; try discriminate; injection E as <- _;
    try reflexivity; try apply Z.eqb_eq in W; subst;
    repeat match goal with
      | |- context [if ?b then _ else _] => destruct b eqn:?
      end; cbn; try reflexivity;
    try (destruct (Z.eqb_spec x r); [contradiction|reflexivity]).
Qed.

(** A piece of code that writes one register only leaves the others alone. *)
Lemma run_writes_only r mem16 c :
  Forall (fun w => writes_only r w = true) c ->
  forall fuel pc st st',
    run fuel mem16 c pc st = Some st' ->
    forall x, x <> r -> reg st' x = reg st x.
Proof.
  intros Hc. induction fuel as [|fuel IH]; intros pc st st' Hr x Hx; [discriminate|].
  cbn [run] in Hr. destruct (c !! pc) as [w|] eqn:Hl; [|now injection Hr as <-].
  assert (Hw : writes_only r w = true).
  { rewrite Forall_forall in Hc. apply Hc. eapply list_elem_of_lookup_2. exact Hl. }
  destruct w as [i| | | | |]; try now injection Hr as <-.
  destruct (exec mem16 i st) as [[st1 o]|] eqn:He; [|discriminate].
  rewrite <- (exec_writes_only _ _ _ _ _ _ _ Hw He Hx).
  destruct o as [off|].
  - destruct (Z.of_nat pc + 2 + off <? 0); [discriminate|]. eapply IH; eassumption.
  - eapply IH; eassumption.
Qed.

(** A straight prefix run to its end, then the rest. *)
Lemma run_prefix mem16 c1 c2 st1 :
  Forall (fun w => straight w = true) c1 ->
  forall d k fuel st,
    (k + d)%nat = length c1 ->
    run fuel mem16 c1 k st = Some st1 ->
    forall m, run (d + m) mem16 (c1 ++ c2) k st = run m mem16 (c1 ++ c2) (length c1) st1.
Proof.
  intros Hc. induction d as [|d IH]; intros k fuel st Hk Hr m.
  - destruct fuel as [|fuel]; [discriminate|]. cbn [run] in Hr.
    rewrite lookup_ge_None_2 in Hr by lia. injection Hr as <-.
    replace k with (length c1) by lia. reflexivity.
  - destruct fuel as [|fuel]; [discriminate|]. cbn [run] in Hr.
    destruct (c1 !! k) as [w|] eqn:Hl.
    2:{ apply lookup_ge_None_1 in Hl. lia. }
    assert (Hs : straight w = true).
    { rewrite Forall_forall in Hc. apply Hc. eapply list_elem_of_lookup_2. exact Hl. }
    destruct w as [i| | | | |]; try discriminate Hs.
    destruct (exec mem16 i st) as [[st' o]|] eqn:He; [|discriminate].
    pose proof (exec_straight _ _ _ _ _ Hs He) as ->.
    cbn [Nat.add]. erewrite run_step; [|apply lookup_app_l_Some; exact Hl|exact He].
    eapply IH; [lia|exact Hr].
Qed.

(** *** The counter arithmetic *)

Lemma scratch_after_sub c :
  u32 (u32 (Z.shiftl c 16) - arm_imm 0x801) = u16 (c - 1) * 2 ^ 16.
Proof.
  change (arm_imm 0x801) with (1 * 2 ^ 16). unfold u32, u16.
  rewrite Z.shiftl_mul_pow2 by lia.
  change (2 ^ 32) with (2 ^ 16 * 2 ^ 16).
  rewrite Z.mul_mod_distr_r by lia.
  rewrite <- Z.mul_sub_distr_r, Z.mul_mod_distr_r by lia.
  now rewrite Zminus_mod_idemp_l.
Qed.

Lemma cmn_sets_Z c :
  (u32 (u16 (c - 1) * 2 ^ 16 + arm_imm 0x801) =? 0) = (u16 (c - 1) =? 0xffff).
Proof.
  change (arm_imm 0x801) with (2 ^ 16).
  pose proof (u16_range (c - 1)) as Hk. set (k := u16 (c - 1)) in *.
  unfold u32.
  destruct (Z.eqb_spec k 0xffff) as [->|Hne]; [reflexivity|].
  apply Z.eqb_neq. rewrite Z.mod_small by lia. lia.
Qed.

Lemma bfi16_value c s :
  0 <= c < 2 ^ 32 -> 0 <= s < 2 ^ 16 ->
  u32 (Z.lor (Z.land c (Z.lnot (Z.shiftl (Z.ones 16) 0)))
             (Z.land (Z.shiftl s 0) (Z.shiftl (Z.ones 16) 0)))
  = c / 2 ^ 16 * 2 ^ 16 + s.
Proof.
  intros Hc Hs. rewrite !Z.shiftl_0_r.
  rewrite <- Z.ldiff_land, Z.ldiff_ones_r, Z.land_ones by lia.
  rewrite (Z.mod_small s) by lia.
  rewrite Z.shiftr_div_pow2, lor_shiftl_add by lia.
  apply u32_small.
  assert (0 <= c / 2 ^ 16 < 2 ^ 16).
  { split; [apply Z.div_pos; lia|apply Z.div_lt_upper_bound; lia]. }
  lia.
Qed.

Lemma u32_add_idemp a b : u32 (u32 a + u32 b) = u32 (a + b).
Proof. unfold u32. now rewrite <- Zplus_mod. Qed.

Lemma u32_add_idemp_l a b : u32 (u32 a + b) = u32 (a + b).
Proof. unfold u32. now rewrite Zplus_mod_idemp_l. Qed.

Lemma u32_idemp a : u32 (u32 a) = u32 a.
Proof. unfold u32. now rewrite Z.mod_mod by lia. Qed.

(** For the fourteen native conditions of the table other than AL and
    [0x0f], flipping the lowest bit negates the condition. *)
Lemma cond_holds_negate cc st :
  2 <= cc <= 15 ->
  cond_holds (Z.lxor (M68K_ccTo_ARM cc) 1) st = negb (cond_holds (M68K_ccTo_ARM cc) st).
Proof.
  intros H.
  assert (C : cc = 2 \/ cc = 3 \/ cc = 4 \/ cc = 5 \/ cc = 6 \/ cc = 7 \/ cc = 8 \/
              cc = 9 \/ cc = 10 \/ cc = 11 \/ cc = 12 \/ cc = 13 \/ cc = 14 \/ cc = 15) by lia.
  destruct st as [r [] [] [] []];
    repeat (destruct C as [->|C]); try subst cc; reflexivity.
Qed.

Lemma reg_set_reg_eq r v st : reg (set_reg r v st) r = u32 v.
Proof. cbn. now rewrite Z.eqb_refl. Qed.

Lemma reg_set_reg_ne r v st x : x <> r -> reg (set_reg r v st) x = reg st x.
Proof. intros H. cbn. destruct (Z.eqb_spec x r); [contradiction|reflexivity]. Qed.

Lemma u32_add_idemp_r a b : u32 (a + u32 b) = u32 (a + b).
Proof. unfold u32. now rewrite Zplus_mod_idemp_r. Qed.

(** The nine instructions both DBcc paths share, wherever they sit in the
    buffer: decrement of the low half of the counter, load of the halfword
    the guest PC points at, and the two ways out. *)
Lemma run_counter_block mem16 c k fuel st counter scratch pc :
  c !! k = Some (Insn (mov_reg_shift scratch counter 16)) ->
  c !! (1 + k)%nat = Some (Insn (sub_immed scratch scratch 0x801)) ->
  c !! (2 + k)%nat = Some (Insn (cmn_immed scratch 0x801)) ->
  c !! (3 + k)%nat = Some (Insn (lsr_immed scratch scratch 16)) ->
  c !! (4 + k)%nat = Some (Insn (bfi counter scratch 0 16)) ->
  c !! (5 + k)%nat = Some (Insn (ldrsh_offset pc scratch 0)) ->
  c !! (6 + k)%nat = Some (Insn (add_cc_immed ARM_CC_EQ pc pc 2)) ->
  c !! (7 + k)%nat = Some (Insn (b_cc ARM_CC_EQ 0)) ->
  c !! (8 + k)%nat = Some (Insn (add_reg pc pc scratch 0)) ->
  match c !! (9 + k)%nat with Some (Insn _) => False | _ => True end ->
  counter <> scratch -> counter <> pc -> scratch <> pc ->
  0 <= reg st counter < 2 ^ 32 ->
  exists st',
    run (10 + fuel) mem16 c k st = Some st' /\
    reg st' counter = reg st counter / 2 ^ 16 * 2 ^ 16 + u16 (reg st counter - 1) /\
    reg st' pc =
      if u16 (reg st counter - 1) =? 0xffff
      then u32 (reg st pc + 2)
      else u32 (reg st pc + sext16 (mem16 (u32 (reg st pc)))).
Proof.
  intros L0 L1 L2 L3 L4 L5 L6 L7 L8 L9 Ncs Ncp Nsp Hc.
  cbn [Nat.add] in *.
  (* mov scratch, counter, lsl #16 ; sub scratch, scratch, #0x10000 *)
  erewrite run_step; [|exact L0|reflexivity].
  erewrite run_step; [|exact L1|reflexivity].
  rewrite reg_set_reg_eq.
  set (st2 := set_reg scratch _ _).
  assert (S2 : reg st2 scratch = u16 (reg st counter - 1) * 2 ^ 16).
  { unfold st2. rewrite reg_set_reg_eq. apply scratch_after_sub. }
  assert (C2 : reg st2 counter = reg st counter).
  { unfold st2. now rewrite !reg_set_reg_ne by assumption. }
  assert (P2 : reg st2 pc = reg st pc).
  { unfold st2. now rewrite !reg_set_reg_ne by congruence. }
  clearbody st2.
  (* cmn scratch, #0x10000 *)
  erewrite run_step; [|exact L2|reflexivity].
  rewrite S2, cmn_sets_Z.
  pose proof (u16_range (reg st counter - 1)) as Hk.
  set (low := u16 (reg st counter - 1)) in *.
  set (st3 := set_flags _ _ _ _ st2).
  assert (Z3 : flag_Z st3 = (low =? 0xffff)) by reflexivity.
  assert (S3 : reg st3 scratch = low * 2 ^ 16) by exact S2.
  assert (C3 : reg st3 counter = reg st counter) by exact C2.
  assert (P3 : reg st3 pc = reg st pc) by exact P2.
  clearbody st3. clear S2 C2 P2 st2.
  (* lsr scratch, scratch, #16 ; bfi counter, scratch, #0, #16 *)
  erewrite run_step; [|exact L3|reflexivity].
  erewrite run_step; [|exact L4|reflexivity].
  set (st4 := set_reg scratch _ st3).
  assert (S4 : reg st4 scratch = low).
  { unfold st4. rewrite reg_set_reg_eq, S3, Z.shiftr_div_pow2, Z.div_mul by lia.
    apply u32_small. lia. }
  assert (C4 : reg st4 counter = reg st counter).
  { unfold st4. now rewrite reg_set_reg_ne by assumption. }
  assert (P4 : reg st4 pc = reg st pc).
  { unfold st4. now rewrite reg_set_reg_ne by congruence. }
  assert (Z4 : flag_Z st4 = (low =? 0xffff)) by exact Z3.
  clearbody st4. clear S3 C3 P3 Z3 st3.
  rewrite S4, C4.
  set (st5 := set_reg counter _ st4).
  assert (C5 : reg st5 counter = reg st counter / 2 ^ 16 * 2 ^ 16 + low).
  { unfold st5. rewrite reg_set_reg_eq. apply bfi16_value; lia. }
  assert (P5 : reg st5 pc = reg st pc).
  { unfold st5. now rewrite reg_set_reg_ne by congruence. }
  assert (Z5 : flag_Z st5 = (low =? 0xffff)) by exact Z4.
  clearbody st5. clear S4 C4 P4 Z4 st4.
  (* ldrsh scratch, [pc] *)
  erewrite run_step; [|exact L5|reflexivity].
  rewrite P5, Z.add_0_r.
  set (d := sext16 (mem16 (u32 (reg st pc)))).
  set (st6 := set_reg scratch d st5).
  assert (S6 : reg st6 scratch = u32 d) by (unfold st6; apply reg_set_reg_eq).
  assert (C6 : reg st6 counter = reg st counter / 2 ^ 16 * 2 ^ 16 + low).
  { unfold st6. now rewrite reg_set_reg_ne by assumption. }
  assert (P6 : reg st6 pc = reg st pc).
  { unfold st6. now rewrite reg_set_reg_ne by congruence. }
  assert (Z6 : flag_Z st6 = (low =? 0xffff)) by exact Z5.
  clearbody st6. clear C5 P5 Z5 st5.
  (* addeq pc, pc, #2 ; beq out ; add pc, pc, scratch *)
  assert (E6 : cond_holds ARM_CC_EQ st6 = (low =? 0xffff)) by exact Z6.
  erewrite run_step; [|exact L6|reflexivity].
  rewrite E6, P6.
  destruct (low =? 0xffff) eqn:Elow.
  - set (st7 := set_reg pc _ st6).
    assert (E7 : cond_holds ARM_CC_EQ st7 = true) by exact Z6.
    erewrite run_jump; [|exact L7|cbn [exec]; rewrite E7; reflexivity|lia].
    replace (Z.to_nat (Z.of_nat (S (S (S (S (S (S (S k))))))) + 2 + 0))
      with (S (S (S (S (S (S (S (S (S k))))))))) by lia.
    rewrite run_stop by exact L9.
    exists st7. split; [reflexivity|]. unfold st7. split.
    + now rewrite reg_set_reg_ne by assumption.
    + now rewrite reg_set_reg_eq.
  - erewrite run_step; [|exact L7|cbn [exec]; rewrite E6; reflexivity].
    erewrite run_step; [|exact L8|reflexivity].
    rewrite run_stop by exact L9.
    eexists. split; [reflexivity|]. split.
    + now rewrite reg_set_reg_ne by assumption.
    + rewrite reg_set_reg_eq, P6, S6, Z.shiftl_0_r, u32_idemp.
      apply u32_add_idemp_r.
Qed.

(** The path the emitter takes for the conditions other than T and F
    (guest condition codes 2..15), for any choice of host registers by the
    allocator.  Once the status register has been materialised (the seven
    instructions of [EMIT_LoadARMCC]) and the native condition is false, the
    code decrements the low half of the counter, keeps its high half, and
    sets the guest PC past the displacement word when the new low half is
    [0xffff], else to the address of the displacement word plus the
    sign-extended displacement found there.  Which native conditions can be
    false at that point is settled by [run_LoadARMCC]: the host flags C and
    V are always clear there. *)
Lemma EMIT_line5_DBcc_step pc sr counter_reg tmp scratch opcode disp mem16 st st1 :
  0 <= opcode < 2 ^ 16 ->
  Z.land opcode 0xf0c0 = 0x50c0 ->
  Z.land opcode 0x38 = 0x08 ->
  Z.land (Z.shiftr opcode 8) 0x0f <> M_CC_T ->
  Z.land (Z.shiftr opcode 8) 0x0f <> M_CC_F ->
  counter_reg <> scratch -> counter_reg <> pc -> scratch <> pc ->
  tmp <> pc -> tmp <> counter_reg ->
  0 <= reg st counter_reg < 2 ^ 32 ->
  run 8 mem16 (take 7 (line5_code pc sr [counter_reg; tmp; scratch] (words [opcode; disp])))
      0 st = Some st1 ->
  cond_holds (M68K_ccTo_ARM (Z.land (Z.shiftr opcode 8) 0x0f)) st1 = false ->
  exists st',
    run 64 mem16 (line5_code pc sr [counter_reg; tmp; scratch] (words [opcode; disp])) 0 st
      = Some st' /\
    reg st' counter_reg =
      reg st counter_reg / 2 ^ 16 * 2 ^ 16 + u16 (reg st counter_reg - 1) /\
    reg st' pc =
      if u16 (reg st counter_reg - 1) =? 0xffff
      then u32 (reg st pc + 4)
      else u32 (reg st pc + 2 + sext16 (mem16 (u32 (reg st pc + 2)))).
Proof.
  intros Hop H1 H2 HT HF Ncs Ncp Nsp Ntp Ntc Hc.
  rewrite (line5_code_DBcc _ _ _ _ _ _ _ Hop H1 H2 HT HF).
  assert (Hcc : 2 <= Z.land (Z.shiftr opcode 8) 0x0f <= 15).
  { pose proof (land_mask_range (Z.shiftr opcode 8) 4 ltac:(lia)) as R.
    change (2 ^ 4 - 1) with 0x0f in R. unfold M_CC_T, M_CC_F in *. lia. }
  set (cc := Z.land (Z.shiftr opcode 8) 0x0f) in *.
  cbv zeta. set (acc := M68K_ccTo_ARM cc).
  intros Hpre Hcond.
  set (c1 := [ Insn (mov_reg_shift tmp sr 28); Insn (bic_immed tmp tmp 0x203);
               Insn (tst_immed tmp 2); Insn (orr_cc_immed ARM_CC_NE tmp tmp 0x201);
               Insn (tst_immed tmp 1); Insn (orr_cc_immed ARM_CC_NE tmp tmp 0x202);
               Insn (msr tmp 8) ]).
  set (c2 := [ Insn (add_cc_immed (Z.lxor acc 1) pc pc 2);
               Insn (add_cc_immed acc pc pc 4); Insn (b_cc acc 8);
               Insn (mov_reg_shift scratch counter_reg 16);
               Insn (sub_immed scratch scratch 0x801); Insn (cmn_immed scratch 0x801);
               Insn (lsr_immed scratch scratch 16); Insn (bfi counter_reg scratch 0 16);
               Insn (ldrsh_offset pc scratch 0);
               Insn (add_cc_immed ARM_CC_EQ pc pc 2); Insn (b_cc ARM_CC_EQ 0);
               Insn (add_reg pc pc scratch 0);
               PtrTo 9; PtrTo 17; Raw 2; Raw 0xfffffffe ]).
  change (run 8 mem16 c1 0 st = Some st1) in Hpre.
  match goal with
  | |- exists st', run 64 mem16 _ 0 st = _ /\ ?P =>
      change (exists st', run (7 + 57) mem16 (c1 ++ c2) 0 st = Some st' /\ P)
  end.
  assert (Keep : forall x, x <> tmp -> reg st1 x = reg st x).
  { apply (run_writes_only tmp mem16 c1) with (fuel := 8%nat) (pc := 0%nat);
      [repeat constructor; cbn; apply Z.eqb_refl|exact Hpre]. }
  rewrite (run_prefix mem16 c1 c2 st1 ltac:(repeat constructor) 7 0 8 st eq_refl Hpre).
  change (length c1) with 7%nat.
  assert (Hneg : cond_holds (Z.lxor acc 1) st1 = true).
  { unfold acc. rewrite cond_holds_negate by exact Hcc. fold acc. now rewrite Hcond. }
  (* add PC, 2 when the condition is false; add PC, 4 and leave when it is true *)
  erewrite run_step; [|reflexivity|cbn [exec]; rewrite Hneg; reflexivity].
  set (st2 := set_reg pc (reg st1 pc + arm_imm 2) st1).
  assert (Hcond2 : cond_holds acc st2 = false) by exact Hcond.
  erewrite run_step; [|reflexivity|cbn [exec]; rewrite Hcond2; reflexivity].
  erewrite run_step; [|reflexivity|cbn [exec]; rewrite Hcond2; reflexivity].
  assert (P2 : reg st2 pc = u32 (reg st pc + 2)).
  { unfold st2. cbn. rewrite Z.eqb_refl, Keep by congruence. reflexivity. }
  assert (C2 : reg st2 counter_reg = reg st counter_reg).
  { unfold st2. cbn. destruct (Z.eqb_spec counter_reg pc); [contradiction|].
    apply Keep. congruence. }
  clearbody st2. clear Hcond2 Hneg Hcond Hpre Keep.
  destruct (run_counter_block mem16 (c1 ++ c2) 10 44 st2 counter_reg scratch pc)
    as (st' & Hrun & Hctr & Hpc);
    try reflexivity; try assumption; try exact I; try (rewrite C2; exact Hc).
  exists st'. split; [exact Hrun|]. rewrite C2 in Hctr, Hpc. split; [exact Hctr|].
  rewrite Hpc, P2. destruct (u16 (reg st counter_reg - 1) =? 0xffff).
  - rewrite u32_add_idemp_l. f_equal. lia.
  - rewrite u32_idemp, u32_add_idemp_l. reflexivity.
Qed.

(** The same for DBF, where the emitter goes straight to the counter
    arithmetic: the halfword loaded is the one at the guest PC itself (the
    opcode word) and the exit adds 2. *)
Lemma EMIT_line5_DBF_step pc sr counter_reg scratch opcode disp mem16 st :
  0 <= opcode < 2 ^ 16 ->
  Z.land opcode 0xf0c0 = 0x50c0 ->
  Z.land opcode 0x38 = 0x08 ->
  Z.land (Z.shiftr opcode 8) 0x0f = M_CC_F ->
  counter_reg <> scratch -> counter_reg <> pc -> scratch <> pc ->
  0 <= reg st counter_reg < 2 ^ 32 ->
  exists st',
    run 64 mem16 (line5_code pc sr [counter_reg; scratch] (words [opcode; disp])) 0 st
      = Some st' /\
    reg st' counter_reg =
      reg st counter_reg / 2 ^ 16 * 2 ^ 16 + u16 (reg st counter_reg - 1) /\
    reg st' pc =
      if u16 (reg st counter_reg - 1) =? 0xffff
      then u32 (reg st pc + 2)
      else u32 (reg st pc + sext16 (mem16 (u32 (reg st pc)))).
Proof.
  intros Hop H1 H2 HF Ncs Ncp Nsp Hc.
  assert (E : line5_code pc sr [counter_reg; scratch] (words [opcode; disp]) =
              [ Insn (mov_reg_shift scratch counter_reg 16);
                Insn (sub_immed scratch scratch 0x801);
                Insn (cmn_immed scratch 0x801);
                Insn (lsr_immed scratch scratch 16);
                Insn (bfi counter_reg scratch 0 16);
                Insn (ldrsh_offset pc scratch 0);
                Insn (add_cc_immed ARM_CC_EQ pc pc 2);
                Insn (b_cc ARM_CC_EQ 0);
                Insn (add_reg pc pc scratch 0);
                PtrTo 7; Raw 1; Raw 0xfffffffe ]).
  { unfold line5_code, EMIT_line5, bind, fetch16, start. cbn [m68k m68k_ptr].
    change (words [opcode; disp] (0 + 0)) with opcode.
    replace (u16 opcode) with opcode by (unfold u16; rewrite Z.mod_small; lia).
    rewrite H1, H2, HF. reflexivity. }
  rewrite E.
  apply (run_counter_block mem16 _ 0 54 st counter_reg scratch pc);
    try reflexivity; try assumption; exact I.
Qed.
Lemma u16_idemp a : u16 (u16 a) = u16 a.
Proof. unfold u16. now rewrite Z.mod_mod by lia. Qed.
Lemma u64_idemp a : u64 (u64 a) = u64 a.
Proof. unfold u64. now rewrite Z.mod_mod by lia. Qed.
Lemma u16_u32 a : u16 (u32 a) = u16 a.
Proof. unfold u16, u32. apply mod_mod_pow2. lia. Qed.
Lemma u16_u64 a : u16 (u64 a) = u16 a.
Proof. unfold u16, u64. apply mod_mod_pow2. lia. Qed.
Lemma u32_u64 a : u32 (u64 a) = u32 a.
Proof. unfold u64, u32. apply mod_mod_pow2. lia. Qed.
Lemma u32_u16 a : u32 (u16 a) = u16 a.
Proof. apply u32_small. pose proof (u16_range a). lia. Qed.
Lemma u64_u32 a : u64 (u32 a) = u32 a.
Proof. apply u64_small. pose proof (u32_range a). lia. Qed.
Lemma u64_u16 a : u64 (u16 a) = u16 a.
Proof. apply u64_small. pose proof (u16_range a). lia. Qed.


(** ** [M68K_SaveContext] and [M68K_LoadContext] *)

#[local] Ltac expose_machine :=
  cbv beta iota zeta delta
    [M68K_SaveContext M68K_LoadContext stp_w ldp_w str_d ldr_d ctx_str ctx_strh ctx_str_d
     get_w get_x set_x set_w regs ctx mem heap active_bank].

#[local] Ltac lookup_inserts :=
  repeat first [ rewrite fn_lookup_insert
               | rewrite fn_lookup_insert_ne by (intro; discriminate) ].

#[local] Ltac split_ifs :=
  repeat match goal with
         | |- context [if negb (?c) then _ else _] =>
             destruct c; change (negb true) with false; change (negb false) with true;
             cbv beta iota
         end.

#[local] Ltac crunch := expose_machine; lookup_inserts; split_ifs; lookup_inserts.

#[local] Ltac eight i H :=
  assert (i = 0 \/ i = 1 \/ i = 2 \/ i = 3 \/ i = 4 \/ i = 5 \/ i = 6 \/ i = 7) as H by lia;
  repeat (destruct H as [->|H]); try subst i.

Lemma SaveContext_regs p m r :
  r <> Host.X 1 -> regs (M68K_SaveContext p m) r = regs m r.
Proof.
  intros H. destruct m as [rg cx me he]. crunch;
    now rewrite fn_lookup_insert_ne by congruence.
Qed.

Lemma SaveContext_memory p m :
  mem (M68K_SaveContext p m) = mem m /\ heap (M68K_SaveContext p m) = heap m.
Proof. destruct m as [rg cx me he]. crunch; split; reflexivity. Qed.

Lemma SaveContext_SR p m :
  ctx (M68K_SaveContext p m) M68KState.SR = u16 (regs m Host.TPIDR_EL0).
Proof.
  destruct m as [rg cx me he]. crunch; now rewrite u16_u32, u16_u64.
Qed.

Lemma SaveContext_D p m i :
  0 <= i < 8 -> ctx (M68K_SaveContext p m) (M68KState.D i) = u32 (regs m (Host.REG_D i)).
Proof.
  intros H. destruct m as [rg cx me he]. eight i H'; crunch; apply u32_idemp.
Qed.

Lemma SaveContext_A p m i :
  0 <= i < 8 -> ctx (M68K_SaveContext p m) (M68KState.A i) = u32 (regs m (Host.REG_A i)).
Proof.
  intros H. destruct m as [rg cx me he]. eight i H'; crunch; apply u32_idemp.
Qed.

Lemma SaveContext_FP p m i :
  0 <= i < 8 -> ctx (M68K_SaveContext p m) (M68KState.FP i) = u64 (regs m (Host.REG_FP i)).
Proof.
  intros H. destruct m as [rg cx me he]. eight i H'; crunch; reflexivity.
Qed.

Lemma SaveContext_PC p m :
  ctx (M68K_SaveContext p m) M68KState.PC = u32 (regs m Host.REG_PC).
Proof. destruct m as [rg cx me he]. crunch; apply u32_idemp. Qed.

Lemma SaveContext_other p m f :
  f = M68KState.CACR \/ f = M68KState.VBR \/ f = M68KState.PINT \/ f = M68KState.IPL0 ->
  ctx (M68K_SaveContext p m) f = ctx m f.
Proof.
  intros H. destruct m as [rg cx me he].
  destruct H as [-> | [-> | [-> | ->]]]; crunch; reflexivity.
Qed.

(** Bits 13 and 12 of SR select the bank. *)
Lemma active_bank_bits sr :
  active_bank sr =
    if Z.testbit sr 13 then if Z.testbit sr 12 then M68KState.MSP else M68KState.ISP
    else M68KState.USP.
Proof.
  unfold active_bank, SR_S, SR_M.
  change 0x2000 with (2 ^ 13). change 0x1000 with (2 ^ 12).
  rewrite <- !Z.shiftl_1_l.
  assert (B : forall n, 0 <= n -> (Z.land sr (Z.shiftl 1 n) =? 0) = negb (Z.testbit sr n)).
  { intros n Hn. destruct (Z.testbit sr n) eqn:E.
    - apply Z.eqb_neq. intros H0.
      assert (T : Z.testbit (Z.land sr (Z.shiftl 1 n)) n = false) by (rewrite H0; apply Z.bits_0).
      rewrite Z.land_spec, E, Z.shiftl_spec, Z.sub_diag in T by lia. discriminate T.
    - apply Z.eqb_eq. apply Z.bits_inj'. intros k Hk.
      rewrite Z.land_spec, Z.bits_0, Z.shiftl_spec by lia.
      destruct (Z.eq_dec k n) as [->|Hne]; [now rewrite E|].
      replace (Z.testbit 1 (k - n)) with false; [apply andb_false_r|].
      symmetry. destruct (Z.ltb_spec k n).
      + apply Z.testbit_neg_r. lia.
      + apply (Z.bits_above_log2 1 (k - n)); cbn; lia. }
  rewrite !B, !negb_involutive by lia. reflexivity.
Qed.

Lemma active_bank_u16 sr : active_bank (u16 sr) = active_bank sr.
Proof.
  rewrite !active_bank_bits. unfold u16.
  now rewrite !Z.mod_pow2_bits_low by lia.
Qed.

Lemma SaveContext_banks p m :
  let bank := active_bank (u16 (regs m Host.TPIDR_EL0)) in
  let a7 := u32 (regs m (Host.REG_A 7)) in
  ctx (M68K_SaveContext p m) M68KState.USP
    = (if decide (bank = M68KState.USP) then a7 else ctx m M68KState.USP) /\
  ctx (M68K_SaveContext p m) M68KState.ISP
    = (if decide (bank = M68KState.ISP) then a7 else ctx m M68KState.ISP) /\
  ctx (M68K_SaveContext p m) M68KState.MSP
    = (if decide (bank = M68KState.MSP) then a7 else ctx m M68KState.MSP).
Proof.
  destruct m as [rg cx me he]. cbv zeta. cbv beta iota delta [regs ctx].
  unfold active_bank at 1 2 3. rewrite <- (u16_u64 (rg Host.TPIDR_EL0)), <- u16_u32.
  expose_machine. lookup_inserts.
  destruct (Z.land (u16 (u32 (u64 (rg Host.TPIDR_EL0)))) SR_S =? 0);
    change (negb true) with false; change (negb false) with true; cbv beta iota;
    [|destruct (Z.land (u16 (u32 (u64 (rg Host.TPIDR_EL0)))) SR_M =? 0);
      change (negb true) with false; change (negb false) with true; cbv beta iota];
    lookup_inserts; rewrite ?u32_idemp; repeat split; reflexivity.
Qed.

Lemma LoadContext_ctx p m :
  ctx (M68K_LoadContext p m) = ctx m /\
  mem (M68K_LoadContext p m) = mem m /\ heap (M68K_LoadContext p m) = heap m.
Proof. destruct m as [rg cx me he]. crunch; repeat split; reflexivity. Qed.

Lemma LoadContext_D p m i :
  0 <= i < 8 -> regs (M68K_LoadContext p m) (Host.REG_D i) = u32 (ctx m (M68KState.D i)).
Proof. intros H. destruct m as [rg cx me he]. eight i H'; crunch; reflexivity. Qed.

Lemma LoadContext_A p m i :
  0 <= i < 7 -> regs (M68K_LoadContext p m) (Host.REG_A i) = u32 (ctx m (M68KState.A i)).
Proof.
  intros H. destruct m as [rg cx me he].
  assert (i = 0 \/ i = 1 \/ i = 2 \/ i = 3 \/ i = 4 \/ i = 5 \/ i = 6) as H' by lia.
  repeat (destruct H' as [->|H']); try subst i; crunch; reflexivity.
Qed.

Lemma LoadContext_FP p m i :
  0 <= i < 8 -> regs (M68K_LoadContext p m) (Host.REG_FP i) = u64 (ctx m (M68KState.FP i)).
Proof. intros H. destruct m as [rg cx me he]. eight i H'; crunch; reflexivity. Qed.

Lemma LoadContext_PC p m :
  regs (M68K_LoadContext p m) Host.REG_PC = u32 (ctx m M68KState.PC).
Proof. destruct m as [rg cx me he]. crunch; reflexivity. Qed.

Lemma LoadContext_SR p m :
  regs (M68K_LoadContext p m) Host.TPIDR_EL0 = u16 (ctx m M68KState.SR).
Proof. destruct m as [rg cx me he]. crunch; now rewrite u64_u32, u32_u16. Qed.


Lemma LoadContext_A7 p m :
  regs (M68K_LoadContext p m) (Host.REG_A 7)
    = u32 (ctx m (active_bank (ctx m M68KState.SR))).
Proof.
  destruct m as [rg cx me he]. cbv beta iota delta [regs ctx].
  unfold active_bank. expose_machine. lookup_inserts.
  destruct (Z.land (cx M68KState.SR) SR_S =? 0);
    change (negb true) with false; change (negb false) with true; cbv beta iota;
    [|destruct (Z.land (cx M68KState.SR) SR_M =? 0);
      change (negb true) with false; change (negb false) with true; cbv beta iota];
    lookup_inserts; reflexivity.
Qed.


(** C5. [M68K_SaveContext] followed by [M68K_LoadContext] on the same
    record leaves every guest register as the guest sees it in the host
    registers: the 32 bits of D0..D7, of A0..A7 (A7 is stored to and read
    back from the bank SR selects) and of the PC, the 16 bits of SR, and
    the 64 bits of FP0..FP7. *)
Theorem SaveContext_then_LoadContext :
  forall (p : Z) (m : machine) (r : Host.reg),
    is_guest_reg r = true ->
    guest_reg_view r (M68K_LoadContext p (M68K_SaveContext p m)) = guest_reg_view r m.
Proof.
  intros p m r Hr. destruct r as [i|i| |i|n| | |]; cbn in Hr; try discriminate Hr;
    unfold guest_reg_view.
  - assert (0 <= i < 8) by lia.
    now rewrite LoadContext_D, SaveContext_D, !u32_idemp.
  - assert (Hi : 0 <= i < 8) by lia.
    destruct (Z.eq_dec i 7) as [->|Hne].
    + rewrite LoadContext_A7, SaveContext_SR, u32_idemp.
      destruct (SaveContext_banks p m) as (HU & HI & HM). cbv zeta in HU, HI, HM.
      rewrite active_bank_bits in *.
      destruct (Z.testbit (u16 (regs m Host.TPIDR_EL0)) 13);
        [destruct (Z.testbit (u16 (regs m Host.TPIDR_EL0)) 12)|].
      * rewrite HM. cbn. apply u32_idemp.
      * rewrite HI. cbn. apply u32_idemp.
      * rewrite HU. cbn. apply u32_idemp.
    + rewrite LoadContext_A, SaveContext_A, !u32_idemp by lia. reflexivity.
  - now rewrite LoadContext_PC, SaveContext_PC, !u32_idemp.
  - assert (0 <= i < 8) by lia.
    now rewrite LoadContext_FP, SaveContext_FP, !u64_idemp.
  - now rewrite LoadContext_SR, SaveContext_SR, !u16_idemp.
Qed.

(** A machine whose registers, context fields and memories are constant. *)
Lemma SaveContext_then_LoadContext_witness :
  guest_reg_view (Host.REG_A 7)
    (M68K_LoadContext 0x8000
       (M68K_SaveContext 0x8000
          (mkMachine (fun _ => 0x2700) (fun _ => 0) (fun _ => 0) (fun _ => 0))))
  = guest_reg_view (Host.REG_A 7)
      (mkMachine (fun _ => 0x2700) (fun _ => 0) (fun _ => 0) (fun _ => 0)).
Proof.
  apply (SaveContext_then_LoadContext 0x8000
           (mkMachine (fun _ => 0x2700) (fun _ => 0) (fun _ => 0) (fun _ => 0))
           (Host.REG_A 7)).
  reflexivity.
Defined.

(** C7. For every SR, both routines use the bank [active_bank] names: MSP
    when bits S (13) and M (12) are both set, ISP when S is set and M clear,
    USP when S is clear.  [M68K_LoadContext] leaves in A7 the 32 bits of
    that bank and in the SR register the SR that selected it;
    [M68K_SaveContext] stores SR, writes A7 to that bank and leaves the
    other two banks as they were. *)
Theorem context_A7_bank_coherent :
  forall (p : Z) (m : machine),
    (forall sr,
        active_bank sr =
          if Z.testbit sr 13
          then if Z.testbit sr 12 then M68KState.MSP else M68KState.ISP
          else M68KState.USP) /\
    (let l := M68K_LoadContext p m in
     regs l (Host.REG_A 7) = u32 (ctx m (active_bank (regs l Host.TPIDR_EL0))) /\
     regs l Host.TPIDR_EL0 = u16 (ctx m M68KState.SR)) /\
    (let s := M68K_SaveContext p m in
     let bank := active_bank (ctx s M68KState.SR) in
     let a7 := u32 (regs m (Host.REG_A 7)) in
     ctx s M68KState.SR = u16 (regs m Host.TPIDR_EL0) /\
     ctx s bank = a7 /\
     ctx s M68KState.USP = (if decide (bank = M68KState.USP) then a7 else ctx m M68KState.USP) /\
     ctx s M68KState.ISP = (if decide (bank = M68KState.ISP) then a7 else ctx m M68KState.ISP) /\
     ctx s M68KState.MSP = (if decide (bank = M68KState.MSP) then a7 else ctx m M68KState.MSP)).
Proof.
  intros p m. split; [exact active_bank_bits|]. split.
  - cbv zeta. rewrite LoadContext_SR, LoadContext_A7, active_bank_u16. split; reflexivity.
  - cbv zeta. rewrite SaveContext_SR.
    destruct (SaveContext_banks p m) as (HU & HI & HM). cbv zeta in HU, HI, HM.
    split; [reflexivity|]. split; [|repeat split; assumption].
    rewrite active_bank_bits in *.
    destruct (Z.testbit (u16 (regs m Host.TPIDR_EL0)) 13);
      [destruct (Z.testbit (u16 (regs m Host.TPIDR_EL0)) 12)|].
    + rewrite HM. reflexivity.
    + rewrite HI. reflexivity.
    + rewrite HU. reflexivity.
Qed.

(** ** [FindUnit] *)

(** The hash XORs the two halves of the 32-bit guest address. *)
Lemma unit_hash_halves pc :
  unit_hash pc = Z.lxor (u32 pc mod 2 ^ 16) (u32 pc / 2 ^ 16).
Proof.
  unfold unit_hash. unfold u32.
  change 0xffff with (Z.ones 16).
  rewrite <- Z.shiftr_div_pow2, <- !Z.land_ones by lia.
  Z.bitblast.
Qed.

Lemma unit_hash_range pc : 0 <= unit_hash pc < 2 ^ 16.
Proof.
  unfold unit_hash. change 0xffff with (2 ^ 16 - 1). apply land_mask_range. lia.
Qed.

Lemma FindUnit_bucket_spec ICache m :
  let m' := FindUnit_bucket ICache m in
  regs m' (Host.X 0) = u64 (heap m (bucket_slot ICache (heap m) (regs m Host.REG_PC))) /\
  regs m' Host.REG_PC = regs m Host.REG_PC /\
  heap m' = heap m /\ ctx m' = ctx m /\ mem m' = mem m.
Proof.
  destruct m as [rg cx me he]. cbv zeta.
  cbv beta iota zeta delta [FindUnit_bucket ldr_x set_x set_w get_x get_w regs ctx mem heap].
  repeat first [ rewrite fn_lookup_insert
               | rewrite fn_lookup_insert_ne by (intro; discriminate) ].
  unfold bucket_slot, unit_hash.
  repeat split.
  f_equal. f_equal.
  pose proof (unit_hash_range (rg Host.REG_PC)) as R. unfold unit_hash in R.
  set (hh := Z.land (Z.lxor (u32 (rg Host.REG_PC)) (Z.shiftr (u32 (rg Host.REG_PC)) 16)) 0xffff) in *.
  assert (E1 : u64 (Z.land (u32 (Z.lxor (u32 (rg Host.REG_PC)) (Z.shiftr (u32 (rg Host.REG_PC)) 16))) 0xffff) = hh).
  { rewrite u64_small.
    - unfold hh. change 0xffff with (Z.ones 16). unfold u32 at 1.
      rewrite !Z.land_ones by lia. apply mod_mod_pow2. lia.
    - change 0xffff with (2 ^ 16 - 1).
      pose proof (land_mask_range (u32 (Z.lxor (u32 (rg Host.REG_PC)) (Z.shiftr (u32 (rg Host.REG_PC)) 16))) 16 ltac:(lia)).
      lia. }
  rewrite E1, !u64_idemp. unfold u64 at 1 2 4. apply Zplus_mod_idemp_l.
Qed.

Lemma chain_head_range h x ns t :
  chain h x ns t -> Forall unit_address ns -> 0 <= t < 2 ^ 64 -> 0 <= x < 2 ^ 64.
Proof.
  intros C F Ht. destruct C as [t E|n ns t N C]; [exact Ht|].
  apply Forall_cons in F as [[? ?] _]. lia.
Qed.

(** The walk returns the first unit of the bucket that translates the guest
    PC, and touches nothing but scratch registers. *)
Lemma FindUnit_walk_S fuel m :
  FindUnit_walk (S fuel) m =
    let x4 := u64 (heap m (u64 (regs m (Host.X 0)))) in
    let m1 := set_x (Host.X 4) x4 m in
    if x4 =? 0 then Some (false, m1)
    else
      let x5 := u64 (heap m (u64 (regs m (Host.X 0) + 32))) in
      let m2 := set_x (Host.X 5) x5 m1 in
      if u32 x5 =? u32 (regs m Host.REG_PC) then Some (true, m2)
      else FindUnit_walk fuel (set_x (Host.X 0) x4 m2).
Proof.
  destruct m as [rg cx me he]. cbn [FindUnit_walk].
  cbv beta iota zeta delta [ldr_x set_x get_x get_w regs ctx mem heap].
  rewrite !fn_lookup_insert.
  rewrite !(fn_lookup_insert_ne _ (Host.X 4) (Host.X 0)) by discriminate.
  rewrite !(fn_lookup_insert_ne _ (Host.X 5) Host.REG_PC) by discriminate.
  rewrite !(fn_lookup_insert_ne _ (Host.X 4) Host.REG_PC) by discriminate.
  rewrite !(fn_lookup_insert_ne _ (Host.X 5) (Host.X 4)) by discriminate.
  rewrite !fn_lookup_insert, !u64_idemp. reflexivity.
Qed.

Lemma FindUnit_walk_spec ns :
  forall fuel m x t,
    (length ns < fuel)%nat ->
    regs m (Host.X 0) = x ->
    chain (heap m) x ns t ->
    Forall unit_address ns -> 0 <= t < 2 ^ 64 ->
    exists hit m',
      FindUnit_walk fuel m = Some (hit, m') /\
      heap m' = heap m /\ ctx m' = ctx m /\ mem m' = mem m /\
      regs m' Host.REG_PC = regs m Host.REG_PC /\
      if hit
      then regs m' (Host.X 0) = first_match (heap m) (regs m Host.REG_PC) ns /\
           In (regs m' (Host.X 0)) ns
      else first_match (heap m) (regs m Host.REG_PC) ns = 0.
Proof.
  induction ns as [|n ns IH]; intros fuel m x t Hf Ex C F Ht;
    (destruct fuel as [|fuel]; [cbn in Hf; lia|]).
  - inversion C as [t' E|]. subst.
    exists false. eexists. split.
    + rewrite FindUnit_walk_S. cbv zeta.
      rewrite (u64_small (regs m (Host.X 0))), E by exact Ht.
      reflexivity.
    + cbn. rewrite fn_lookup_insert_ne by discriminate. repeat split; reflexivity.
  - inversion C as [|n' ns' t' N C']. subst.
    pose proof (chain_head_range _ _ _ _ C' (Forall_inv_tail F) Ht) as Rn.
    pose proof (Forall_inv F) as [Hn0 Hn1].
    rewrite FindUnit_walk_S. cbv zeta.
    set (n := regs m (Host.X 0)) in *.
    rewrite (u64_small n), (u64_small (heap m n)), (u64_small (n + 32)) by lia.
    destruct (Z.eqb_spec (heap m n) 0) as [|_]; [contradiction|].
    rewrite u32_u64.
    unfold first_match. cbn [List.find].
    destruct (u32 (heap m (n + 32)) =? u32 (regs m Host.REG_PC)) eqn:K.
    + exists true. eexists. split; [reflexivity|]. cbn.
      rewrite !(fn_lookup_insert_ne _ (Host.X 5)) by discriminate.
      rewrite !(fn_lookup_insert_ne _ (Host.X 4)) by discriminate.
      repeat split; auto.
    + match goal with
      | |- context [FindUnit_walk _ ?m1] =>
          destruct (IH fuel m1 (heap m n) t) as (hit & m' & W & Hh & Hc & Hm & Hp & R)
      end.
      * cbn in Hf. lia.
      * cbn. rewrite fn_lookup_insert. apply u64_small. lia.
      * exact C'.
      * exact (Forall_inv_tail F).
      * exact Ht.
      * exists hit, m'. split; [exact W|]. cbn in Hh, Hc, Hm, Hp, R.
        rewrite !(fn_lookup_insert_ne _ _ Host.REG_PC) in Hp, R by discriminate.
        repeat split; try assumption.
        destruct hit; [destruct R as [R1 R2]; split; [exact R1|now right]|exact R].
Qed.

Lemma first_match_In h pc ns :
  first_match h pc ns <> 0 -> In (first_match h pc ns) ns.
Proof.
  unfold first_match. destruct (List.find _ ns) eqn:E; [|congruence].
  intros _. apply List.find_some in E. tauto.
Qed.

Lemma first_match_translates h pc ns :
  first_match h pc ns <> 0 ->
  u32 (h (first_match h pc ns + 32)) = u32 pc.
Proof.
  unfold first_match. destruct (List.find _ ns) eqn:E; [|congruence].
  intros _. apply List.find_some in E. lia.
Qed.

(** The chain and the match only depend on the cells the walk reads. *)
Lemma chain_ext h h' x ns t :
  (forall a, In a (bucket_cells ns t) -> h' a = h a) ->
  chain h x ns t -> chain h' x ns t.
Proof.
  intros E C. induction C as [t Z0|n ns t N C IH].
  - constructor. rewrite E; [exact Z0|]. cbn. auto.
  - assert (En : h' n = h n) by (apply E; cbn; auto).
    constructor; rewrite En; [exact N|].
    apply IH. intros a Ha. apply E. cbn. right. right. exact Ha.
Qed.

Lemma first_match_ext h h' pc ns t :
  (forall a, In a (bucket_cells ns t) -> h' a = h a) ->
  first_match h' pc ns = first_match h pc ns.
Proof.
  unfold first_match. intros E. induction ns as [|n ns IH]; [reflexivity|].
  cbn [List.find]. rewrite (E (n + 32)) by (cbn; auto).
  destruct (_ =? _); [reflexivity|].
  apply IH. intros a Ha. apply E. cbn. right. right. exact Ha.
Qed.

(** Label [2:] writes at most the six link cells of [promote_cells], and
    keeps the unit in [x0]. *)
Lemma FindUnit_promote_frame m :
  let m' := FindUnit_promote m in
  regs m' (Host.X 0) = regs m (Host.X 0) /\
  regs m' Host.REG_PC = regs m Host.REG_PC /\
  ctx m' = ctx m /\ mem m' = mem m /\
  forall a, ~ In a (promote_cells (heap m) (regs m (Host.X 0))) ->
            heap m' a = heap m a.
Proof.
  destruct m as [rg cx me he]. cbv zeta.
  cbv beta iota zeta delta
    [FindUnit_promote promote_cells ldr_x str_x set_x get_x regs ctx mem heap].
  repeat first [ rewrite fn_lookup_insert
               | rewrite fn_lookup_insert_ne by (intro; discriminate) ].
  rewrite !u64_idemp.
  set (u := rg (Host.X 0)).
  set (p := u64 (he (u64 (u + 24)))).
  set (pp := u64 (he (u64 (p + 8)))).
  destruct (pp =? 0) eqn:E;
    cbv beta iota zeta delta [regs ctx mem heap];
    repeat first [ rewrite fn_lookup_insert
                 | rewrite fn_lookup_insert_ne by (intro; discriminate) ];
    repeat split.
  intros a Ha. cbn [In] in Ha.
  rewrite !fn_lookup_insert_ne; [reflexivity| | | | | |];
    intros <-; apply Ha; tauto.
Qed.
(** When the six link cells are distinct, label [2:] swaps the unit with the
    node before it in the second list. *)
Lemma FindUnit_promote_swaps m :
  let h := heap m in
  let u := regs m (Host.X 0) in
  let h' := heap (FindUnit_promote m) in
  lru_pred2 h u <> 0 ->
  List.NoDup (promote_cells h u) ->
  h' (u64 (u + 16)) = lru_pred h u /\
  h' (u64 (u + 24)) = lru_pred2 h u /\
  h' (lru_pred2 h u) = u64 (u + 16) /\
  h' (lru_pred h u) = lru_succ h u /\
  h' (u64 (lru_pred h u + 8)) = u64 (u + 16) /\
  h' (u64 (lru_succ h u + 8)) = lru_pred h u.
Proof.
  destruct m as [rg cx me he]. cbv zeta.
  cbv beta iota zeta delta
    [FindUnit_promote promote_cells lru_pred lru_pred2 lru_succ
     ldr_x str_x set_x get_x regs ctx mem heap].
  repeat first [ rewrite fn_lookup_insert
               | rewrite fn_lookup_insert_ne by (intro; discriminate) ].
  rewrite !u64_idemp.
  set (u := rg (Host.X 0)).
  set (p := u64 (he (u64 (u + 24)))).
  set (pp := u64 (he (u64 (p + 8)))).
  set (s := u64 (he (u64 (u + 16)))).
  intros Hpp ND.
  destruct (Z.eqb_spec pp 0) as [|_]; [contradiction|].
  cbv beta iota zeta delta [regs ctx mem heap].
  repeat match type of ND with
         | List.NoDup (_ :: _) =>
             let H := fresh "N" in
             apply NoDup_cons_iff in ND as [H ND]; cbn [In] in H
         end.
  repeat split;
    repeat first [ rewrite fn_lookup_insert
                 | rewrite fn_lookup_insert_ne by (intro Q; tauto)
                 | rewrite fn_lookup_insert_ne by (intro Q; symmetry in Q; tauto) ];
    reflexivity.
Qed.

Lemma FindUnit_spec ICache ns :
  forall fuel m t,
    (length ns < fuel)%nat ->
    chain (heap m) (heap m (bucket_slot ICache (heap m) (regs m Host.REG_PC))) ns t ->
    Forall unit_address ns -> 0 <= t < 2 ^ 64 ->
    let u := first_match (heap m) (regs m Host.REG_PC) ns in
    exists m',
      FindUnit ICache fuel m = Some m' /\
      regs m' (Host.X 0) = u /\
      regs m' Host.REG_PC = regs m Host.REG_PC /\
      ctx m' = ctx m /\ mem m' = mem m /\
      (u = 0 -> heap m' = heap m) /\
      forall a, ~ In a (promote_cells (heap m) u) -> heap m' a = heap m a.
Proof.
  intros fuel m t Hf C F Ht u.
  pose proof (FindUnit_bucket_spec ICache m) as B. cbv zeta in B.
  destruct B as (B0 & Bp & Bh & Bc & Bm).
  pose proof (chain_head_range _ _ _ _ C F Ht) as Rx.
  rewrite u64_small in B0 by exact Rx.
  destruct (FindUnit_walk_spec ns fuel (FindUnit_bucket ICache m) _ t Hf B0)
    as (hit & m1 & W & Hh & Hc & Hm & Hp & R).
  { rewrite Bh. exact C. }
  { exact F. }
  { exact Ht. }
  unfold FindUnit. rewrite W. rewrite Bh, Bp in *.
  destruct hit.
  - destruct R as [R1 R2].
    pose proof (FindUnit_promote_frame m1) as P. cbv zeta in P.
    destruct P as (P0 & Pp & Pc & Pm & Ph).
    eexists. split; [reflexivity|].
    rewrite P0, Pp, Pc, Pm, R1, Hp, Hc, Hm, Bc, Bm.
    repeat split.
    + intros U0. exfalso. fold u in R1. rewrite R1, U0 in R2.
      rewrite List.Forall_forall in F. apply F in R2. destruct R2. lia.
    + intros a Ha. rewrite Ph, Hh; [reflexivity|].
      rewrite R1, Hh. exact Ha.
  - eexists. split; [reflexivity|]. cbn.
    rewrite fn_lookup_insert, fn_lookup_insert_ne by discriminate.
    fold u in R. rewrite R, Hp, Hh, Hc, Hm, Bc, Bm. repeat split.
Qed.
(** A hit goes through label [2:] with the unit in [x0] and the memory of
    the entry. *)
Lemma FindUnit_hit ICache ns :
  forall fuel m t,
    (length ns < fuel)%nat ->
    chain (heap m) (heap m (bucket_slot ICache (heap m) (regs m Host.REG_PC))) ns t ->
    Forall unit_address ns -> 0 <= t < 2 ^ 64 ->
    first_match (heap m) (regs m Host.REG_PC) ns <> 0 ->
    exists mw,
      FindUnit ICache fuel m = Some (FindUnit_promote mw) /\
      heap mw = heap m /\
      regs mw (Host.X 0) = first_match (heap m) (regs m Host.REG_PC) ns.
Proof.
  intros fuel m t Hf C F Ht Hu.
  pose proof (FindUnit_bucket_spec ICache m) as B. cbv zeta in B.
  destruct B as (B0 & Bp & Bh & Bc & Bm).
  pose proof (chain_head_range _ _ _ _ C F Ht) as Rx.
  rewrite u64_small in B0 by exact Rx.
  destruct (FindUnit_walk_spec ns fuel (FindUnit_bucket ICache m) _ t Hf B0)
    as (hit & m1 & W & Hh & Hc & Hm & Hp & R).
  { rewrite Bh. exact C. }
  { exact F. }
  { exact Ht. }
  unfold FindUnit. rewrite W. rewrite Bh, Bp in *.
  destruct hit; [|contradiction].
  destruct R as [R1 _]. exists m1. repeat split; assumption.
Qed.

(** C4, amended.  The lookup hashes the guest PC by XORing its two 16-bit
    halves and walks the bucket of that hash.  On a hit it returns the first
    unit of the bucket that translates the PC and leaves the bucket list as
    it is: the bucket head and every link of the bucket keep their values,
    and the only cells written are the at most six links [promote_cells] of
    the second list, the one threaded through the units at offsets 16 and
    24.  In that list the unit is swapped with the node before it: with [p]
    the node before the unit, [pp] the node before [p] and [s] the node
    after the unit (six distinct link cells), the order [pp, p, unit, s]
    becomes [pp, unit, p, s]; when [p] has no predecessor, the unit being
    first already, nothing is written.  On a miss the lookup returns null
    and writes nothing.  The same lookup repeated at once returns the same
    unit. *)
Theorem FindUnit_hit_keeps_bucket ICache m ns t fuel :
  let h := heap m in
  let pc := regs m Host.REG_PC in
  let slot := bucket_slot ICache h pc in
  let u := first_match h pc ns in
  (length ns < fuel)%nat ->
  chain h (h slot) ns t ->
  Forall unit_address ns -> 0 <= t < 2 ^ 64 ->
  (forall c, In c (promote_cells h u) ->
             ~ In c (u64 ICache :: slot :: bucket_cells ns t)) ->
  unit_hash pc = Z.lxor (u32 pc mod 2 ^ 16) (u32 pc / 2 ^ 16) /\
  exists m',
    FindUnit ICache fuel m = Some m' /\
    regs m' (Host.X 0) = u /\
    (u <> 0 -> In u ns /\ u32 (h (u + 32)) = u32 pc) /\
    (u = 0 -> heap m' = h) /\
    heap m' slot = h slot /\
    chain (heap m') (heap m' slot) ns t /\
    (forall a, ~ In a (promote_cells h u) -> heap m' a = h a) /\
    (u <> 0 -> lru_pred2 h u <> 0 -> List.NoDup (promote_cells h u) ->
     heap m' (lru_pred2 h u) = u64 (u + 16) /\
     heap m' (u64 (u + 16)) = lru_pred h u /\
     heap m' (u64 (u + 24)) = lru_pred2 h u /\
     heap m' (lru_pred h u) = lru_succ h u /\
     heap m' (u64 (lru_pred h u + 8)) = u64 (u + 16) /\
     heap m' (u64 (lru_succ h u + 8)) = lru_pred h u) /\
    (u <> 0 -> lru_pred2 h u = 0 -> forall a, heap m' a = h a) /\
    exists m'',
      FindUnit ICache fuel m' = Some m'' /\
      regs m'' (Host.X 0) = regs m' (Host.X 0).
Proof.
  intros h pc slot u Hf C F Ht Sep.
  split; [apply unit_hash_halves|].
  destruct (FindUnit_spec ICache ns fuel m t Hf C F Ht)
    as (m' & E & R0 & Rp & Rc & Rm & Rz & Rh).
  fold h pc u in R0, Rz, Rh.
  assert (Keep : forall a, In a (u64 ICache :: slot :: bucket_cells ns t) ->
                           heap m' a = h a).
  { intros a Ha. apply Rh. intros Hc. exact (Sep a Hc Ha). }
  assert (Eslot : bucket_slot ICache (heap m') (regs m' Host.REG_PC) = slot).
  { unfold slot, bucket_slot. rewrite Rp, (Keep (u64 ICache)) by (cbn; auto).
    reflexivity. }
  assert (Ehead : heap m' slot = h slot) by (apply Keep; cbn; auto).
  assert (C' : chain (heap m') (heap m' slot) ns t).
  { rewrite Ehead. apply (chain_ext h); [|exact C].
    intros a Ha. apply Keep. cbn. auto. }
  exists m'.
  split; [exact E|]. split; [exact R0|].
  split; [intros Hu; split; [now apply first_match_In|now apply first_match_translates]|].
  split; [exact Rz|]. split; [exact Ehead|]. split; [exact C'|]. split; [exact Rh|].
  split; [|split].
  - (* the swap *)
    intros Hu Hpp ND.
    destruct (FindUnit_hit ICache ns fuel m t Hf C F Ht Hu) as (mw & Ew & Eh & E0).
    fold h in Eh. fold h pc u in E0.
    pose proof (FindUnit_promote_swaps mw) as S. cbv zeta in S.
    rewrite Eh, E0 in S. specialize (S Hpp ND).
    assert (Em : m' = FindUnit_promote mw) by congruence.
    rewrite Em. destruct S as (S1 & S2 & S3 & S4 & S5 & S6).
    split; [exact S3|]. split; [exact S1|]. split; [exact S2|].
    split; [exact S4|]. split; [exact S5|exact S6].
  - (* first already *)
    intros Hu Hpp a. apply Rh. unfold promote_cells.
    unfold lru_pred2, lru_pred in Hpp. rewrite Hpp. cbn. tauto.
  - destruct (FindUnit_spec ICache ns fuel m' t Hf) as (m'' & E' & R0' & _);
      [rewrite Eslot; exact C'|exact F|exact Ht|].
    exists m''. split; [exact E'|].
    rewrite R0', R0, Rp. apply (first_match_ext h (heap m') pc ns t).
    intros a Ha. apply Keep. cbn. auto.
Qed.

(** The bucket of [0x00010002] in [two_units]: the unit at [0x3000] is
    second in its bucket and second in the other list, behind the unit at
    [0x2000]; the lookup leaves the bucket head at [0x2000] and swaps the two
    in the other list, whose header is at [0x5000]. *)
Lemma FindUnit_hit_keeps_bucket_witness :
  let m := machine_of 0x00010002 two_units in
  exists m',
    FindUnit 0x100 3 m = Some m' /\
    regs m' (Host.X 0) = 0x3000 /\
    heap m' 0x1048 = 0x2000 /\
    heap m' 0x5000 = 0x3010 /\ heap m' 0x3010 = 0x2010 /\ heap m' 0x2010 = 0x5008 /\
    exists m'',
      FindUnit 0x100 3 m' = Some m'' /\ regs m'' (Host.X 0) = 0x3000.
Proof.
  intros m.
  destruct (FindUnit_hit_keeps_bucket 0x100 m [0x2000; 0x3000] 0x1050 3%nat)
    as (_ & m' & E & R0 & _ & _ & Eh & _ & _ & Sw & _ & m'' & E' & R0').
  - cbn. lia.
  - repeat first [ apply chain_node; [vm_compute; discriminate|]
                 | apply chain_end; reflexivity ].
  - repeat (apply List.Forall_cons; [unfold unit_address; lia|]). apply List.Forall_nil.
  - lia.
  - intros c Hc Hb. vm_compute in Hc, Hb.
    repeat match goal with
           | H : _ \/ _ |- _ => destruct H
           | H : False |- _ => destruct H
           end; subst; discriminate.
  - destruct Sw as (S3 & S1 & _ & S4 & _ & _).
    + vm_compute. discriminate.
    + vm_compute. discriminate.
    + vm_compute. repeat (apply List.NoDup_cons; [cbn; intuition discriminate|]).
      apply List.NoDup_nil.
    + exists m'. split; [exact E|]. split; [exact R0|]. split; [exact Eh|].
      split; [exact S3|]. split; [exact S1|]. split; [exact S4|].
      exists m''. split; [exact E'|]. rewrite R0'. exact R0.
Defined.

(** C4, the spec's words against the code: in [two_units] the lookup of
    [0x00010002] returns the unit at [0x3000], and the head of its bucket is
    still the other unit, [0x2000], as before; what changed is the head of
    the second list, at [0x5000]. *)
Lemma FindUnit_hit_bucket_head_not_moved :
  let m := machine_of 0x00010002 two_units in
  exists m',
    FindUnit 0x100 3 m = Some m' /\
    regs m' (Host.X 0) = 0x3000 /\
    heap m 0x1048 = 0x2000 /\
    heap m' 0x1048 = 0x2000 /\
    heap m' 0x1048 <> regs m' (Host.X 0) /\
    heap m 0x5000 = 0x2010 /\
    heap m' 0x5000 = 0x3010.
Proof.
  eexists. split; [vm_compute; reflexivity|].
  vm_compute. repeat split; discriminate.
Qed.
(** ** [ExecutionLoop] *)

Lemma u8_range x : 0 <= u8 x < 2 ^ 8.
Proof. apply Z.mod_pos_bound. lia. Qed.

Lemma u8_idemp x : u8 (u8 x) = u8 x.
Proof. unfold u8. apply Z.mod_mod. lia. Qed.

Lemma bytes_u16 v : u8 (Z.shiftr v 8) * 2 ^ 8 + u8 v = u16 v.
Proof.
  unfold u8, u16. rewrite !Z.shiftr_div_pow2 by lia.
  pose proof (Z.div_mod v (2 ^ 8) ltac:(lia)).
  pose proof (Z.div_mod (v / 2 ^ 8) (2 ^ 8) ltac:(lia)).
  rewrite !Z.div_div in * by lia.
  change (2 ^ 8 * 2 ^ 8) with (2 ^ 16) in *.
  pose proof (Z.mod_pos_bound v (2 ^ 8) ltac:(lia)).
  pose proof (Z.mod_pos_bound (v / 2 ^ 8) (2 ^ 8) ltac:(lia)).
  apply Z.mod_unique_pos with (q := v / 2 ^ 16); lia.
Qed.

Lemma bytes_u32 v :
  u8 (Z.shiftr v 24) * 2 ^ 24 + u8 (Z.shiftr v 16) * 2 ^ 16 +
  u8 (Z.shiftr v 8) * 2 ^ 8 + u8 v = u32 v.
Proof.
  unfold u8, u32. rewrite !Z.shiftr_div_pow2 by lia.
  assert (E16 : v / 2 ^ 16 = v / 2 ^ 8 / 2 ^ 8) by (now rewrite Z.div_div by lia).
  assert (E24 : v / 2 ^ 24 = v / 2 ^ 16 / 2 ^ 8) by (now rewrite Z.div_div by lia).
  assert (E32 : v / 2 ^ 32 = v / 2 ^ 24 / 2 ^ 8) by (now rewrite Z.div_div by lia).
  pose proof (Z.div_mod v (2 ^ 8) ltac:(lia)).
  pose proof (Z.div_mod (v / 2 ^ 8) (2 ^ 8) ltac:(lia)).
  pose proof (Z.div_mod (v / 2 ^ 16) (2 ^ 8) ltac:(lia)).
  pose proof (Z.div_mod (v / 2 ^ 24) (2 ^ 8) ltac:(lia)).
  pose proof (Z.mod_pos_bound v (2 ^ 8) ltac:(lia)).
  pose proof (Z.mod_pos_bound (v / 2 ^ 8) (2 ^ 8) ltac:(lia)).
  pose proof (Z.mod_pos_bound (v / 2 ^ 16) (2 ^ 8) ltac:(lia)).
  pose proof (Z.mod_pos_bound (v / 2 ^ 24) (2 ^ 8) ltac:(lia)).
  apply Z.mod_unique_pos with (q := v / 2 ^ 32); lia.
Qed.


Lemma u64_sub_l a b : u64 (u64 a - b) = u64 (a - b).
Proof. unfold u64. apply Zminus_mod_idemp_l. Qed.

Lemma u64_offset_ne B j k :
  j <> k -> - 2 ^ 64 < j - k < 2 ^ 64 -> u64 (B + j) <> u64 (B + k).
Proof.
  unfold u64. intros N R H.
  assert (D : ((B + j) - (B + k)) mod 2 ^ 64 = 0).
  { rewrite Zminus_mod, H, Z.sub_diag. reflexivity. }
  replace (B + j - (B + k)) with (j - k) in D by lia.
  apply Z.mod_divide in D; [|lia]. destruct D as [q D]. nia.
Qed.
Lemma mem_ldrh_range a m : 0 <= mem_ldrh a m < 2 ^ 16.
Proof.
  unfold mem_ldrh.
  pose proof (u8_range (mem m (u64 a))). pose proof (u8_range (mem m (u64 (a + 1)))). lia.
Qed.

Lemma mem_ldr_w_range a m : 0 <= mem_ldr_w a m < 2 ^ 32.
Proof.
  unfold mem_ldr_w.
  pose proof (u8_range (mem m (u64 a))). pose proof (u8_range (mem m (u64 (a + 1)))).
  pose proof (u8_range (mem m (u64 (a + 2)))). pose proof (u8_range (mem m (u64 (a + 3)))).
  lia.
Qed.

#[local] Ltac expose_loop :=
  cbv beta iota zeta delta
    [exception_frame enter_supervisor PINT_unmasked PINT_accept IPL_accept
     push_h push_w mem_strh mem_str_w ctx_str
     get_w get_x set_x set_w regs ctx mem heap].

#[local] Ltac reg_lookups :=
  repeat first [ rewrite fn_lookup_insert
               | rewrite fn_lookup_insert_ne by (intro; discriminate) ].

#[local] Ltac addr_eq := unfold u64; Z.div_mod_to_equations; lia.

(** Where the eight bytes of the frame go. *)
Lemma exception_frame_mem level m :
  let B := regs m (Host.REG_A 7) in
  let vec := u32 (u32 (Z.shiftl level 2) + 0x60) in
  let sr := u32 (regs m (Host.X 2)) in
  let pc := u32 (regs m Host.REG_PC) in
  mem (exception_frame level m) =
    <[u64 (B + -7) := u8 sr]> (<[u64 (B + -8) := u8 (Z.shiftr sr 8)]>
    (<[u64 (B + -3) := u8 pc]> (<[u64 (B + -4) := u8 (Z.shiftr pc 8)]>
    (<[u64 (B + -5) := u8 (Z.shiftr pc 16)]> (<[u64 (B + -6) := u8 (Z.shiftr pc 24)]>
    (<[u64 (B + -1) := u8 vec]> (<[u64 (B + -2) := u8 (Z.shiftr vec 8)]> (mem m)))))))).
Proof.
  destruct m as [rg cx me he]. expose_loop. reg_lookups.
  rewrite ?u32_idemp, ?u64_idemp, ?u32_u64.
  repeat first [ f_equal; [addr_eq|] | f_equal; addr_eq ].
Qed.
#[local] Ltac mem_lookups :=
  repeat first [ rewrite fn_lookup_insert
               | rewrite fn_lookup_insert_ne by (apply u64_offset_ne; lia) ].

(** The frame read back. *)
Lemma exception_frame_pushed level m :
  let B := regs m (Host.REG_A 7) in
  let m' := exception_frame level m in
  mem_ldrh (B + -8) m' = u16 (regs m (Host.X 2)) /\
  mem_ldr_w (B + -6) m' = u32 (regs m Host.REG_PC) /\
  mem_ldrh (B + -2) m' = u16 (u32 (Z.shiftl level 2) + 0x60) /\
  forall a, (forall k, -8 <= k < 0 -> a <> u64 (B + k)) -> mem m' a = mem m a.
Proof.
  cbv zeta. unfold mem_ldrh, mem_ldr_w. rewrite exception_frame_mem. cbv zeta.
  set (B := regs m (Host.REG_A 7)).
  replace (B + -8 + 1) with (B + -7) by lia.
  replace (B + -6 + 1) with (B + -5) by lia.
  replace (B + -6 + 2) with (B + -4) by lia.
  replace (B + -6 + 3) with (B + -3) by lia.
  replace (B + -2 + 1) with (B + -1) by lia.
  repeat split.
  - mem_lookups. rewrite !u8_idemp, bytes_u16. apply u16_u32.
  - mem_lookups. rewrite !u8_idemp, bytes_u32. apply u32_idemp.
  - mem_lookups. rewrite !u8_idemp, bytes_u16. apply u16_u32.
  - intros a Ha.
    rewrite !fn_lookup_insert_ne; [reflexivity | | | | | | | |];
      intros E; symmetry in E; revert E; apply Ha; lia.
Qed.

Lemma u32_bic_w a b : u32 (bic_w a b) = bic_w a b.
Proof. apply u32_idemp. Qed.

Lemma bic_w_range a b : 0 <= bic_w a b < 2 ^ 32.
Proof. apply u32_range. Qed.

Lemma exception_frame_regs level m :
  let m' := exception_frame level m in
  regs m' (Host.REG_A 7) = u64 (regs m (Host.REG_A 7) + -8) /\
  regs m' Host.TPIDR_EL0 = Z.lor (bic_w (u32 (regs m (Host.X 5))) 0xc000) 0x2000 /\
  regs m' Host.REG_PC =
    mem_ldr_w (u32 (ctx m M68KState.VBR) + u32 (u32 (Z.shiftl level 2) + 0x60)) m' /\
  ctx m' = ctx m /\ heap m' = heap m /\
  forall r, r <> Host.X 1 -> r <> Host.X 3 -> r <> Host.X 5 ->
            r <> Host.REG_A 7 -> r <> Host.REG_PC -> r <> Host.TPIDR_EL0 ->
            regs m' r = regs m r.
Proof.
  cbv zeta. split; [|split; [|split; [|split; [|split]]]].
  - destruct m as [rg cx me he]. expose_loop. reg_lookups.
    rewrite ?u64_idemp. addr_eq.
  - destruct m as [rg cx me he]. expose_loop. reg_lookups.
    rewrite ?u32_idemp, ?u32_bic_w.
    assert (R : 0 <= Z.lor (bic_w (u32 (rg (Host.X 5))) 49152) 8192 < 2 ^ 32).
    { apply lor_lt_pow2; [lia|apply bic_w_range|lia]. }
    rewrite (u32_small _ R). apply u64_small. lia.
  - pose proof (mem_ldr_w_range
                  (u32 (ctx m M68KState.VBR) + u32 (u32 (Z.shiftl level 2) + 0x60))
                  (exception_frame level m)) as R.
    rewrite <- (u32_small _ R) at 1. clear R.
    destruct m as [rg cx me he]. expose_loop. reg_lookups.
    rewrite ?u32_idemp. reflexivity.
  - destruct m as [rg cx me he]. reflexivity.
  - destruct m as [rg cx me he]. reflexivity.
  - intros r N1 N3 N5 N7 Np Ns.
    destruct m as [rg cx me he]. expose_loop.
    now rewrite !fn_lookup_insert_ne by congruence.
Qed.
Lemma upto_In n x : 0 <= x < Z.of_nat n -> In x (upto n).
Proof.
  intros H. unfold upto. apply in_map_iff. exists (Z.to_nat x). split; [lia|].
  apply in_seq. lia.
Qed.

Lemma PINT_check_all :
  forallb (fun ipm => forallb (PINT_check ipm) (upto 256)) (upto 8) = true.
Proof. vm_compute. reflexivity. Qed.

Lemma PINT_check_ok ipm pint :
  0 <= ipm < 8 -> 0 <= pint < 256 -> PINT_check ipm pint = true.
Proof.
  intros Hi Hp. pose proof PINT_check_all as A.
  rewrite forallb_forall in A. specialize (A ipm (upto_In 8 ipm Hi)).
  rewrite forallb_forall in A. exact (A pint (upto_In 256 pint Hp)).
Qed.

Lemma IPM_range sr : 0 <= IPM sr < 8.
Proof. unfold IPM. change 7 with (2 ^ 3 - 1). apply land_mask_range. lia. Qed.

(** The mask lets a pending level through exactly when it lets the highest
    pending level through. *)
Lemma unmasked_highest ipm pint :
  0 < pint < 256 ->
  (exists l, Z.testbit pint l = true /\ unmasked ipm l = true) <->
  unmasked ipm (highest_pending pint) = true.
Proof.
  intros R. unfold highest_pending, unmasked. split.
  - intros (l & P & U).
    assert (Hl : 0 <= l) by (destruct (Z.ltb_spec l 0); [rewrite Z.testbit_neg_r in P by lia; discriminate|lia]).
    assert (l <= Z.log2 pint).
    { apply Z.log2_le_pow2; [lia|].
      destruct (Z.ltb_spec pint (2 ^ l)); [|lia].
      rewrite (testbit_above pint l) in P by lia. discriminate. }
    assert (Z.log2 pint < 8) by (apply Z.log2_lt_pow2; lia).
    apply orb_true_iff in U. apply orb_true_iff. lia.
  - intros U. exists (Z.log2 pint). split; [apply Z.bit_log2; lia|exact U].
Qed.
Lemma u32_lsl_w a b : u32 (lsl_w a b) = lsl_w a b.
Proof. apply u32_idemp. Qed.

Lemma ubfx_w_IPM sr : ubfx_w sr SRB_IPL 3 = IPM sr.
Proof. reflexivity. Qed.

Lemma u32_IPM sr : u32 (IPM sr) = IPM sr.
Proof. apply u32_small. pose proof (IPM_range sr). lia. Qed.

Lemma PINT_unmasked_spec m :
  let m' := PINT_unmasked m in
  regs m' (Host.X 3) = bic_w (u32 (regs m (Host.X 1))) (PINT_mask (IPM (guest_SR m))) /\
  regs m' (Host.X 2) = u64 (regs m Host.TPIDR_EL0) /\
  ctx m' = ctx m /\ mem m' = mem m /\ heap m' = heap m /\
  forall r, r <> Host.X 2 -> r <> Host.X 3 -> r <> Host.X 4 -> regs m' r = regs m r.
Proof.
  cbv zeta. split; [|split; [|split; [|split; [|split]]]];
    destruct m as [rg cx me he]; expose_loop; reg_lookups; try reflexivity.
  - unfold guest_SR, PINT_mask. cbn [regs].
    rewrite ?u32_idemp, ?u32_u64, ?u32_bic_w, ?u32_lsl_w, ?ubfx_w_IPM, ?u32_IPM.
    change (u32 2) with 2. reflexivity.
  - intros r N2 N3 N4. now rewrite !fn_lookup_insert_ne by congruence.
Qed.

Lemma u32_PINT_level w : u32 (PINT_level w) = PINT_level w.
Proof. apply u32_idemp. Qed.

Lemma PINT_accept_spec m :
  let m' := PINT_accept m in
  let level := PINT_level (u32 (regs m (Host.X 3))) in
  regs m' (Host.X 3) = level /\
  regs m' (Host.X 5) = u32 (bfi_w (u32 (regs m (Host.X 2))) level SRB_IPL 3) /\
  ctx m' = <[M68KState.PINT := bic_w (u32 (regs m (Host.X 1))) (lsl_w 1 level)]> (ctx m) /\
  mem m' = mem m /\ heap m' = heap m /\
  forall r, r <> Host.X 1 -> r <> Host.X 3 -> r <> Host.X 4 -> r <> Host.X 5 ->
            regs m' r = regs m r.
Proof.
  cbv zeta. split; [|split; [|split; [|split; [|split]]]];
    destruct m as [rg cx me he]; expose_loop; reg_lookups; try reflexivity.
  - unfold PINT_level. now rewrite ?u32_idemp.
  - unfold PINT_level. now rewrite ?u32_idemp.
  - unfold PINT_level. rewrite ?u32_idemp, ?u32_bic_w, ?u32_lsl_w.
    change (u32 1) with 1. reflexivity.
  - intros r N1 N3 N4 N5. now rewrite !fn_lookup_insert_ne by congruence.
Qed.

Lemma enter_supervisor_spec m :
  let m' := enter_supervisor m in
  let sr := u32 (regs m (Host.X 2)) in
  regs m' (Host.REG_A 7) =
    (if Z.testbit sr SRB_S then regs m (Host.REG_A 7)
     else if Z.testbit sr SRB_M then u32 (ctx m M68KState.MSP)
          else u32 (ctx m M68KState.ISP)) /\
  ctx m' = (if Z.testbit sr SRB_S then ctx m
            else <[M68KState.USP := u32 (regs m (Host.REG_A 7))]> (ctx m)) /\
  mem m' = mem m /\ heap m' = heap m /\
  forall r, r <> Host.REG_A 7 -> regs m' r = regs m r.
Proof.
  cbv zeta. destruct m as [rg cx me he]. expose_loop.
  destruct (Z.testbit (u32 (rg (Host.X 2))) SRB_S);
    [|destruct (Z.testbit (u32 (rg (Host.X 2))) SRB_M)];
    cbv beta iota; reg_lookups; rewrite ?u32_idemp;
    (split; [|split; [|split; [|split]]]); try reflexivity;
    intros r N; now rewrite ?fn_lookup_insert_ne by congruence.
Qed.
Lemma interrupt_SR_bits sr L :
  0 <= L < 8 ->
  IPM (interrupt_SR sr L) = L /\
  Z.testbit (interrupt_SR sr L) 15 = false /\
  Z.testbit (interrupt_SR sr L) 14 = false /\
  Z.testbit (interrupt_SR sr L) SRB_S = true /\
  forall i, 0 <= i < 32 -> i <> 8 -> i <> 9 -> i <> 10 -> i <> 13 -> i <> 14 -> i <> 15 ->
            Z.testbit (interrupt_SR sr L) i = Z.testbit sr i.
Proof.
  intros R.
  assert (EL : Z.land L (Z.ones 3) = L).
  { rewrite Z.land_ones by lia. apply Z.mod_small. lia. }
  unfold IPM, interrupt_SR, bic_w, bfi_w, u32, SRB_IPL, SRB_S.
  rewrite EL.
  change 7 with (Z.ones 3). change 0xc000 with (Z.shiftl (Z.ones 2) 14).
  change 0x2000 with (Z.shiftl (Z.ones 1) 13).
  rewrite <- !Z.land_ones by lia.
  repeat split.
  - rewrite <- EL at 2. Z.bitblast.
  - Z.bitblast_core.
  - Z.bitblast_core.
  - Z.bitblast_core.
  - intros i Hi N8 N9 N10 N13 N14 N15.
    assert (T : forall j, 3 <= j -> Z.testbit L j = false).
    { intros j Hj. rewrite <- EL. Z.bitblast_core. }
    Z.bitblast_core;
      rewrite ?(Z.testbit_neg_r L l) by lia; rewrite ?(T l) by lia;
      destruct (Z.testbit sr i); reflexivity.
Qed.
Lemma regs_set_x r v m r' : regs (set_x r v m) r' = <[r := u64 v]> (regs m) r'.
Proof. reflexivity. Qed.
Lemma ctx_set_x r v m : ctx (set_x r v m) = ctx m.
Proof. reflexivity. Qed.
Lemma mem_set_x r v m : mem (set_x r v m) = mem m.
Proof. reflexivity. Qed.
Lemma heap_set_x r v m : heap (set_x r v m) = heap m.
Proof. reflexivity. Qed.
Lemma mem_ldrh_set_x a r v m : mem_ldrh a (set_x r v m) = mem_ldrh a m.
Proof. reflexivity. Qed.
Lemma mem_ldr_w_set_x a r v m : mem_ldr_w a (set_x r v m) = mem_ldr_w a m.
Proof. reflexivity. Qed.
Lemma regs_set_w r v m r' : regs (set_w r v m) r' = <[r := u32 v]> (regs m) r'.
Proof. reflexivity. Qed.
Lemma ctx_set_w r v m : ctx (set_w r v m) = ctx m.
Proof. reflexivity. Qed.
Lemma mem_set_w r v m : mem (set_w r v m) = mem m.
Proof. reflexivity. Qed.
Lemma heap_set_w r v m : heap (set_w r v m) = heap m.
Proof. reflexivity. Qed.

Lemma vector_offset L : 0 <= L < 8 -> u32 (u32 (Z.shiftl L 2) + 0x60) = (24 + L) * 4.
Proof.
  intros R. rewrite Z.shiftl_mul_pow2 by lia.
  rewrite (u32_small (L * 2 ^ 2)) by lia. rewrite u32_small by lia. lia.
Qed.

Lemma highest_pending_range pint : 0 <= pint < 256 -> 0 <= highest_pending pint < 8.
Proof.
  intros R. unfold highest_pending. split; [apply Z.log2_nonneg|].
  destruct (Z.eq_dec pint 0) as [->|N]; [cbn; lia|].
  apply Z.log2_lt_pow2; lia.
Qed.

Lemma ExecutionLoop_PINT_taken m :
  get_w (Host.X 3) (PINT_unmasked m) <> 0 ->
  ExecutionLoop_PINT m =
    let mC := PINT_accept (enter_supervisor (PINT_unmasked m)) in
    let mD := exception_frame (get_w (Host.X 3) mC) mC in
    set_x (Host.X 2) (get_x Host.TPIDR_EL1 mD) mD.
Proof.
  intros H. unfold ExecutionLoop_PINT. cbv zeta.
  destruct (Z.eqb_spec (get_w (Host.X 3) (PINT_unmasked m)) 0); [contradiction|reflexivity].
Qed.

Lemma ExecutionLoop_PINT_not_taken m :
  get_w (Host.X 3) (PINT_unmasked m) = 0 ->
  ExecutionLoop_PINT m =
    set_x (Host.X 2) (get_x Host.TPIDR_EL1 (PINT_unmasked m)) (PINT_unmasked m).
Proof.
  intros H. unfold ExecutionLoop_PINT. cbv zeta. rewrite H. reflexivity.
Qed.

(** The interrupt block when the mask lets the highest pending level
    through. *)
Lemma ExecutionLoop_PINT_accepts m :
  let sr := guest_SR m in
  let pint := u32 (regs m (Host.X 1)) in
  let L := highest_pending pint in
  let F := frame_stack m in
  let m' := ExecutionLoop_PINT m in
  pint < 256 ->
  unmasked (IPM sr) L = true ->
  regs m' (Host.REG_A 7) = u64 (F + -8) /\
  mem_ldrh (F + -8) m' = u16 sr /\
  mem_ldr_w (F + -6) m' = u32 (regs m Host.REG_PC) /\
  mem_ldrh (F + -2) m' = (24 + L) * 4 /\
  regs m' Host.TPIDR_EL0 = interrupt_SR sr L /\
  regs m' Host.REG_PC = mem_ldr_w (u32 (ctx m M68KState.VBR) + (24 + L) * 4) m' /\
  ctx m' = <[M68KState.PINT := pint - 2 ^ L]>
             (if Z.testbit sr SRB_S then ctx m
              else <[M68KState.USP := u32 (regs m (Host.REG_A 7))]> (ctx m)) /\
  heap m' = heap m /\
  (forall a, (forall k, -8 <= k < 0 -> a <> u64 (F + k)) -> mem m' a = mem m a) /\
  forall r, r <> Host.X 1 -> r <> Host.X 2 -> r <> Host.X 3 -> r <> Host.X 4 ->
            r <> Host.X 5 -> r <> Host.REG_A 7 -> r <> Host.REG_PC ->
            r <> Host.TPIDR_EL0 -> regs m' r = regs m r.
Proof.
  intros sr pint L F m' Hp U. subst m'.
  assert (Rp : 0 <= pint < 256) by (pose proof (u32_range (regs m (Host.X 1))); fold pint in H; lia).
  pose proof (highest_pending_range pint Rp) as RL. fold L in RL.
  pose proof (PINT_check_ok (IPM sr) pint (IPM_range sr) Rp) as K.
  unfold PINT_check in K. fold L in K. rewrite U in K.
  apply andb_true_iff in K as [K K3]. apply andb_true_iff in K as [K1 K2].
  apply negb_true_iff, Z.eqb_neq in K1. apply Z.eqb_eq in K2, K3.
  remember (bic_w pint (PINT_mask (IPM sr))) as w3 eqn:Ew3.
  destruct (PINT_unmasked_spec m) as (A3 & A2 & Ac & Am & Ah & Ar).
  fold sr pint in A3. rewrite <- Ew3 in A3.
  rewrite ExecutionLoop_PINT_taken
    by (unfold get_w; rewrite A3, Ew3, u32_bic_w, <- Ew3; exact K1).
  cbv zeta.
  remember (PINT_unmasked m) as mA eqn:EA. clear EA.
  destruct (enter_supervisor_spec mA) as (B7 & Bc & Bm & Bh & Br).
  rewrite A2, u32_u64 in B7, Bc. fold (guest_SR m) in B7, Bc. fold sr in B7, Bc.
  rewrite Ar in B7, Bc by discriminate. rewrite Ac in B7, Bc.
  assert (B3 : regs (enter_supervisor mA) (Host.X 3) = w3)
    by (rewrite Br by discriminate; exact A3).
  assert (B2 : regs (enter_supervisor mA) (Host.X 2) = u64 (regs m Host.TPIDR_EL0)).
  { rewrite Br by discriminate. exact A2. }
  assert (B1 : regs (enter_supervisor mA) (Host.X 1) = regs m (Host.X 1)).
  { rewrite Br by discriminate. now rewrite Ar by discriminate. }
  assert (Bp : regs (enter_supervisor mA) Host.REG_PC = regs m Host.REG_PC).
  { rewrite Br by discriminate. now rewrite Ar by discriminate. }
  assert (Bo : forall r, r <> Host.X 2 -> r <> Host.X 3 -> r <> Host.X 4 ->
                         r <> Host.REG_A 7 ->
                         regs (enter_supervisor mA) r = regs m r).
  { intros r N2 N3 N4 N7. rewrite Br, Ar by assumption. reflexivity. }
  rewrite Am in Bm. rewrite Ah in Bh.
  clear A3 A2 Ac Am Ah Ar Br.
  remember (enter_supervisor mA) as mB eqn:EB. clear EB mA.
  destruct (PINT_accept_spec mB) as (C3 & C5 & Cc & Cm & Ch & Cr).
  rewrite B3 in C3, C5, Cc. rewrite B2, u32_u64 in C5. rewrite B1 in Cc.
  fold (guest_SR m) in C5. fold sr in C5. fold pint in Cc.
  rewrite Ew3, u32_bic_w, <- Ew3 in C3, C5, Cc.
  rewrite K2 in C3, C5, Cc. rewrite K3 in Cc.
  assert (C7 : regs (PINT_accept mB) (Host.REG_A 7) = F)
    by (rewrite Cr by discriminate; exact B7).
  assert (C2 : regs (PINT_accept mB) (Host.X 2) = u64 (regs m Host.TPIDR_EL0))
    by (rewrite Cr by discriminate; exact B2).
  assert (Cp : regs (PINT_accept mB) Host.REG_PC = regs m Host.REG_PC)
    by (rewrite Cr by discriminate; exact Bp).
  assert (Co : forall r, r <> Host.X 1 -> r <> Host.X 2 -> r <> Host.X 3 ->
                         r <> Host.X 4 -> r <> Host.X 5 -> r <> Host.REG_A 7 ->
                         regs (PINT_accept mB) r = regs m r).
  { intros r N1 N2 N3 N4 N5 N7. rewrite Cr, Bo by assumption. reflexivity. }
  assert (Cv : ctx (PINT_accept mB) M68KState.VBR = ctx m M68KState.VBR).
  { rewrite Cc, fn_lookup_insert_ne by discriminate. rewrite Bc.
    destruct (Z.testbit sr SRB_S); [reflexivity|].
    now rewrite fn_lookup_insert_ne by discriminate. }
  rewrite Bc in Cc. rewrite Bm in Cm. rewrite Bh in Ch.
  clear B7 Bc Bm Bh B3 B2 B1 Bp Bo Cr.
  remember (PINT_accept mB) as mC eqn:EC. clear EC mB.
  unfold get_w. rewrite !C3, !(u32_small L) by lia.
  destruct (exception_frame_regs L mC) as (D7 & Ds & Dp & Dc & Dh & Dr).
  destruct (exception_frame_pushed L mC) as (P1 & P2 & P3 & P4).
  rewrite vector_offset in Dp by exact RL.
  rewrite C7 in D7, P1, P2, P3, P4.
  rewrite C2, u16_u64 in P1. rewrite Cp in P2.
  assert (Ev : u16 (u32 (Z.shiftl L 2) + 0x60) = (24 + L) * 4).
  { rewrite <- u16_u32, vector_offset by exact RL. unfold u16. apply Z.mod_small. lia. }
  rewrite Ev in P3.
  rewrite C5, u32_idemp in Ds. fold (interrupt_SR sr L) in Ds.
  rewrite Cv in Dp. rewrite Cc in Dc. rewrite Cm in P4. rewrite Ch in Dh.
  assert (Do : forall r, r <> Host.X 1 -> r <> Host.X 2 -> r <> Host.X 3 ->
                         r <> Host.X 4 -> r <> Host.X 5 -> r <> Host.REG_A 7 ->
                         r <> Host.REG_PC -> r <> Host.TPIDR_EL0 ->
                         regs (exception_frame L mC) r = regs m r).
  { intros r N1 N2 N3 N4 N5 N7 Np Ns. rewrite Dr, Co by assumption. reflexivity. }
  clear C3 C5 Cc Cm Ch C7 C2 Cp Co Cv Dr.
  remember (exception_frame L mC) as mD eqn:ED. clear ED mC.
  rewrite ?mem_ldrh_set_x, ?mem_ldr_w_set_x, ?regs_set_x, ?mem_set_x, ?ctx_set_x, ?heap_set_x.
  rewrite !fn_lookup_insert_ne by discriminate.
  split; [exact D7|]. split; [rewrite P1; unfold sr, guest_SR; symmetry; apply u16_u32|].
  split; [exact P2|]. split; [exact P3|]. split; [exact Ds|].
  split; [exact Dp|].
  split; [exact Dc|]. split; [exact Dh|].
  split; [exact P4|].
  intros r N1 N2 N3 N4 N5 N7 Np Ns.
  rewrite regs_set_x, fn_lookup_insert_ne by congruence. apply Do; assumption.
Qed.
(** The interrupt block when the mask hides every pending level: only the
    scratch registers [x2], [x3] and [x4] are written. *)
Lemma ExecutionLoop_PINT_masked m :
  let sr := guest_SR m in
  let pint := u32 (regs m (Host.X 1)) in
  let m' := ExecutionLoop_PINT m in
  pint < 256 ->
  unmasked (IPM sr) (highest_pending pint) = false ->
  ctx m' = ctx m /\ mem m' = mem m /\ heap m' = heap m /\
  forall r, r <> Host.X 2 -> r <> Host.X 3 -> r <> Host.X 4 -> regs m' r = regs m r.
Proof.
  intros sr pint m' Hp U. subst m'.
  assert (Rp : 0 <= pint < 256) by (pose proof (u32_range (regs m (Host.X 1))); fold pint in H; lia).
  pose proof (PINT_check_ok (IPM sr) pint (IPM_range sr) Rp) as K.
  unfold PINT_check in K. rewrite U in K. apply Z.eqb_eq in K.
  destruct (PINT_unmasked_spec m) as (A3 & A2 & Ac & Am & Ah & Ar).
  fold sr pint in A3. rewrite K in A3.
  rewrite ExecutionLoop_PINT_not_taken by (unfold get_w; rewrite A3; reflexivity).
  remember (PINT_unmasked m) as mA eqn:EA. clear EA.
  rewrite ?regs_set_x, ?mem_set_x, ?ctx_set_x, ?heap_set_x.
  split; [exact Ac|]. split; [exact Am|]. split; [exact Ah|].
  intros r N2 N3 N4. rewrite regs_set_x, fn_lookup_insert_ne by congruence.
  apply Ar; assumption.
Qed.
Lemma u32_interrupt_SR sr L : u32 (interrupt_SR sr L) = interrupt_SR sr L.
Proof.
  apply u32_small. unfold interrupt_SR.
  apply lor_lt_pow2; [lia|apply bic_w_range|lia].
Qed.

(** Label [1:] without PISTORM and with a guest PC that is not zero: with
    PINT in [w1], on to the interrupt block when PINT is not zero. *)
Lemma ExecutionLoop_head_PINT cfg env m :
  PISTORM cfg = false ->
  u32 (regs m Host.REG_PC) <> 0 ->
  let m1 := set_x (Host.X 0) (get_x Host.TPIDRRO_EL0 m) m in
  let m2 := set_x (Host.X 2) (get_x Host.TPIDR_EL1 m1) m1 in
  let m3 := set_w (Host.X 1) (ctx m2 M68KState.PINT) m2 in
  ExecutionLoop_head cfg env m =
    ([], Dispatch (if u32 (ctx m M68KState.PINT) =? 0 then m3 else ExecutionLoop_PINT m3)) /\
  regs m3 (Host.X 1) = u32 (ctx m M68KState.PINT) /\
  ctx m3 = ctx m /\ mem m3 = mem m /\ heap m3 = heap m /\
  forall r, r <> Host.X 0 -> r <> Host.X 1 -> r <> Host.X 2 -> regs m3 r = regs m r.
Proof.
  intros HP Hpc. cbv zeta. unfold ExecutionLoop_head. rewrite HP.
  destruct m as [rg cx me he].
  cbv beta iota zeta delta [get_w get_x set_x set_w regs ctx mem heap negb andb].
  reg_lookups. rewrite ?u32_idemp.
  cbn [regs] in Hpc.
  destruct (Z.eqb_spec (u32 (rg Host.REG_PC)) 0) as [|_]; [contradiction|].
  split; [destruct (u32 (cx M68KState.PINT) =? 0); reflexivity|].
  repeat split.
  intros r N0 N1 N2. now rewrite !fn_lookup_insert_ne by congruence.
Qed.
Lemma rev_w_range x : 0 <= rev_w x < 2 ^ 32.
Proof.
  unfold rev_w.
  pose proof (land_mask_range x 8 ltac:(lia)) as A.
  pose proof (land_mask_range (Z.shiftr x 8) 8 ltac:(lia)) as B.
  pose proof (land_mask_range (Z.shiftr x 16) 8 ltac:(lia)) as C.
  pose proof (land_mask_range (Z.shiftr x 24) 8 ltac:(lia)) as D.
  change (2 ^ 8 - 1) with 0xff in *. lia.
Qed.

Lemma IPL_of_status_range status : 0 <= IPL_of_status status < 8.
Proof.
  unfold IPL_of_status, ubfx_w. change (Z.ones 3) with (2 ^ 3 - 1).
  apply land_mask_range. lia.
Qed.

(** The status register is read once, between the five writes that select
    it and the write that releases the bus; its level is left in [w1], SR in
    [x2] and the mask in [w3]. *)
Lemma IPL_read_spec gpio status m :
  (forall mm, gpio (4 * 13) mm = status) ->
  let r := IPL_read gpio m in
  fst r = IPL_accesses /\
  regs (snd r) (Host.X 1) = IPL_of_status status /\
  regs (snd r) (Host.X 2) = u64 (regs m Host.TPIDR_EL0) /\
  regs (snd r) (Host.X 3) = IPM (guest_SR m) /\
  ctx (snd r) = ctx m /\ mem (snd r) = mem m /\ heap (snd r) = heap m /\
  forall r', r' <> Host.X 1 -> r' <> Host.X 2 -> r' <> Host.X 3 ->
             regs (snd r) r' = regs m r'.
Proof.
  intros Hg. cbv zeta.
  destruct m as [rg cx me he].
  cbv beta iota zeta delta
    [IPL_read fst snd get_w get_x set_x set_w regs ctx mem heap].
  rewrite !Hg. reg_lookups.
  split; [reflexivity|].
  split.
  { unfold IPL_of_status. rewrite ?u32_idemp.
    rewrite (u32_small (rev_w _)) by apply rev_w_range.
    apply u32_small. pose proof (IPL_of_status_range status) as R.
    unfold IPL_of_status in R. lia. }
  split; [reflexivity|].
  split.
  { unfold guest_SR. cbn [regs]. rewrite ?u32_u64, ?u32_idemp, ubfx_w_IPM. apply u32_IPM. }
  split; [reflexivity|]. split; [reflexivity|]. split; [reflexivity|].
  intros r N1 N2 N3. now rewrite !fn_lookup_insert_ne by congruence.
Qed.

Lemma IPL_accept_spec m :
  let m' := IPL_accept m in
  regs m' (Host.X 5) =
    u32 (bfi_w (u32 (regs m (Host.X 2))) (u32 (regs m (Host.X 1))) SRB_IPL 3) /\
  ctx m' = ctx m /\ mem m' = mem m /\ heap m' = heap m /\
  forall r, r <> Host.X 5 -> regs m' r = regs m r.
Proof.
  cbv zeta. split; [|split; [|split; [|split]]];
    destruct m as [rg cx me he]; expose_loop; reg_lookups; try reflexivity.
  - now rewrite ?u32_idemp.
  - intros r N5. now rewrite !fn_lookup_insert_ne by congruence.
Qed.

Lemma sext32_small x : 0 <= x < 2 ^ 31 -> sext32 x = x.
Proof.
  intros R. unfold sext32. rewrite u32_small by lia. cbv zeta.
  destruct (Z.ltb_spec x (2 ^ 31)); lia.
Qed.

(** The test before label [91:] is [unmasked]. *)
Lemma IPL_test ipm L :
  0 <= ipm < 8 -> 0 <= L < 8 ->
  (u32 L =? 7) || (sext32 (u32 ipm) <? sext32 (u32 L)) = unmasked ipm L.
Proof.
  intros Ri RL. rewrite !u32_small by lia. rewrite !sext32_small by lia.
  unfold unmasked. apply orb_comm.
Qed.

(** The interrupt block of the PISTORM build when the mask lets the level
    of the status register through. *)
Lemma ExecutionLoop_IPL_accepts gpio status m :
  (forall mm, gpio (4 * 13) mm = status) ->
  let sr := guest_SR m in
  let L := IPL_of_status status in
  let F := frame_stack m in
  let m' := snd (ExecutionLoop_IPL gpio m) in
  unmasked (IPM sr) L = true ->
  fst (ExecutionLoop_IPL gpio m) = IPL_accesses /\
  regs m' (Host.REG_A 7) = u64 (F + -8) /\
  mem_ldrh (F + -8) m' = u16 sr /\
  mem_ldr_w (F + -6) m' = u32 (regs m Host.REG_PC) /\
  mem_ldrh (F + -2) m' = (24 + L) * 4 /\
  regs m' Host.TPIDR_EL0 = interrupt_SR sr L /\
  regs m' Host.REG_PC = mem_ldr_w (u32 (ctx m M68KState.VBR) + (24 + L) * 4) m' /\
  ctx m' = (if Z.testbit sr SRB_S then ctx m
            else <[M68KState.USP := u32 (regs m (Host.REG_A 7))]> (ctx m)) /\
  heap m' = heap m /\
  (forall a, (forall k, -8 <= k < 0 -> a <> u64 (F + k)) -> mem m' a = mem m a) /\
  forall r, r <> Host.X 1 -> r <> Host.X 2 -> r <> Host.X 3 -> r <> Host.X 5 ->
            r <> Host.REG_A 7 -> r <> Host.REG_PC -> r <> Host.TPIDR_EL0 ->
            regs m' r = regs m r.
Proof.
  intros Hg sr L F m' U. subst m'.
  pose proof (IPL_of_status_range status) as RL. fold L in RL.
  destruct (IPL_read_spec gpio status m Hg) as (At & A1 & A2 & A3 & Ac & Am & Ah & Ar).
  fold L in A1. fold sr in A3.
  unfold ExecutionLoop_IPL.
  destruct (IPL_read gpio m) as [tr mA]. cbn [fst snd] in At, A1, A2, A3, Ac, Am, Ah, Ar.
  assert (Ec : (get_w (Host.X 1) mA =? 7)
               || (sext32 (get_w (Host.X 3) mA) <? sext32 (get_w (Host.X 1) mA)) = true).
  { unfold get_w. rewrite A1, A3, (IPL_test _ _ (IPM_range sr) RL). exact U. }
  rewrite Ec. cbn [fst snd]. split; [exact At|]. clear At tr Ec.
  destruct (enter_supervisor_spec mA) as (B7 & Bc & Bm & Bh & Br).
  rewrite A2, u32_u64 in B7, Bc. fold (guest_SR m) in B7, Bc. fold sr in B7, Bc.
  rewrite Ar in B7, Bc by discriminate. rewrite Ac in B7, Bc.
  assert (B2 : regs (enter_supervisor mA) (Host.X 2) = u64 (regs m Host.TPIDR_EL0)).
  { rewrite Br by discriminate. exact A2. }
  assert (B1 : regs (enter_supervisor mA) (Host.X 1) = L).
  { rewrite Br by discriminate. exact A1. }
  assert (Bp : regs (enter_supervisor mA) Host.REG_PC = regs m Host.REG_PC).
  { rewrite Br by discriminate. now rewrite Ar by discriminate. }
  assert (Bo : forall r, r <> Host.X 1 -> r <> Host.X 2 -> r <> Host.X 3 ->
                         r <> Host.REG_A 7 ->
                         regs (enter_supervisor mA) r = regs m r).
  { intros r N1 N2 N3 N7. rewrite Br, Ar by assumption. reflexivity. }
  rewrite Am in Bm. rewrite Ah in Bh.
  clear A1 A2 A3 Ac Am Ah Ar Br.
  remember (enter_supervisor mA) as mB eqn:EB. clear EB mA.
  destruct (IPL_accept_spec mB) as (C5 & Cc & Cm & Ch & Cr).
  rewrite B2, u32_u64, B1, (u32_small L) in C5 by lia.
  fold (guest_SR m) in C5. fold sr in C5.
  assert (C7 : regs (IPL_accept mB) (Host.REG_A 7) = F)
    by (rewrite Cr by discriminate; exact B7).
  assert (C2 : regs (IPL_accept mB) (Host.X 2) = u64 (regs m Host.TPIDR_EL0))
    by (rewrite Cr by discriminate; exact B2).
  assert (C1 : regs (IPL_accept mB) (Host.X 1) = L)
    by (rewrite Cr by discriminate; exact B1).
  assert (Cp : regs (IPL_accept mB) Host.REG_PC = regs m Host.REG_PC)
    by (rewrite Cr by discriminate; exact Bp).
  assert (Co : forall r, r <> Host.X 1 -> r <> Host.X 2 -> r <> Host.X 3 ->
                         r <> Host.X 5 -> r <> Host.REG_A 7 ->
                         regs (IPL_accept mB) r = regs m r).
  { intros r N1 N2 N3 N5 N7. rewrite Cr, Bo by assumption. reflexivity. }
  rewrite Bc in Cc. rewrite Bm in Cm. rewrite Bh in Ch.
  assert (Cv : ctx (IPL_accept mB) M68KState.VBR = ctx m M68KState.VBR).
  { rewrite Cc. destruct (Z.testbit sr SRB_S); [reflexivity|].
    now rewrite fn_lookup_insert_ne by discriminate. }
  clear B7 Bc Bm Bh B2 B1 Bp Bo Cr.
  remember (IPL_accept mB) as mC eqn:EC. clear EC mB.
  unfold get_w. rewrite !C1, !(u32_small L) by lia.
  destruct (exception_frame_regs L mC) as (D7 & Ds & Dp & Dc & Dh & Dr).
  destruct (exception_frame_pushed L mC) as (P1 & P2 & P3 & P4).
  rewrite vector_offset in Dp by exact RL.
  rewrite C7 in D7, P1, P2, P3, P4.
  rewrite C2, u16_u64 in P1. rewrite Cp in P2.
  assert (Ev : u16 (u32 (Z.shiftl L 2) + 0x60) = (24 + L) * 4).
  { rewrite <- u16_u32, vector_offset by exact RL. unfold u16. apply Z.mod_small. lia. }
  rewrite Ev in P3.
  rewrite C5, u32_idemp in Ds. fold (interrupt_SR sr L) in Ds.
  rewrite Cv in Dp. rewrite Cc in Dc. rewrite Cm in P4. rewrite Ch in Dh.
  assert (Do : forall r, r <> Host.X 1 -> r <> Host.X 2 -> r <> Host.X 3 ->
                         r <> Host.X 5 -> r <> Host.REG_A 7 ->
                         r <> Host.REG_PC -> r <> Host.TPIDR_EL0 ->
                         regs (exception_frame L mC) r = regs m r).
  { intros r N1 N2 N3 N5 N7 Np Ns. rewrite Dr, Co by assumption. reflexivity. }
  clear C5 Cc Cm Ch C7 C2 C1 Cp Co Cv Dr.
  remember (exception_frame L mC) as mD eqn:ED. clear ED mC.
  rewrite ?mem_ldrh_set_x, ?mem_ldr_w_set_x, ?regs_set_x, ?mem_set_x, ?ctx_set_x, ?heap_set_x.
  rewrite !fn_lookup_insert_ne by discriminate.
  split; [exact D7|]. split; [rewrite P1; unfold sr, guest_SR; symmetry; apply u16_u32|].
  split; [exact P2|]. split; [exact P3|]. split; [exact Ds|].
  split; [exact Dp|].
  split; [exact Dc|]. split; [exact Dh|].
  split; [exact P4|].
  intros r N1 N2 N3 N5 N7 Np Ns.
  rewrite regs_set_x, fn_lookup_insert_ne by congruence. apply Do; assumption.
Qed.

(** The same block when the mask hides the level: only the scratch
    registers [x1], [x2] and [x3] are written. *)
Lemma ExecutionLoop_IPL_masked gpio status m :
  (forall mm, gpio (4 * 13) mm = status) ->
  let m' := snd (ExecutionLoop_IPL gpio m) in
  unmasked (IPM (guest_SR m)) (IPL_of_status status) = false ->
  fst (ExecutionLoop_IPL gpio m) = IPL_accesses /\
  ctx m' = ctx m /\ mem m' = mem m /\ heap m' = heap m /\
  forall r, r <> Host.X 1 -> r <> Host.X 2 -> r <> Host.X 3 -> regs m' r = regs m r.
Proof.
  intros Hg m' U. subst m'.
  pose proof (IPL_of_status_range status) as RL.
  destruct (IPL_read_spec gpio status m Hg) as (At & A1 & A2 & A3 & Ac & Am & Ah & Ar).
  unfold ExecutionLoop_IPL.
  destruct (IPL_read gpio m) as [tr mA]. cbn [fst snd] in At, A1, A2, A3, Ac, Am, Ah, Ar.
  assert (Ec : (get_w (Host.X 1) mA =? 7)
               || (sext32 (get_w (Host.X 3) mA) <? sext32 (get_w (Host.X 1) mA)) = false).
  { unfold get_w. rewrite A1, A3, (IPL_test _ _ (IPM_range (guest_SR m)) RL). exact U. }
  rewrite Ec. cbn [fst snd]. split; [exact At|].
  rewrite ?regs_set_x, ?mem_set_x, ?ctx_set_x, ?heap_set_x.
  split; [exact Ac|]. split; [exact Am|]. split; [exact Ah|].
  intros r N1 N2 N3. rewrite regs_set_x, fn_lookup_insert_ne by congruence.
  apply Ar; assumption.
Qed.

(** Label [1:] with PISTORM: IPL0 in [w1], on to the interrupt block when it
    is zero.  The guest PC is not looked at. *)
Lemma ExecutionLoop_head_IPL cfg env m :
  PISTORM cfg = true ->
  let m1 := set_x (Host.X 0) (get_x Host.TPIDRRO_EL0 m) m in
  let m2 := set_x (Host.X 2) (get_x Host.TPIDR_EL1 m1) m1 in
  let m3 := set_w (Host.X 1) (ctx m2 M68KState.IPL0) m2 in
  ExecutionLoop_head cfg env m =
    (if u32 (ctx m M68KState.IPL0) =? 0
     then (fst (ExecutionLoop_IPL (gpio_ldr env) m3),
           Dispatch (snd (ExecutionLoop_IPL (gpio_ldr env) m3)))
     else ([], Dispatch m3)) /\
  ctx m3 = ctx m /\ mem m3 = mem m /\ heap m3 = heap m /\
  forall r, r <> Host.X 0 -> r <> Host.X 1 -> r <> Host.X 2 -> regs m3 r = regs m r.
Proof.
  intros HP. cbv zeta. unfold ExecutionLoop_head. rewrite HP.
  cbn [negb andb]. cbv zeta.
  split.
  - unfold get_w at 1. rewrite regs_set_w, fn_lookup_insert, u32_idemp.
    rewrite !ctx_set_x.
    destruct (u32 (ctx m M68KState.IPL0) =? 0); [|reflexivity].
    destruct (ExecutionLoop_IPL _ _) as [tr mm]. reflexivity.
  - split; [reflexivity|]. split; [reflexivity|]. split; [reflexivity|].
    intros r N0 N1 N2.
    rewrite regs_set_w, fn_lookup_insert_ne by congruence.
    rewrite regs_set_x, fn_lookup_insert_ne by congruence.
    rewrite regs_set_x, fn_lookup_insert_ne by congruence. reflexivity.
Qed.

(** C2, amended.  The interrupt check at the top of an iteration, in the
    two builds.

    Without PISTORM, when the guest PC is not zero (a zero PC leaves the
    loop before PINT is looked at) and the PINT word keeps to its eight
    bits: if the mask lets a pending level through, that is a level above
    IPM or level 7, the highest pending level [L] is such a level and is
    accepted: A7 goes to USP when the guest leaves user mode, the frame is
    pushed on the stack [frame_stack] names (vector word [(24 + L) * 4], old
    PC, old SR), the new SR has T1 and T0 clear, S set and IPM = [L], the
    new PC is read at [VBR + (24 + L) * 4], and the bit of [L] is cleared in
    PINT.  If the mask hides every pending level, the context, the memories
    and every register but the scratch registers [x0] .. [x4] stay as they
    are.

    With PISTORM, PINT is neither read nor written and the guest PC is not
    tested.  When the IPL0 field is not zero nothing happens beyond the
    scratch registers [x0] .. [x2].  When it is zero the status register of
    the bus interface is read once (the accesses [IPL_accesses]) and the
    level [L] is the field [IPL_of_status] cuts out of it: a level that is 7
    or above IPM is accepted with the same frame, stack switch, SR and PC as
    above; any other level leaves the context, the memories and every
    register but [x0] .. [x3] as they are. *)
Theorem ExecutionLoop_head_interrupt cfg env m :
  let sr := guest_SR m in
  let pint := u32 (ctx m M68KState.PINT) in
  let F := frame_stack m in
  (PISTORM cfg = false ->
   u32 (regs m Host.REG_PC) <> 0 ->
   pint < 256 ->
   let L := highest_pending pint in
   exists m',
     ExecutionLoop_head cfg env m = ([], Dispatch m') /\
     ((exists l, Z.testbit pint l = true /\ unmasked (IPM sr) l = true) ->
      Z.testbit pint L = true /\ unmasked (IPM sr) L = true /\
      ctx m' M68KState.USP =
        (if Z.testbit sr SRB_S then ctx m M68KState.USP
         else u32 (regs m (Host.REG_A 7))) /\
      regs m' (Host.REG_A 7) = u64 (F - 8) /\
      mem_ldrh (F - 2) m' = (24 + L) * 4 /\
      mem_ldr_w (F - 6) m' = u32 (regs m Host.REG_PC) /\
      mem_ldrh (F - 8) m' = u16 sr /\
      Z.testbit (guest_SR m') 15 = false /\
      Z.testbit (guest_SR m') 14 = false /\
      Z.testbit (guest_SR m') SRB_S = true /\
      IPM (guest_SR m') = L /\
      regs m' Host.REG_PC = mem_ldr_w (u32 (ctx m M68KState.VBR) + (24 + L) * 4) m' /\
      ctx m' M68KState.PINT = pint - 2 ^ L) /\
     ((forall l, Z.testbit pint l = true -> unmasked (IPM sr) l = false) ->
      ctx m' = ctx m /\ mem m' = mem m /\ heap m' = heap m /\
      forall r, r <> Host.X 0 -> r <> Host.X 1 -> r <> Host.X 2 -> r <> Host.X 3 ->
                r <> Host.X 4 -> regs m' r = regs m r)) /\
  (PISTORM cfg = true ->
   forall status : Z,
   (forall mm, gpio_ldr env (4 * 13) mm = status) ->
   let L := IPL_of_status status in
   exists tr m',
     ExecutionLoop_head cfg env m = (tr, Dispatch m') /\
     ctx m' M68KState.PINT = ctx m M68KState.PINT /\
     (u32 (ctx m M68KState.IPL0) <> 0 ->
      tr = [] /\
      ctx m' = ctx m /\ mem m' = mem m /\ heap m' = heap m /\
      forall r, r <> Host.X 0 -> r <> Host.X 1 -> r <> Host.X 2 ->
                regs m' r = regs m r) /\
     (u32 (ctx m M68KState.IPL0) = 0 ->
      tr = IPL_accesses /\
      (unmasked (IPM sr) L = true ->
       ctx m' M68KState.USP =
         (if Z.testbit sr SRB_S then ctx m M68KState.USP
          else u32 (regs m (Host.REG_A 7))) /\
       regs m' (Host.REG_A 7) = u64 (F - 8) /\
       mem_ldrh (F - 2) m' = (24 + L) * 4 /\
       mem_ldr_w (F - 6) m' = u32 (regs m Host.REG_PC) /\
       mem_ldrh (F - 8) m' = u16 sr /\
       Z.testbit (guest_SR m') 15 = false /\
       Z.testbit (guest_SR m') 14 = false /\
       Z.testbit (guest_SR m') SRB_S = true /\
       IPM (guest_SR m') = L /\
       regs m' Host.REG_PC =
         mem_ldr_w (u32 (ctx m M68KState.VBR) + (24 + L) * 4) m') /\
      (unmasked (IPM sr) L = false ->
       ctx m' = ctx m /\ mem m' = mem m /\ heap m' = heap m /\
       forall r, r <> Host.X 0 -> r <> Host.X 1 -> r <> Host.X 2 -> r <> Host.X 3 ->
                 regs m' r = regs m r))).
Proof.
  intros sr pint F. split.
  { (* the build without PISTORM *)
  intros HP Hpc Hp L.
  assert (Rp : 0 <= pint < 256) by (pose proof (u32_range (ctx m M68KState.PINT)); fold pint in H; lia).
  destruct (ExecutionLoop_head_PINT cfg env m HP Hpc) as (E & H1 & Hc & Hm & Hh & Hr).
  cbv zeta in E, H1, Hc, Hm, Hh, Hr.
  remember (set_w (Host.X 1)
              (ctx (set_x (Host.X 2)
                      (get_x Host.TPIDR_EL1 (set_x (Host.X 0) (get_x Host.TPIDRRO_EL0 m) m))
                      (set_x (Host.X 0) (get_x Host.TPIDRRO_EL0 m) m)) M68KState.PINT)
              (set_x (Host.X 2)
                 (get_x Host.TPIDR_EL1 (set_x (Host.X 0) (get_x Host.TPIDRRO_EL0 m) m))
                 (set_x (Host.X 0) (get_x Host.TPIDRRO_EL0 m) m))) as m3 eqn:E3.
  clear E3. fold pint in E, H1.
  assert (Hsr : guest_SR m3 = sr).
  { unfold guest_SR. rewrite Hr by discriminate. reflexivity. }
  assert (HF : frame_stack m3 = F).
  { unfold frame_stack. rewrite Hsr, Hc, Hr by discriminate. reflexivity. }
  assert (H1' : u32 (regs m3 (Host.X 1)) = pint).
  { rewrite H1. unfold pint. apply u32_idemp. }
  rewrite E. eexists. split; [reflexivity|].
  destruct (Z.eqb_spec pint 0) as [P0|P0].
  - (* nothing is pending *)
    split.
    + intros (l & T & _). rewrite P0, Z.bits_0 in T. discriminate.
    + intros _. split; [exact Hc|]. split; [exact Hm|]. split; [exact Hh|].
      intros r N0 N1 N2 _ _. apply Hr; assumption.
  - assert (TL : Z.testbit pint L = true) by (apply Z.bit_log2; lia).
    split.
    + intros Hex. apply unmasked_highest in Hex; [|lia]. fold L in Hex.
      destruct (ExecutionLoop_PINT_accepts m3) as
        (A7 & Q1 & Q2 & Q3 & As & Ap & Ac & Ah & Am & Ar).
      { rewrite H1'. exact Hp. }
      { rewrite H1', Hsr. exact Hex. }
      rewrite H1', Hsr, HF in *. fold L in Q3, As, Ap, Ac.
      rewrite Hr in Q2, Ac by discriminate. rewrite Hc in Ap, Ac.
      remember (ExecutionLoop_PINT m3) as m' eqn:E'. clear E' E.
      pose proof (highest_pending_range pint Rp) as RL. fold L in RL.
      destruct (interrupt_SR_bits sr L RL) as (I1 & I15 & I14 & I13 & _).
      replace (F - 8) with (F + -8) by lia.
      replace (F - 6) with (F + -6) by lia.
      replace (F - 2) with (F + -2) by lia.
      unfold guest_SR at 1 2 3 4. rewrite As, u32_interrupt_SR.
      split; [exact TL|]. split; [exact Hex|].
      split.
      { rewrite Ac, fn_lookup_insert_ne by discriminate.
        destruct (Z.testbit sr SRB_S); [reflexivity|]. apply fn_lookup_insert. }
      split; [exact A7|]. split; [exact Q3|]. split; [exact Q2|]. split; [exact Q1|].
      split; [exact I15|]. split; [exact I14|]. split; [exact I13|].
      split; [exact I1|]. split; [exact Ap|].
      rewrite Ac. apply fn_lookup_insert.
    + intros Hall. specialize (Hall L TL).
      destruct (ExecutionLoop_PINT_masked m3) as (Mc & Mm & Mh & Mr).
      { rewrite H1'. exact Hp. }
      { rewrite H1', Hsr. exact Hall. }
      remember (ExecutionLoop_PINT m3) as m' eqn:E'. clear E' E.
      split; [rewrite Mc; exact Hc|]. split; [rewrite Mm; exact Hm|].
      split; [rewrite Mh; exact Hh|].
      intros r N0 N1 N2 N3 N4. rewrite Mr, Hr by assumption. reflexivity. }
  (* the build with PISTORM *)
  intros HP status Hg L.
  destruct (ExecutionLoop_head_IPL cfg env m HP) as (E & Hc & Hm & Hh & Hr).
  cbv zeta in E, Hc, Hm, Hh, Hr.
  remember (set_w (Host.X 1)
              (ctx (set_x (Host.X 2)
                      (get_x Host.TPIDR_EL1 (set_x (Host.X 0) (get_x Host.TPIDRRO_EL0 m) m))
                      (set_x (Host.X 0) (get_x Host.TPIDRRO_EL0 m) m)) M68KState.IPL0)
              (set_x (Host.X 2)
                 (get_x Host.TPIDR_EL1 (set_x (Host.X 0) (get_x Host.TPIDRRO_EL0 m) m))
                 (set_x (Host.X 0) (get_x Host.TPIDRRO_EL0 m) m))) as m3 eqn:E3.
  clear E3.
  assert (Hsr : guest_SR m3 = sr).
  { unfold guest_SR. rewrite Hr by discriminate. reflexivity. }
  assert (HF : frame_stack m3 = F).
  { unfold frame_stack. rewrite Hsr, Hc, Hr by discriminate. reflexivity. }
  rewrite E. clear E.
  pose proof (IPL_of_status_range status) as RL. fold L in RL.
  destruct (Z.eqb_spec (u32 (ctx m M68KState.IPL0)) 0) as [Z0|Z0].
  - (* the status register is asked *)
    destruct (unmasked (IPM sr) L) eqn:U.
    + destruct (ExecutionLoop_IPL_accepts (gpio_ldr env) status m3 Hg) as
        (At & A7 & Q1 & Q2 & Q3 & As & Ap & Ac & Ah & Am & Ar).
      { rewrite Hsr. exact U. }
      rewrite Hsr, HF in *. fold L in Q3, As, Ap.
      rewrite Hr in Q2, Ac by discriminate. rewrite Hc in Ap, Ac.
      rewrite At.
      remember (snd (ExecutionLoop_IPL (gpio_ldr env) m3)) as m' eqn:E'. clear E' At.
      destruct (interrupt_SR_bits sr L RL) as (I1 & I15 & I14 & I13 & _).
      exists IPL_accesses, m'. split; [reflexivity|].
      split.
      { rewrite Ac. destruct (Z.testbit sr SRB_S); [reflexivity|].
        now rewrite fn_lookup_insert_ne by discriminate. }
      split; [intros N; contradiction|].
      intros _. split; [reflexivity|].
      split; [|intros Q; discriminate Q].
      intros _.
      replace (F - 8) with (F + -8) by lia.
      replace (F - 6) with (F + -6) by lia.
      replace (F - 2) with (F + -2) by lia.
      unfold guest_SR at 1 2 3 4. rewrite As, u32_interrupt_SR.
      split.
      { rewrite Ac. destruct (Z.testbit sr SRB_S); [reflexivity|]. apply fn_lookup_insert. }
      split; [exact A7|]. split; [exact Q3|]. split; [exact Q2|]. split; [exact Q1|].
      split; [exact I15|]. split; [exact I14|]. split; [exact I13|].
      split; [exact I1|exact Ap].
    + destruct (ExecutionLoop_IPL_masked (gpio_ldr env) status m3 Hg) as
        (At & Mc & Mm & Mh & Mr).
      { rewrite Hsr. exact U. }
      rewrite At.
      remember (snd (ExecutionLoop_IPL (gpio_ldr env) m3)) as m' eqn:E'. clear E' At.
      exists IPL_accesses, m'. split; [reflexivity|].
      split; [rewrite Mc, Hc; reflexivity|].
      split; [intros N; contradiction|].
      intros _. split; [reflexivity|].
      split; [intros Q; discriminate Q|].
      intros _.
      split; [rewrite Mc; exact Hc|]. split; [rewrite Mm; exact Hm|].
      split; [rewrite Mh; exact Hh|].
      intros r N0 N1 N2 N3. rewrite Mr, Hr by assumption. reflexivity.
  - (* IPL0 is set: on to the dispatch *)
    exists [], m3. split; [reflexivity|].
    split; [rewrite Hc; reflexivity|].
    split; [|intros Q; contradiction].
    intros _. split; [reflexivity|].
    split; [exact Hc|]. split; [exact Hm|]. split; [exact Hh|]. exact Hr.
Qed.

(** A bus interface whose status register reads [0x0000c000], level 6 once
    the bytes are swapped. *)
Lemma ExecutionLoop_head_interrupt_witness :
  (exists m',
     ExecutionLoop_head (mkConfig false false false) idle (pending_5_and_2 0x1000 0) =
       ([], Dispatch m') /\
     IPM (guest_SR m') = 5 /\
     regs m' Host.REG_PC = mem_ldr_w ((24 + 5) * 4) m' /\
     regs m' (Host.REG_A 7) = 0x4000 - 8 /\
     ctx m' M68KState.PINT = 4) /\
  (exists tr m',
     ExecutionLoop_head (mkConfig true false false)
       (mkEnvironment 0x100 0 0 0 (fun m => m) (fun m => m) (fun _ m => m)
          (fun _ _ => 0x0000c000))
       (pending_5_and_2 0x1000 0) = (tr, Dispatch m') /\
     tr = IPL_accesses /\
     IPM (guest_SR m') = 6 /\
     regs m' Host.REG_PC = mem_ldr_w ((24 + 6) * 4) m' /\
     regs m' (Host.REG_A 7) = 0x4000 - 8 /\
     ctx m' M68KState.PINT = 0x24).
Proof.
  split.
  - destruct (ExecutionLoop_head_interrupt (mkConfig false false false) idle
                (pending_5_and_2 0x1000 0)) as [A _].
    destruct A as (m' & E & Acc & _).
    + reflexivity.
    + vm_compute. discriminate.
    + vm_compute. reflexivity.
    + exists m'. split; [exact E|].
      destruct Acc as (_ & _ & _ & A7 & _ & _ & _ & _ & _ & _ & I & P & C).
      * exists 5. split; reflexivity.
      * split; [exact I|]. split; [exact P|]. split; [exact A7|exact C].
  - destruct (ExecutionLoop_head_interrupt (mkConfig true false false)
                (mkEnvironment 0x100 0 0 0 (fun m => m) (fun m => m) (fun _ m => m)
                   (fun _ _ => 0x0000c000))
                (pending_5_and_2 0x1000 0)) as [_ B].
    destruct (B eq_refl 0x0000c000 (fun _ => eq_refl)) as (tr & m' & E & Cp & _ & Z0).
    destruct (Z0 eq_refl) as (Et & Acc & _).
    destruct (Acc eq_refl) as (_ & A7 & _ & _ & _ & _ & _ & _ & I & P).
    exists tr, m'. split; [exact E|]. split; [exact Et|].
    split; [exact I|]. split; [exact P|]. split; [exact A7|exact Cp].
Defined.

(** C2, the spec's words against the code.  With level 5 pending and
    IPM = 3: a build without PISTORM leaves the loop when the guest PC is
    zero, and a build with PISTORM whose IPL0 field is not zero goes on to
    dispatch; neither takes the interrupt: SR, A7, PINT and memory are as
    before. *)
Lemma ExecutionLoop_head_pending_not_taken :
  (exists l, Z.testbit 0x24 l = true /\ unmasked (IPM 0x0300) l = true) /\
  (exists m',
     ExecutionLoop_head (mkConfig false false false) idle (pending_5_and_2 0 0) =
       ([], Leave m') /\
     guest_SR m' = 0x0300 /\ regs m' (Host.REG_A 7) = 0x8000 /\
     ctx m' M68KState.PINT = 0x24 /\ mem m' = mem (pending_5_and_2 0 0)) /\
  (exists m',
     ExecutionLoop_head (mkConfig true false false) idle (pending_5_and_2 0x1000 1) =
       ([], Dispatch m') /\
     guest_SR m' = 0x0300 /\ regs m' (Host.REG_A 7) = 0x8000 /\
     regs m' Host.REG_PC = 0x1000 /\
     ctx m' M68KState.PINT = 0x24 /\ mem m' = mem (pending_5_and_2 0x1000 1)).
Proof.
  split; [exists 5; split; reflexivity|].
  split; eexists; (split; [vm_compute; reflexivity|]); repeat split.
Qed.

#[local] Ltac regs_simpl :=
  repeat first [ rewrite regs_set_x | rewrite regs_set_w
               | rewrite fn_lookup_insert
               | rewrite fn_lookup_insert_ne by congruence ].

Lemma ctx_ldp_x r1 r2 a m : ctx (ldp_x r1 r2 a m) = ctx m.
Proof. reflexivity. Qed.
Lemma mem_ldp_x r1 r2 a m : mem (ldp_x r1 r2 a m) = mem m.
Proof. reflexivity. Qed.
Lemma heap_ldp_x r1 r2 a m : heap (ldp_x r1 r2 a m) = heap m.
Proof. reflexivity. Qed.
Lemma regs_ldp_x_ne r1 r2 a m r :
  r <> r1 -> r <> r2 -> regs (ldp_x r1 r2 a m) r = regs m r.
Proof.
  intros N1 N2. unfold ldp_x, ldr_x. regs_simpl. reflexivity.
Qed.
Lemma regs_ldp_x_1 r1 r2 a m :
  r1 <> r2 -> regs (ldp_x r1 r2 a m) r1 = u64 (heap m (u64 a)).
Proof.
  intros N. unfold ldp_x, ldr_x. regs_simpl. reflexivity.
Qed.
Lemma regs_ldp_x_2 r1 r2 a m :
  regs (ldp_x r1 r2 a m) r2 = u64 (heap m (u64 (a + 8))).
Proof. unfold ldp_x, ldr_x. regs_simpl. reflexivity. Qed.

(** Label [4:]: the context is the one [M68K_SaveContext] writes, the
    memories are untouched, [sp] is back where it was at the entry. *)
Lemma ExecutionLoop_epilogue_spec m :
  let m1 := set_x (Host.X 0) (get_x Host.TPIDRRO_EL0 m) m in
  let m' := ExecutionLoop_epilogue m in
  ctx m' = ctx (M68K_SaveContext (get_x (Host.X 0) m1) m1) /\
  mem m' = mem m /\ heap m' = heap m /\
  regs m' SP = u64 (regs m SP + 128).
Proof.
  cbv zeta. unfold ExecutionLoop_epilogue, ExecutionLoop_pop_frame. cbv zeta.
  remember (set_x (Host.X 0) (get_x Host.TPIDRRO_EL0 m) m) as m1 eqn:E1.
  destruct (SaveContext_memory (get_x (Host.X 0) m1) m1) as [Sm Sh].
  pose proof (SaveContext_regs (get_x (Host.X 0) m1) m1 SP ltac:(discriminate)) as Ss.
  remember (M68K_SaveContext (get_x (Host.X 0) m1) m1) as mS eqn:ES. clear ES.
  rewrite ?ctx_set_x, ?mem_set_x, ?heap_set_x, ?ctx_ldp_x, ?mem_ldp_x, ?heap_ldp_x.
  rewrite Sm, Sh. subst m1. rewrite ?mem_set_x, ?heap_set_x.
  repeat split.
  rewrite regs_set_x, fn_lookup_insert. unfold get_x.
  rewrite !regs_ldp_x_ne by discriminate. rewrite Ss.
  rewrite regs_set_x, fn_lookup_insert_ne by discriminate. reflexivity.
Qed.


(** ** Further properties of the context-transfer routines *)

Lemma active_bank_cases sr :
  active_bank sr = M68KState.USP \/ active_bank sr = M68KState.ISP \/
  active_bank sr = M68KState.MSP.
Proof.
  rewrite active_bank_bits.
  destruct (Z.testbit sr 13); [destruct (Z.testbit sr 12)|]; auto.
Qed.

(** X1. Loading the context and saving it at once writes every field back
    as it was read, cut to the width of its register (32 bits for the data
    and address registers and the PC, 16 for SR, 64 for the FPU registers),
    with one exception: A[7] receives the stack pointer of the bank SR
    selects, not the value it held.  That bank is written with its own
    value; the other two banks and CACR, VBR, PINT and IPL0 are not
    written. *)
Theorem LoadContext_then_SaveContext :
  forall (p : Z) (m : machine),
    let m' := M68K_SaveContext p (M68K_LoadContext p m) in
    let bank := active_bank (ctx m M68KState.SR) in
    (forall i, 0 <= i < 8 ->
       ctx m' (M68KState.D i) = u32 (ctx m (M68KState.D i)) /\
       ctx m' (M68KState.FP i) = u64 (ctx m (M68KState.FP i))) /\
    (forall i, 0 <= i < 7 -> ctx m' (M68KState.A i) = u32 (ctx m (M68KState.A i))) /\
    ctx m' (M68KState.A 7) = u32 (ctx m bank) /\
    ctx m' M68KState.PC = u32 (ctx m M68KState.PC) /\
    ctx m' M68KState.SR = u16 (ctx m M68KState.SR) /\
    ctx m' bank = u32 (ctx m bank) /\
    (forall f, f = M68KState.USP \/ f = M68KState.ISP \/ f = M68KState.MSP \/
               f = M68KState.CACR \/ f = M68KState.VBR \/ f = M68KState.PINT \/
               f = M68KState.IPL0 ->
               f <> bank -> ctx m' f = ctx m f).
Proof.
  intros p m m' bank. subst m'.
  destruct (LoadContext_ctx p m) as (Lc & _ & _).
  pose proof (LoadContext_SR p m) as Ls.
  pose proof (LoadContext_A7 p m) as L7. fold bank in L7.
  pose proof (LoadContext_PC p m) as Lp.
  pose proof (fun i H => LoadContext_D p m i H) as Ld.
  pose proof (fun i H => LoadContext_A p m i H) as La.
  pose proof (fun i H => LoadContext_FP p m i H) as Lf.
  remember (M68K_LoadContext p m) as l eqn:El. clear El.
  assert (Hd : forall i, 0 <= i < 8 ->
            ctx (M68K_SaveContext p l) (M68KState.D i) = u32 (ctx m (M68KState.D i)) /\
            ctx (M68K_SaveContext p l) (M68KState.FP i) = u64 (ctx m (M68KState.FP i))).
  { intros i Hi. rewrite SaveContext_D, SaveContext_FP, Ld, Lf by assumption.
    now rewrite u32_idemp, u64_idemp. }
  assert (Ha : forall i, 0 <= i < 7 ->
            ctx (M68K_SaveContext p l) (M68KState.A i) = u32 (ctx m (M68KState.A i))).
  { intros i Hi. rewrite SaveContext_A, La by lia. apply u32_idemp. }
  assert (H7 : ctx (M68K_SaveContext p l) (M68KState.A 7) = u32 (ctx m bank)).
  { rewrite SaveContext_A, L7 by lia. apply u32_idemp. }
  assert (Hp : ctx (M68K_SaveContext p l) M68KState.PC = u32 (ctx m M68KState.PC)).
  { rewrite SaveContext_PC, Lp. apply u32_idemp. }
  assert (Hs : ctx (M68K_SaveContext p l) M68KState.SR = u16 (ctx m M68KState.SR)).
  { rewrite SaveContext_SR, Ls. apply u16_idemp. }
  destruct (SaveContext_banks p l) as (Bu & Bi & Bm). cbv zeta in Bu, Bi, Bm.
  rewrite Ls, u16_idemp, active_bank_u16 in Bu, Bi, Bm. fold bank in Bu, Bi, Bm.
  rewrite L7, u32_idemp, Lc in Bu, Bi, Bm.
  clear Ls L7 Lp Ld La Lf.
  pose proof (fun f H => SaveContext_other p l f H) as So. rewrite Lc in So.
  split; [|split; [|split; [|split; [|split; [|split]]]]]; try assumption.
  - destruct (active_bank_cases (ctx m M68KState.SR)) as [E | [E | E]];
      fold bank in E; rewrite E in *.
    + rewrite Bu. now destruct (decide (M68KState.USP = M68KState.USP)).
    + rewrite Bi. now destruct (decide (M68KState.ISP = M68KState.ISP)).
    + rewrite Bm. now destruct (decide (M68KState.MSP = M68KState.MSP)).
  - intros f Hf Nf.
    destruct Hf as [-> | [-> | [-> | Hf]]].
    + rewrite Bu. destruct (decide (bank = M68KState.USP)); congruence.
    + rewrite Bi. destruct (decide (bank = M68KState.ISP)); congruence.
    + rewrite Bm. destruct (decide (bank = M68KState.MSP)); congruence.
    + apply So. exact Hf.
Qed.

(** ** Further properties of [FindUnit] *)

Lemma bucket_slot_stride ICache h pc :
  bucket_slot ICache h pc = u64 (h (u64 ICache) + 24 * unit_hash pc).
Proof.
  unfold bucket_slot. pose proof (unit_hash_range pc) as R.
  rewrite !Z.shiftl_mul_pow2 by lia.
  rewrite (u64_small (unit_hash pc + unit_hash pc * 2 ^ 1)) by lia.
  f_equal. lia.
Qed.

(** X3. The buckets are 24 bytes apart: the walk starts at the cell
    [table + 24 * hash], where [table] is the pointer stored at [ICache] and
    [hash], below 65536, is the XOR of the two halves of the guest PC; two
    guest addresses whose halves are exchanged share a bucket.  Finding the
    bucket writes no memory and leaves the guest PC alone. *)
Theorem FindUnit_bucket_stride :
  forall (ICache : Z) (m : machine),
    let pc := regs m Host.REG_PC in
    let m' := FindUnit_bucket ICache m in
    regs m' (Host.X 0) = u64 (heap m (u64 (heap m (u64 ICache) + 24 * unit_hash pc))) /\
    0 <= unit_hash pc < 2 ^ 16 /\
    (forall hi lo, 0 <= hi < 2 ^ 16 -> 0 <= lo < 2 ^ 16 ->
       unit_hash (hi * 2 ^ 16 + lo) = unit_hash (lo * 2 ^ 16 + hi)) /\
    heap m' = heap m /\ regs m' Host.REG_PC = pc.
Proof.
  intros ICache m pc m'.
  destruct (FindUnit_bucket_spec ICache m) as (B0 & Bp & Bh & _ & _).
  fold m' pc in B0, Bp, Bh. rewrite bucket_slot_stride in B0.
  split; [exact B0|]. split; [apply unit_hash_range|].
  split; [|split; [exact Bh|exact Bp]].
  intros hi lo Hhi Hlo. rewrite !unit_hash_halves.
  rewrite !(u32_small (_ * 2 ^ 16 + _)) by lia.
  replace ((hi * 2 ^ 16 + lo) mod 2 ^ 16) with lo
    by (rewrite Z.add_comm, Z.mod_add by lia; symmetry; apply Z.mod_small; lia).
  replace ((hi * 2 ^ 16 + lo) / 2 ^ 16) with hi
    by (rewrite Z.add_comm, Z.div_add by lia; rewrite Z.div_small by lia; lia).
  replace ((lo * 2 ^ 16 + hi) mod 2 ^ 16) with hi
    by (rewrite Z.add_comm, Z.mod_add by lia; symmetry; apply Z.mod_small; lia).
  replace ((lo * 2 ^ 16 + hi) / 2 ^ 16) with lo
    by (rewrite Z.add_comm, Z.div_add by lia; rewrite Z.div_small by lia; lia).
  apply Z.lxor_comm.
Qed.

Lemma FindUnit_walk_inv fuel :
  forall m hit m',
    FindUnit_walk fuel m = Some (hit, m') ->
    heap m' = heap m /\ ctx m' = ctx m /\ mem m' = mem m /\
    forall r, r <> Host.X 0 -> r <> Host.X 4 -> r <> Host.X 5 -> regs m' r = regs m r.
Proof.
  induction fuel as [|fuel IH]; intros m hit m' H; [discriminate|].
  rewrite FindUnit_walk_S in H. cbv zeta in H.
  destruct (_ =? 0).
  - injection H as <- <-. repeat split.
    intros r N0 N4 N5. regs_simpl. reflexivity.
  - destruct (_ =? _).
    + injection H as <- <-. repeat split.
      intros r N0 N4 N5. regs_simpl. reflexivity.
    + apply IH in H. destruct H as (Hh & Hc & Hm & Hr).
      split; [exact Hh|]. split; [exact Hc|]. split; [exact Hm|].
      intros r N0 N4 N5. rewrite Hr by assumption. regs_simpl. reflexivity.
Qed.

Lemma FindUnit_promote_regs m r :
  r <> Host.X 4 -> r <> Host.X 5 -> r <> Host.X 6 -> r <> Host.X 7 ->
  regs (FindUnit_promote m) r = regs m r.
Proof.
  intros N4 N5 N6 N7. destruct m as [rg cx me he].
  cbv beta iota zeta delta [FindUnit_promote ldr_x str_x set_x get_x regs ctx mem heap].
  destruct (_ =? 0); cbv beta iota zeta delta [regs];
    now rewrite !fn_lookup_insert_ne by congruence.
Qed.

(** The registers [FindUnit] works in. *)
Lemma FindUnit_keeps_registers :
  forall (ICache : Z) (fuel : nat) (m m' : machine),
    FindUnit ICache fuel m = Some m' ->
    ctx m' = ctx m /\ mem m' = mem m /\
    forall r, r <> Host.X 0 -> r <> Host.X 4 -> r <> Host.X 5 -> r <> Host.X 6 ->
              r <> Host.X 7 -> regs m' r = regs m r.
Proof.
  intros ICache fuel m m' H. unfold FindUnit in H.
  destruct (FindUnit_bucket_spec ICache m) as (_ & _ & _ & Bc & Bm).
  assert (Br : forall r, r <> Host.X 0 -> r <> Host.X 4 ->
                         regs (FindUnit_bucket ICache m) r = regs m r).
  { intros r N0 N4. unfold FindUnit_bucket, ldr_x. cbv zeta. regs_simpl. reflexivity. }
  destruct (FindUnit_walk fuel (FindUnit_bucket ICache m)) as [[hit mw]|] eqn:W;
    [|discriminate].
  apply FindUnit_walk_inv in W. destruct W as (_ & Wc & Wm & Wr).
  destruct hit; injection H as <-.
  - destruct (FindUnit_promote_frame mw) as (_ & _ & Pc & Pm & _).
    split; [congruence|]. split; [congruence|].
    intros r N0 N4 N5 N6 N7.
    rewrite FindUnit_promote_regs, Wr, Br by assumption. reflexivity.
  - split; [rewrite ctx_set_x; congruence|]. split; [rewrite mem_set_x; congruence|].
    intros r N0 N4 N5 N6 N7. regs_simpl. rewrite Wr, Br by assumption. reflexivity.
Qed.

(** X4. [FindUnit] works in the scratch registers [x0] and [x4] .. [x7]
    only: whatever the cache memory holds (a well-formed bucket or not),
    when the lookup returns, the context, the memory of the guest and every
    other host register, the guest PC among them, are as before. *)
Theorem FindUnit_scratch_only :
  forall (ICache : Z) (fuel : nat) (m m' : machine),
    FindUnit ICache fuel m = Some m' ->
    ctx m' = ctx m /\ mem m' = mem m /\
    forall r, r <> Host.X 0 -> r <> Host.X 4 -> r <> Host.X 5 -> r <> Host.X 6 ->
              r <> Host.X 7 -> regs m' r = regs m r.
Proof.
  intros ICache fuel m m' H.
  destruct (FindUnit_keeps_registers ICache fuel m m' H) as (Hc & Hm & Hr).
  split; [exact Hc|]. split; [exact Hm|exact Hr].
Qed.

Lemma FindUnit_scratch_only_witness :
  exists m',
    FindUnit 0x100 3 (machine_of 0x00010002 two_units) = Some m' /\
    regs m' Host.REG_PC = 0x00010002.
Proof.
  destruct (FindUnit 0x100 3 (machine_of 0x00010002 two_units)) as [m'|] eqn:E;
    [|vm_compute in E; discriminate].
  exists m'. split; [reflexivity|].
  apply (proj2 (proj2 (FindUnit_scratch_only _ _ _ _ E))); discriminate.
Defined.
(** ** Further properties of [ExecutionLoop] *)

(** Label [1:] leaves the loop only in a build without PISTORM and with a
    guest PC of zero. *)
Lemma ExecutionLoop_head_Leave cfg env m tr m1 :
  ExecutionLoop_head cfg env m = (tr, Leave m1) ->
  PISTORM cfg = false /\ u32 (regs m Host.REG_PC) = 0 /\ tr = [] /\
  m1 = set_x (Host.X 2) (get_x Host.TPIDR_EL1 (set_x (Host.X 0) (get_x Host.TPIDRRO_EL0 m) m))
         (set_x (Host.X 0) (get_x Host.TPIDRRO_EL0 m) m).
Proof.
  unfold ExecutionLoop_head. cbv zeta.
  set (m2 := set_x (Host.X 2) (get_x Host.TPIDR_EL1 (set_x (Host.X 0) (get_x Host.TPIDRRO_EL0 m) m))
               (set_x (Host.X 0) (get_x Host.TPIDRRO_EL0 m) m)).
  assert (Ep : get_w Host.REG_PC m2 = u32 (regs m Host.REG_PC)).
  { unfold get_w, m2. regs_simpl. reflexivity. }
  rewrite Ep. clearbody m2.
  destruct (PISTORM cfg) eqn:HP; cbn [negb andb].
  - destruct (_ =? 0).
    + destruct (ExecutionLoop_IPL _ _) as [t' m']. discriminate.
    + discriminate.
  - destruct (Z.eqb_spec (u32 (regs m Host.REG_PC)) 0) as [E0|N0].
    + intros H. injection H as <- <-. repeat split. exact E0.
    + destruct (negb _); discriminate.
Qed.

(** X5. In a build with PISTORM the loop has no way out: whatever the
    environment and however many iterations are allowed, it has not
    returned. *)
Theorem ExecutionLoop_PISTORM_never_returns :
  forall (cfg : config) (env : environment) (fuel : nat) (m : machine),
    PISTORM cfg = true ->
    ExecutionLoop_from cfg env fuel m = None /\
    ExecutionLoop cfg env fuel m = None.
Proof.
  intros cfg env fuel m HP.
  assert (A : forall fuel m, ExecutionLoop_from cfg env fuel m = None).
  { clear fuel m. induction fuel as [|fuel IH]; intros m; [reflexivity|].
    cbn [ExecutionLoop_from].
    destruct (ExecutionLoop_head cfg env m) as [tr [m1|m1]] eqn:E.
    - apply ExecutionLoop_head_Leave in E. destruct E as (E & _). congruence.
    - destruct (ExecutionLoop_dispatch cfg env (S fuel) m1) as [[tr1 m2]|]; [|reflexivity].
      now rewrite IH. }
  split; [apply A|]. unfold ExecutionLoop. apply A.
Qed.

Lemma ExecutionLoop_PISTORM_never_returns_witness :
  ExecutionLoop_from (mkConfig true false false) idle 8 (pending_5_and_2 0x1000 1) = None.
Proof.
  apply (ExecutionLoop_PISTORM_never_returns (mkConfig true false false) idle 8
           (pending_5_and_2 0x1000 1)).
  reflexivity.
Defined.

(** X6. In a build without PISTORM the loop returns only through the test
    of the guest PC: whenever it returns, however many iterations it has
    made, the context it has saved holds a PC of zero. *)
Theorem ExecutionLoop_returns_with_PC_zero :
  forall (cfg : config) (env : environment) (fuel : nat) (m m' : machine)
         (tr : list step),
    ExecutionLoop_from cfg env fuel m = Some (tr, m') ->
    PISTORM cfg = false /\ ctx m' M68KState.PC = 0.
Proof.
  intros cfg env fuel. induction fuel as [|fuel IH]; intros m m' tr H; [discriminate|].
  cbn [ExecutionLoop_from] in H.
  destruct (ExecutionLoop_head cfg env m) as [t0 [m1|m1]] eqn:E.
  - apply ExecutionLoop_head_Leave in E. destruct E as (HP & Hpc & _ & Em).
    assert (Em' : m' = ExecutionLoop_epilogue m1) by congruence.
    split; [exact HP|]. rewrite Em'.
    destruct (ExecutionLoop_epilogue_spec m1) as (Ec & _).
    rewrite Ec, SaveContext_PC. rewrite Em. regs_simpl. exact Hpc.
  - destruct (ExecutionLoop_dispatch cfg env (S fuel) m1) as [[tr1 m2]|]; [|discriminate].
    destruct (ExecutionLoop_from cfg env fuel m2) as [[tr2 m3]|] eqn:E2; [|discriminate].
    injection H as <- <-. exact (IH _ _ _ E2).
Qed.

Lemma ExecutionLoop_returns_with_PC_zero_witness :
  PISTORM (mkConfig false false false) = false /\
  ctx (ExecutionLoop_epilogue
         (set_x (Host.X 2)
            (get_x Host.TPIDR_EL1
               (set_x (Host.X 0) (get_x Host.TPIDRRO_EL0 (pending_5_and_2 0 0))
                  (pending_5_and_2 0 0)))
            (set_x (Host.X 0) (get_x Host.TPIDRRO_EL0 (pending_5_and_2 0 0))
               (pending_5_and_2 0 0)))) M68KState.PC = 0.
Proof.
  apply (ExecutionLoop_returns_with_PC_zero (mkConfig false false false) idle 1
           (pending_5_and_2 0 0) _ []).
  reflexivity.
Defined.







(** X9. What taking an interrupt leaves alone, in a build without
    PISTORM.  When the highest pending level [L] gets through the mask, the
    guest memory is written in the eight bytes of the frame only; of SR only
    the mask, S, T1 and T0 change (M and the condition codes are kept); of
    the context only USP and PINT can change; the host memory is untouched;
    and the host registers written are the scratch registers [x0] .. [x5],
    A7, the guest PC and SR. *)
Theorem ExecutionLoop_interrupt_frame :
  forall (cfg : config) (env : environment) (m : machine),
    let sr := guest_SR m in
    let pint := u32 (ctx m M68KState.PINT) in
    let L := highest_pending pint in
    let F := frame_stack m in
    PISTORM cfg = false ->
    u32 (regs m Host.REG_PC) <> 0 ->
    0 < pint < 256 ->
    unmasked (IPM sr) L = true ->
    exists m',
      ExecutionLoop_head cfg env m = ([], Dispatch m') /\
      (forall i, 0 <= i < 32 -> i <> 8 -> i <> 9 -> i <> 10 -> i <> 13 -> i <> 14 ->
                 i <> 15 -> Z.testbit (guest_SR m') i = Z.testbit sr i) /\
      (forall a, (forall k, -8 <= k < 0 -> a <> u64 (F + k)) -> mem m' a = mem m a) /\
      (forall f, f <> M68KState.USP -> f <> M68KState.PINT -> ctx m' f = ctx m f) /\
      heap m' = heap m /\
      (forall r, r <> Host.X 0 -> r <> Host.X 1 -> r <> Host.X 2 -> r <> Host.X 3 ->
                 r <> Host.X 4 -> r <> Host.X 5 -> r <> Host.REG_A 7 ->
                 r <> Host.REG_PC -> r <> Host.TPIDR_EL0 -> regs m' r = regs m r).
Proof.
  intros cfg env m sr pint L F HP Hpc Hp U.
  destruct (ExecutionLoop_head_PINT cfg env m HP Hpc) as (E & H1 & Hc & Hm & Hh & Hr).
  cbv zeta in E, H1, Hc, Hm, Hh, Hr.
  remember (set_w (Host.X 1)
              (ctx (set_x (Host.X 2)
                      (get_x Host.TPIDR_EL1 (set_x (Host.X 0) (get_x Host.TPIDRRO_EL0 m) m))
                      (set_x (Host.X 0) (get_x Host.TPIDRRO_EL0 m) m)) M68KState.PINT)
              (set_x (Host.X 2)
                 (get_x Host.TPIDR_EL1 (set_x (Host.X 0) (get_x Host.TPIDRRO_EL0 m) m))
                 (set_x (Host.X 0) (get_x Host.TPIDRRO_EL0 m) m))) as m3 eqn:E3.
  clear E3. fold pint in E, H1.
  assert (Hsr : guest_SR m3 = sr).
  { unfold guest_SR. rewrite Hr by discriminate. reflexivity. }
  assert (HF : frame_stack m3 = F).
  { unfold frame_stack. rewrite Hsr, Hc, Hr by discriminate. reflexivity. }
  assert (H1' : u32 (regs m3 (Host.X 1)) = pint).
  { rewrite H1. unfold pint. apply u32_idemp. }
  rewrite E. destruct (Z.eqb_spec pint 0) as [|_]; [lia|].
  eexists. split; [reflexivity|].
  destruct (ExecutionLoop_PINT_accepts m3) as
    (A7 & Q1 & Q2 & Q3 & As & Ap & Ac & Ah & Am & Ar).
  { rewrite H1'. lia. }
  { rewrite H1', Hsr. exact U. }
  rewrite H1', Hsr, HF in *. fold L in As, Ac.
  remember (ExecutionLoop_PINT m3) as m' eqn:E'. clear E' E.
  pose proof (highest_pending_range pint ltac:(lia)) as RL. fold L in RL.
  destruct (interrupt_SR_bits sr L RL) as (_ & _ & _ & _ & Ib).
  split.
  { unfold guest_SR at 1. rewrite As, u32_interrupt_SR. exact Ib. }
  split.
  { intros a Ha. rewrite Am by exact Ha. now rewrite Hm. }
  split.
  { intros f Nu Np. rewrite Ac, fn_lookup_insert_ne by congruence.
    destruct (Z.testbit sr SRB_S); [now rewrite Hc|].
    rewrite fn_lookup_insert_ne by congruence. now rewrite Hc. }
  split; [rewrite Ah; exact Hh|].
  intros r N0 N1 N2 N3 N4 N5 N7 Np Ns. rewrite Ar, Hr by assumption. reflexivity.
Qed.

Lemma ExecutionLoop_interrupt_frame_witness :
  exists m',
    ExecutionLoop_head (mkConfig false false false) idle (pending_5_and_2 0x1000 0) =
      ([], Dispatch m') /\
    Z.testbit (guest_SR m') SRB_M = false /\
    ctx m' M68KState.ISP = 0x4000 /\
    regs m' (Host.X 12) = 0.
Proof.
  destruct (ExecutionLoop_interrupt_frame (mkConfig false false false) idle
              (pending_5_and_2 0x1000 0))
    as (m' & E & Hb & _ & Hc & _ & Hr).
  - reflexivity.
  - vm_compute. discriminate.
  - vm_compute. split; reflexivity.
  - reflexivity.
  - exists m'. split; [exact E|].
    split; [rewrite Hb by (unfold SRB_M; lia); reflexivity|].
    split; [rewrite Hc by discriminate; reflexivity|].
    rewrite Hr by discriminate. reflexivity.
Defined.
(** ** Further properties of the line-5 emitter *)

(** The copy of SR the host flags are loaded from: only the four lowest
    bits of SR survive the shift, and the [bic] clears the two lower ones of
    these. *)
Lemma LoadARMCC_copy x :
  exists k, 0 <= k < 16 /\ u32 (Z.shiftl x 28) = k * 2 ^ 28 /\
            Z.testbit x 3 = Z.testbit k 3 /\ Z.testbit x 2 = Z.testbit k 2.
Proof.
  exists (x mod 2 ^ 4). split; [apply Z.mod_pos_bound; lia|]. split.
  - unfold u32. rewrite Z.shiftl_mul_pow2 by lia.
    change (2 ^ 32) with (2 ^ 4 * 2 ^ 28). now rewrite Z.mul_mod_distr_r by lia.
  - now rewrite !Z.mod_pow2_bits_low by lia.
Qed.

Lemma EMIT_LoadARMCC_code pc sr cc tmp script guest :
  code (snd (@EMIT_LoadARMCC _ (scripted pc sr) cc (start guest 0 (tmp :: script)))) =
    [ Insn (mov_reg_shift tmp cc 28); Insn (bic_immed tmp tmp 0x203);
      Insn (tst_immed tmp 2); Insn (orr_cc_immed ARM_CC_NE tmp tmp 0x201);
      Insn (tst_immed tmp 1); Insn (orr_cc_immed ARM_CC_NE tmp tmp 0x202);
      Insn (msr tmp 8) ].
Proof. reflexivity. Qed.

Lemma LoadARMCC_bits k :
  0 <= k < 16 ->
  let T := u32 (Z.land (k * 2 ^ 28) (u32 (Z.lnot (arm_imm 0x203)))) in
  Z.land T (arm_imm 2) = 0 /\ Z.land T (arm_imm 1) = 0 /\
  Z.testbit T 31 = Z.testbit k 3 /\ Z.testbit T 30 = Z.testbit k 2 /\
  Z.testbit T 29 = false /\ Z.testbit T 28 = false.
Proof.
  intros H.
  assert (C : k = 0 \/ k = 1 \/ k = 2 \/ k = 3 \/ k = 4 \/ k = 5 \/ k = 6 \/ k = 7 \/
              k = 8 \/ k = 9 \/ k = 10 \/ k = 11 \/ k = 12 \/ k = 13 \/ k = 14 \/
              k = 15) by lia.
  repeat (destruct C as [->|C]); try subst k; vm_compute; repeat split.
Qed.

(** The seven instructions of [EMIT_LoadARMCC], run from any state: the
    two [tst] look at the shifted copy, whose low bits are zero, so neither
    [orrne] is executed. *)
Lemma run_LoadARMCC mem16 cc tmp st :
  exists st',
    run 8 mem16
      [ Insn (mov_reg_shift tmp cc 28); Insn (bic_immed tmp tmp 0x203);
        Insn (tst_immed tmp 2); Insn (orr_cc_immed ARM_CC_NE tmp tmp 0x201);
        Insn (tst_immed tmp 1); Insn (orr_cc_immed ARM_CC_NE tmp tmp 0x202);
        Insn (msr tmp 8) ] 0 st = Some st' /\
    flag_N st' = Z.testbit (reg st cc) 3 /\
    flag_Z st' = Z.testbit (reg st cc) 2 /\
    flag_C st' = false /\ flag_V st' = false /\
    forall x, x <> tmp -> reg st' x = reg st x.
Proof.
  destruct (LoadARMCC_copy (reg st cc)) as (k & Hk & Ek & E3 & E2).
  rewrite E3, E2. clear E3 E2.
  destruct (LoadARMCC_bits k Hk) as (B2 & B1 & T31 & T30 & T29 & T28).
  cbv zeta in B2, B1, T31, T30, T29, T28.
  set (T := u32 (Z.land (k * 2 ^ 28) (u32 (Z.lnot (arm_imm 0x203))))) in *.
  set (st1 := set_reg tmp (Z.shiftl (reg st cc) 28) st).
  set (st2 := set_reg tmp (Z.land (reg st1 tmp) (u32 (Z.lnot (arm_imm 0x203)))) st1).
  assert (R2 : reg st2 tmp = T).
  { unfold st2. rewrite reg_set_reg_eq. unfold st1. rewrite reg_set_reg_eq, Ek.
    reflexivity. }
  assert (K2 : forall x, x <> tmp -> reg st2 x = reg st x).
  { intros x Hx. unfold st2, st1. now rewrite !reg_set_reg_ne by exact Hx. }
  set (st3 := set_flags false true (flag_C st2) (flag_V st2) st2).
  exists (set_flags (Z.testbit k 3) (Z.testbit k 2) false false st3).
  split; [|repeat split; exact K2].
  assert (X3 : exec mem16 (tst_immed tmp 2) st2 = Some (st3, None)).
  { cbn [exec]. rewrite R2, B2. reflexivity. }
  assert (X5 : exec mem16 (tst_immed tmp 1) st3 = Some (st3, None)).
  { cbn [exec]. change (reg st3 tmp) with (reg st2 tmp). rewrite R2, B1. reflexivity. }
  assert (X7 : exec mem16 (msr tmp 8) st3 =
               Some (set_flags (Z.testbit k 3) (Z.testbit k 2) false false st3, None)).
  { cbn [exec]. change (reg st3 tmp) with (reg st2 tmp).
    rewrite R2, T31, T30, T29, T28. reflexivity. }
  match goal with |- run _ _ ?l _ _ = _ => set (C := l) end.
  rewrite (run_step _ mem16 C 0 st (mov_reg_shift tmp cc 28) st1 eq_refl eq_refl).
  rewrite (run_step _ mem16 C 1 st1 (bic_immed tmp tmp 0x203) st2 eq_refl eq_refl).
  rewrite (run_step _ mem16 C 2 st2 (tst_immed tmp 2) st3 eq_refl X3).
  rewrite (run_step _ mem16 C 3 st3 (orr_cc_immed ARM_CC_NE tmp tmp 0x201) st3
             eq_refl eq_refl).
  rewrite (run_step _ mem16 C 4 st3 (tst_immed tmp 1) st3 eq_refl X5).
  rewrite (run_step _ mem16 C 5 st3 (orr_cc_immed ARM_CC_NE tmp tmp 0x202) st3
             eq_refl eq_refl).
  rewrite (run_step _ mem16 C 6 st3 (msr tmp 8) _ eq_refl X7).
  apply run_stop. exact I.
Qed.

Lemma cond_holds_flags cc a b :
  flag_N a = flag_N b -> flag_Z a = flag_Z b -> flag_C a = flag_C b ->
  flag_V a = flag_V b -> cond_holds cc a = cond_holds cc b.
Proof. intros HN HZ HC HV. unfold cond_holds. now rewrite HN, HZ, HC, HV. Qed.

(** X10. The host flags [EMIT_LoadARMCC] sets up, whatever register the
    allocator hands out and whatever the state the code is run from: N and
    Z are bits 3 and 2 of the register given (the guest's SR), and C and V
    are always clear.  The two [tst] that should look at the V and C bits of
    SR test the shifted copy, whose low 28 bits are zero.  No register but
    the temporary one is written. *)
Theorem EMIT_LoadARMCC_clears_C_and_V :
  forall (pc sr cc tmp : Z) (script : list Z) (guest mem16 : Z -> Z) (st : arm),
    exists st',
      run 8 mem16
        (code (snd (@EMIT_LoadARMCC _ (scripted pc sr) cc (start guest 0 (tmp :: script)))))
        0 st = Some st' /\
      flag_N st' = Z.testbit (reg st cc) 3 /\
      flag_Z st' = Z.testbit (reg st cc) 2 /\
      flag_C st' = false /\ flag_V st' = false /\
      forall x, x <> tmp -> reg st' x = reg st x.
Proof.
  intros pc sr cc tmp script guest mem16 st.
  rewrite EMIT_LoadARMCC_code. apply run_LoadARMCC.
Qed.

(** X11. What the code emitted for DBcc does, for the conditions other than
    T and F and any choice of host registers by the allocator.  The
    condition is evaluated on host flags in which N and Z are bits 3 and 2
    of SR and C and V are clear.  When it holds, the counter is kept and the
    guest PC goes past the displacement word.  When it does not, the low
    half of the counter is decremented, the high half is kept, and the guest
    PC goes past the displacement word when the new low half is [0xffff],
    else to the address of the displacement word plus the sign-extended
    displacement found there. *)
Theorem EMIT_line5_DBcc_semantics :
  forall (pc sr counter_reg tmp scratch opcode disp : Z) (mem16 : Z -> Z) (st : arm),
    let cc := Z.land (Z.shiftr opcode 8) 0x0f in
    let host := set_flags (Z.testbit (reg st sr) 3) (Z.testbit (reg st sr) 2)
                          false false st in
    let low := u16 (reg st counter_reg - 1) in
    0 <= opcode < 2 ^ 16 ->
    Z.land opcode 0xf0c0 = 0x50c0 ->
    Z.land opcode 0x38 = 0x08 ->
    cc <> M_CC_T -> cc <> M_CC_F ->
    counter_reg <> scratch -> counter_reg <> pc -> scratch <> pc ->
    tmp <> pc -> tmp <> counter_reg ->
    0 <= reg st counter_reg < 2 ^ 32 ->
    exists st',
      run 64 mem16 (line5_code pc sr [counter_reg; tmp; scratch] (words [opcode; disp])) 0 st
        = Some st' /\
      if cond_holds (M68K_ccTo_ARM cc) host
      then reg st' counter_reg = reg st counter_reg /\
           reg st' pc = u32 (reg st pc + 4)
      else reg st' counter_reg = reg st counter_reg / 2 ^ 16 * 2 ^ 16 + low /\
           reg st' pc =
             if low =? 0xffff
             then u32 (reg st pc + 4)
             else u32 (reg st pc + 2 + sext16 (mem16 (u32 (reg st pc + 2)))).
Proof.
  intros pc sr counter_reg tmp scratch opcode disp mem16 st cc host low
         Hop H1 H2 HT HF Ncs Ncp Nsp Ntp Ntc Hc.
  destruct (run_LoadARMCC mem16 sr tmp st) as (st1 & Hpre & FN & FZ & FC & FV & Keep).
  assert (Hh : cond_holds (M68K_ccTo_ARM cc) host = cond_holds (M68K_ccTo_ARM cc) st1).
  { apply cond_holds_flags; [rewrite FN|rewrite FZ|rewrite FC|rewrite FV]; reflexivity. }
  rewrite Hh. clear Hh.
  destruct (cond_holds (M68K_ccTo_ARM cc) st1) eqn:Hcond.
  - (* the condition holds: PC + 4, out through the first branch *)
    rewrite (line5_code_DBcc _ _ _ _ _ _ _ Hop H1 H2 HT HF).
    assert (Hcc : 2 <= cc <= 15).
    { pose proof (land_mask_range (Z.shiftr opcode 8) 4 ltac:(lia)) as R.
      change (2 ^ 4 - 1) with 0x0f in R. fold cc in R. unfold M_CC_T, M_CC_F in *. lia. }
    fold cc. cbv zeta. set (acc := M68K_ccTo_ARM cc) in *.
    set (c1 := [ Insn (mov_reg_shift tmp sr 28); Insn (bic_immed tmp tmp 0x203);
                 Insn (tst_immed tmp 2); Insn (orr_cc_immed ARM_CC_NE tmp tmp 0x201);
                 Insn (tst_immed tmp 1); Insn (orr_cc_immed ARM_CC_NE tmp tmp 0x202);
                 Insn (msr tmp 8) ]) in *.
    set (c2 := [ Insn (add_cc_immed (Z.lxor acc 1) pc pc 2);
                 Insn (add_cc_immed acc pc pc 4); Insn (b_cc acc 8);
                 Insn (mov_reg_shift scratch counter_reg 16);
                 Insn (sub_immed scratch scratch 0x801); Insn (cmn_immed scratch 0x801);
                 Insn (lsr_immed scratch scratch 16); Insn (bfi counter_reg scratch 0 16);
                 Insn (ldrsh_offset pc scratch 0);
                 Insn (add_cc_immed ARM_CC_EQ pc pc 2); Insn (b_cc ARM_CC_EQ 0);
                 Insn (add_reg pc pc scratch 0);
                 PtrTo 9; PtrTo 17; Raw 2; Raw 0xfffffffe ]).
    match goal with
    | |- exists st', run 64 mem16 _ 0 st = _ /\ ?P =>
        change (exists st', run (7 + 57) mem16 (c1 ++ c2) 0 st = Some st' /\ P)
    end.
    rewrite (run_prefix mem16 c1 c2 st1 ltac:(repeat constructor) 7 0 8 st eq_refl Hpre).
    change (length c1) with 7%nat.
    assert (Hneg : cond_holds (Z.lxor acc 1) st1 = false).
    { unfold acc. rewrite cond_holds_negate by exact Hcc. fold acc. now rewrite Hcond. }
    set (st2 := set_reg pc (reg st1 pc + arm_imm 4) st1).
    assert (Hcond2 : cond_holds acc st2 = true) by exact Hcond.
    assert (X7 : exec mem16 (add_cc_immed (Z.lxor acc 1) pc pc 2) st1 = Some (st1, None)).
    { cbn [exec]. now rewrite Hneg. }
    assert (X8 : exec mem16 (add_cc_immed acc pc pc 4) st1 = Some (st2, None)).
    { cbn [exec]. now rewrite Hcond. }
    assert (X9 : exec mem16 (b_cc acc 8) st2 = Some (st2, Some 8)).
    { cbn [exec]. now rewrite Hcond2. }
    rewrite (run_step _ mem16 (c1 ++ c2) 7 st1 _ st1 eq_refl X7).
    rewrite (run_step _ mem16 (c1 ++ c2) 8 st1 _ st2 eq_refl X8).
    rewrite (run_jump _ mem16 (c1 ++ c2) 9 st2 _ st2 8 eq_refl X9 ltac:(lia)).
    rewrite run_stop by exact I.
    exists st2. split; [reflexivity|]. split.
    + unfold st2. rewrite reg_set_reg_ne by exact Ncp. apply Keep. congruence.
    + unfold st2. rewrite reg_set_reg_eq, Keep by congruence. reflexivity.
  - (* the condition does not hold: the counter *)
    apply (EMIT_line5_DBcc_step pc sr counter_reg tmp scratch opcode disp mem16 st st1);
      try assumption.
    rewrite (line5_code_DBcc _ _ _ _ _ _ _ Hop H1 H2 HT HF). exact Hpre.
Qed.

(** DBNE D4 at guest address [0x1000] with Z set in SR: NE is false, the
    counter goes from 3 to 2 and the branch is taken. *)
Lemma EMIT_line5_DBcc_semantics_witness :
  exists st',
    run 64 (halfwords_at 0x1000 [0x56cc; 0xfffe])
      (line5_code 11 10 [4; 5; 6] (words [0x56cc; 0xfffe])) 0
      (arm_with [(4, 0x00010003); (11, 0x1000); (10, 4)]) = Some st' /\
    reg st' 4 = 0x00010002 /\ reg st' 11 = 0x1000.
Proof.
  destruct (EMIT_line5_DBcc_semantics 11 10 4 5 6 0x56cc 0xfffe
              (halfwords_at 0x1000 [0x56cc; 0xfffe])
              (arm_with [(4, 0x00010003); (11, 0x1000); (10, 4)]))
    as (st' & E & R).
  - lia.
  - reflexivity.
  - reflexivity.
  - vm_compute. discriminate.
  - vm_compute. discriminate.
  - discriminate.
  - discriminate.
  - discriminate.
  - discriminate.
  - discriminate.
  - cbn. lia.
  - exists st'. split; [exact E|]. exact R.
Defined.

Lemma DBT_fields opcode :
  Z.land opcode 0xfff8 = 0x50c8 ->
  Z.land opcode 0xf0c0 = 0x50c0 /\ Z.land opcode 0x38 = 0x08 /\
  Z.land (Z.shiftr opcode 8) 0x0f = M_CC_T.
Proof.
  intros H.
  assert (A : Z.land (Z.land opcode 0xfff8) 0xf0c0 = 0x50c0) by now rewrite H.
  assert (B : Z.land (Z.land opcode 0xfff8) 0x38 = 0x08) by now rewrite H.
  assert (C : Z.land (Z.shiftr (Z.land opcode 0xfff8) 8) 0x0f = 0) by now rewrite H.
  rewrite <- Z.land_assoc in A, B. rewrite Z.shiftr_land, <- Z.land_assoc in C.
  change (Z.land 0xfff8 0xf0c0) with 0xf0c0 in A.
  change (Z.land 0xfff8 0x38) with 0x38 in B.
  change (Z.land (Z.shiftr 0xfff8 8) 0x0f) with 0x0f in C.
  auto.
Qed.

Section Line5More.

Context {RA : Type} {SV : Services RA}.

(** X12. Of the line-5 instructions only DBcc is translated.  For every
    other opcode the emitter is handed (Scc, TRAPcc, ADDQ, SUBQ) it steps
    over the opcode word and does nothing else: no word is written to the
    buffer, no service is called, the guest PC is not advanced and no guard
    word is left. *)
Theorem EMIT_line5_only_DBcc :
  forall s : emitter,
    let opcode := u16 (m68k s (m68k_ptr s + 0)) in
    (Z.land opcode 0xf0c0 =? 0x50c0) && (Z.land opcode 0x38 =? 0x08) = false ->
    EMIT_line5 s = (tt, mkEmitter (m68k s) (m68k_ptr s + 1) (code s) (ra s) (trace s)).
Proof.
  intros s opcode H.
  unfold EMIT_line5, bind, fetch16. fold opcode.
  cbn [m68k_advance m68k m68k_ptr code ra trace].
  destruct (Z.land opcode 0xf0c0 =? 0x50c0).
  - cbn [andb] in H. rewrite H.
    destruct (Z.land opcode 0x38 =? 0x38); reflexivity.
  - destruct (Z.land opcode 0xf100 =? 0x5100); [reflexivity|].
    destruct (Z.land opcode 0xf100 =? 0x5000); reflexivity.
Qed.

(** X13. DBT: the counter register is mapped and never used; the one
    instruction emitted adds 4 to the guest PC, and the two words of the
    instruction are stepped over. *)
Theorem EMIT_line5_DBT :
  forall s : emitter,
    let opcode := u16 (m68k s (m68k_ptr s + 0)) in
    Z.land opcode 0xfff8 = 0x50c8 ->
    exists r ws ra',
      serve (RA_MapM68kRegister_ (Z.land opcode 7)) (ra s) = (r, ws, ra') /\
      EMIT_line5 s =
        (tt, mkEmitter (m68k s) (m68k_ptr s + 1 + 1)
               (code s ++ ws ++ [Insn (add_immed REG_PC REG_PC 4)]) ra'
               (trace s ++ [Call (RA_MapM68kRegister_ (Z.land opcode 7)) r ws;
                            Emit (Insn (add_immed REG_PC REG_PC 4))])).
Proof.
  intros s opcode H. destruct (DBT_fields opcode H) as (H1 & H2 & H3).
  unfold EMIT_line5, bind, fetch16. fold opcode.
  cbn [m68k_advance m68k m68k_ptr code ra trace].
  rewrite H1, H2, H3. cbn [Z.eqb Pos.eqb M_CC_T].
  unfold RA_MapM68kRegister, call, emit, m68k_advance.
  cbn [m68k m68k_ptr code ra trace].
  destruct (serve (RA_MapM68kRegister_ (Z.land opcode 7)) (ra s)) as [[r ws] ra'].
  cbn [m68k m68k_ptr code ra trace].
  exists r, ws, ra'. split; [reflexivity|].
  now rewrite <- !app_assoc.
Qed.

End Line5More.

(** ADDQ.L #1,D0 *)
Lemma EMIT_line5_only_DBcc_witness :
  line5_code 11 10 [] (words [0x5280]) = [] /\
  line5_trace 11 10 [] (words [0x5280]) = [].
Proof.
  pose proof (@EMIT_line5_only_DBcc _ (scripted 11 10) (start (words [0x5280]) 0 [])
                eq_refl) as E.
  unfold line5_code, line5_trace. rewrite E. split; reflexivity.
Defined.

(** DBT D0 *)
Lemma EMIT_line5_DBT_witness :
  line5_code 11 10 [4] (words [0x50c8; 0xfffe]) = [ Insn (add_immed 11 11 4) ].
Proof.
  destruct (@EMIT_line5_DBT _ (scripted 11 10) (start (words [0x50c8; 0xfffe]) 0 [4])
              eq_refl) as (r & ws & ra' & Es & E).
  unfold line5_code. rewrite E. cbn [snd code].
  injection Es as _ <- _. reflexivity.
Defined.
(** ** Further properties of [TrimDoubleRange] *)

(** X14. The patterns [TrimDoubleRange] brings into the interval [0, 2) are
    exactly those whose exponent field is below [0x3ff + 52] or whose
    mantissa field is zero: every other pattern (a magnitude of [2^52] or
    more that is not a power of two, and every NaN) comes back outside the
    interval. *)
Theorem TrimDoubleRange_in_range_iff :
  forall a : Z,
    in_range_0_2 (TrimDoubleRange a) <->
    double_exp a < 0x3ff + 52 \/ double_man a = 0.
Proof.
  intros a. split; [|apply TrimDoubleRange_handled_in_range].
  intros H.
  destruct (Z.lt_ge_cases (double_exp a) (0x3ff + 52)) as [|He]; [now left|].
  destruct (Z.eq_dec (double_man a) 0) as [|Hm]; [now right|]. exfalso.
  pose proof (double_exp_range a) as Re. pose proof (double_man_range a) as Rm.
  rewrite (TrimDoubleRange_unhandled a He Hm) in H.
  apply in_range_0_2_fields in H; [|lia].
  rewrite packed_exp in H by lia. lia.
Qed.

(** X15. Trimming twice is trimming once, for every pattern. *)
Theorem TrimDoubleRange_idempotent :
  forall a : Z, TrimDoubleRange (TrimDoubleRange a) = TrimDoubleRange a.
Proof.
  intros a.
  pose proof (double_exp_range a) as Re. pose proof (double_man_range a) as Rm.
  destruct (Z.lt_ge_cases (double_exp a) (0x3ff + 52)) as [Hl|He].
  - destruct (TrimDoubleRange_handled a (or_introl Hl)) as [R E].
    now apply TrimDoubleRange_fixed.
  - destruct (Z.eq_dec (double_man a) 0) as [H0|Hm].
    + destruct (TrimDoubleRange_handled a (or_intror H0)) as [R E].
      now apply TrimDoubleRange_fixed.
    + rewrite (TrimDoubleRange_unhandled a He Hm).
      rewrite TrimDoubleRange_unhandled; rewrite ?packed_exp, ?packed_man by lia;
        try reflexivity; assumption.
Qed.

(** *** The value returned *)

Lemma Qpower_2_nonzero : ~ (2 == 0)%Q.
Proof. intros H. vm_compute in H. discriminate H. Qed.

Lemma Qpower_2_int n : 0 <= n -> (Qpower 2 n == inject_Z (2 ^ n))%Q.
Proof. intros H. rewrite Zpower_Qpower by exact H. reflexivity. Qed.

Lemma Qpower_2_add n m : (Qpower 2 (n + m) == Qpower 2 n * Qpower 2 m)%Q.
Proof. apply Qpower_plus. exact Qpower_2_nonzero. Qed.

(** The number a non-negative pattern with fields [E] and [M] stands for. *)
Lemma double_value_packed M E :
  0 <= M < 2 ^ 52 -> 0 <= E < 2 ^ 11 ->
  (double_value (E * 2 ^ 52 + M) ==
   inject_Z (if E =? 0 then M else 2 ^ 52 + M) *
   Qpower 2 (if E =? 0 then -1074 else E - 1075))%Q.
Proof.
  intros HM HE. unfold double_value.
  rewrite packed_exp, packed_man by assumption.
  assert (S : double_sign (E * 2 ^ 52 + M) = false).
  { unfold double_sign. apply testbit_above; lia. }
  rewrite S. reflexivity.
Qed.

(** The magnitude of the number a pattern stands for. *)
Lemma double_magnitude a :
  ((if double_sign a then - double_value a else double_value a) ==
   inject_Z (if double_exp a =? 0 then double_man a else 2 ^ 52 + double_man a) *
   Qpower 2 (if double_exp a =? 0 then -1074 else double_exp a - 1075))%Q.
Proof.
  unfold double_value. destruct (double_sign a); [apply Qopp_involutive|reflexivity].
Qed.

Lemma double_value_0 : (double_value 0 == 0)%Q.
Proof. reflexivity. Qed.

(** A mantissa brought back under the hidden bit. *)
Lemma normalised M :
  0 < M < 2 ^ 53 ->
  let d := 52 - Z.log2 M in
  0 <= d <= 52 /\ (M * 2 ^ d) mod 2 ^ 52 = M * 2 ^ d - 2 ^ 52.
Proof.
  intros HM d.
  pose proof (Z.log2_spec M ltac:(lia)) as [L1 L2].
  assert (HL : 0 <= Z.log2 M < 53).
  { split; [apply Z.log2_nonneg|apply Z.log2_lt_pow2; lia]. }
  split; [subst d; lia|].
  assert (P : 2 ^ Z.log2 M * 2 ^ d = 2 ^ 52).
  { rewrite <- Z.pow_add_r by (subst d; lia). f_equal. subst d. lia. }
  assert (Pd : 0 < 2 ^ d) by (apply Z.pow_pos_nonneg; subst d; lia).
  assert (B1 : 2 ^ 52 <= M * 2 ^ d) by nia.
  assert (B2 : M * 2 ^ d < 2 ^ 53).
  { replace (Z.succ (Z.log2 M)) with (Z.log2 M + 1) in L2 by lia.
    rewrite Z.pow_add_r in L2 by lia. change (2 ^ 1) with 2 in L2.
    change (2 ^ 53) with (2 ^ 52 * 2). nia. }
  symmetry. apply Z.mod_unique with 1; lia.
Qed.

(** X16. On the patterns of finite numbers it handles (an exponent field
    below [0x3ff + 52], or a zero mantissa field) [TrimDoubleRange] returns
    the magnitude of its argument reduced modulo 2: the result stands for a
    number in [0, 2) that differs from the magnitude of the argument by an
    even natural number. *)
Theorem TrimDoubleRange_reduces_modulo_2 :
  forall a : Z,
    double_exp a < 0x3ff + 52 \/ double_man a = 0 ->
    double_finite a = true ->
    in_range_0_2 (TrimDoubleRange a) /\
    exists n : Z,
      0 <= n /\
      ((if double_sign a then - double_value a else double_value a) ==
       double_value (TrimDoubleRange a) + inject_Z (2 * n))%Q.
Proof.
  intros a H Hfin. split; [now apply TrimDoubleRange_handled_in_range|].
  cut (exists n : Z,
         0 <= n /\
         (inject_Z (if double_exp a =? 0 then double_man a else 2 ^ 52 + double_man a) *
          Qpower 2 (if double_exp a =? 0 then -1074 else double_exp a - 1075) ==
          double_value (TrimDoubleRange_arith a) + inject_Z (2 * n))%Q).
  { intros (n & Hn & E). exists n. split; [exact Hn|].
    rewrite double_magnitude, TrimDoubleRange_arith_eq. exact E. }
  unfold TrimDoubleRange_arith.
  pose proof (double_exp_range a) as He. pose proof (double_man_range a) as Hm.
  unfold double_finite in Hfin. apply negb_true_iff, Z.eqb_neq in Hfin.
  set (e := double_exp a) in *. set (m := double_man a) in *.
  destruct (Z.eqb_spec m 0) as [M0|M0]; cbn [negb andb].
  - (* a zero mantissa *)
    destruct (Z.ltb_spec 0x3ff e) as [L|L].
    + (* a power of two, 2 or more *)
      exists (2 ^ (e - 1024)). split; [apply Z.pow_nonneg; lia|].
      rewrite double_value_0.
      destruct (Z.eqb_spec e 0) as [|_]; [lia|].
      rewrite M0, Z.add_0_r.
      rewrite <- (Qpower_2_int 52) by lia.
      rewrite <- Qpower_2_add.
      replace (52 + (e - 1075)) with (1 + (e - 1024)) by lia.
      rewrite Qpower_2_add, !Qpower_2_int by lia.
      rewrite inject_Z_mult. change (2 ^ 1) with 2. ring.
    + exists 0. split; [lia|].
      rewrite double_value_packed by lia.
      change (inject_Z (2 * 0)) with 0%Q. ring.
  - destruct (Z.ltb_spec 0x3ff e) as [L|L]; cbn [andb].
    + destruct (Z.ltb_spec e (0x3ff + 52)) as [U|U]; [|lia].
      (* between 2 and 2^52: the shift *)
      cbv zeta.
      destruct (Z.eqb_spec e 0) as [|_]; [lia|].
      set (k := e - 0x3ff).
      set (M := (m * 2 ^ k) mod 2 ^ 53).
      assert (HM : 0 <= M < 2 ^ 53) by (apply Z.mod_pos_bound; lia).
      set (q := 2 ^ (k - 1) + m * 2 ^ k / 2 ^ 53).
      assert (Hq : 0 <= q).
      { assert (0 <= 2 ^ (k - 1)) by (apply Z.pow_nonneg; lia).
        assert (0 <= m * 2 ^ k / 2 ^ 53).
        { apply Z.div_pos; [|lia]. apply Z.mul_nonneg_nonneg; [lia|].
          apply Z.pow_nonneg. lia. }
        lia. }
      assert (Hint : (2 ^ 52 + m) * 2 ^ k = M + 2 ^ 53 * q).
      { assert (P : 2 ^ 52 * 2 ^ k = 2 ^ 53 * 2 ^ (k - 1)).
        { rewrite <- !Z.pow_add_r by (subst k; lia). f_equal. lia. }
        pose proof (Z.div_mod (m * 2 ^ k) (2 ^ 53) ltac:(lia)) as D.
        fold M in D. subst q. lia. }
      assert (Hmag : (inject_Z (2 ^ 52 + m) * Qpower 2 (e - 1075) ==
                      inject_Z M * Qpower 2 (-52) + inject_Z (2 * q))%Q).
      { replace (e - 1075) with (k + -52) by (subst k; lia).
        rewrite Qpower_2_add, Qpower_2_int by (subst k; lia).
        rewrite Qmult_assoc, <- inject_Z_mult, Hint.
        rewrite inject_Z_plus, !inject_Z_mult.
        change (inject_Z (2 ^ 53)) with (inject_Z (2 ^ 52) * 2)%Q at 1.
        assert (U52 : (inject_Z (2 ^ 52) * Qpower 2 (-52) == 1)%Q) by reflexivity.
        transitivity (inject_Z M * Qpower 2 (-52) +
                      inject_Z 2 * inject_Z q * (inject_Z (2 ^ 52) * Qpower 2 (-52)))%Q.
        - change (inject_Z 2) with 2%Q. ring.
        - rewrite U52. ring. }
      exists q. split; [exact Hq|]. rewrite Hmag.
      apply Qplus_inj_r.
      destruct (Z.eqb_spec M 0) as [Z0|N0].
      * rewrite Z0, double_value_0. ring.
      * destruct (normalised M ltac:(lia)) as [Hd HN]. cbv zeta in Hd, HN.
        set (d := 52 - Z.log2 M) in *.
        rewrite HN.
        assert (Pd : 0 < 2 ^ d) by (apply Z.pow_pos_nonneg; lia).
        pose proof (Z.mod_pos_bound (M * 2 ^ d) (2 ^ 52) ltac:(lia)) as RB.
        rewrite HN in RB.
        rewrite double_value_packed by lia.
        destruct (Z.eqb_spec (0x3ff - d) 0) as [|_]; [lia|].
        replace (2 ^ 52 + (M * 2 ^ d - 2 ^ 52)) with (M * 2 ^ d) by lia.
        replace (-52) with (d + (0x3ff - d - 1075)) at 1 by lia.
        rewrite Qpower_2_add, Qpower_2_int by lia.
        rewrite inject_Z_mult. ring.
    + (* below 2 already *)
      exists 0. split; [lia|].
      rewrite double_value_packed by lia.
      change (inject_Z (2 * 0)) with 0%Q. ring.
Qed.

(** -5.0 comes back as 1.0. *)
Lemma TrimDoubleRange_reduces_modulo_2_witness :
  in_range_0_2 (TrimDoubleRange 0xc014000000000000) /\
  exists n : Z,
    0 <= n /\
    (- double_value 0xc014000000000000 ==
     double_value (TrimDoubleRange 0xc014000000000000) + inject_Z (2 * n))%Q.
Proof.
  apply (TrimDoubleRange_reduces_modulo_2 0xc014000000000000).
  - left. vm_compute. reflexivity.
  - reflexivity.
Defined.
(** ** Further properties of the line-F emitter *)

Section LineFMore.

Context {RA : Type} {SV : Services RA}.

(** X17. Which opcodes leave a guard word.  [EMIT_lineF] writes exactly one
    undefined-instruction word when the opcode pair is FABS.X (whose code it
    has just emitted) or is none of FMOVECR, FSIN.X, FCOS.X and FNOP, and
    writes none for these four. *)
Theorem EMIT_lineF_guard_words :
  forall s : emitter,
    let op := lineF_opcode s in
    let op2 := lineF_opcode2 s in
    let FABS := (op =? 0xf200) && (Z.land op2 0x407f =? 0x0018) in
    let FMOVECR := (op =? 0xf200) && (Z.land op2 0xfc00 =? 0x5c00) in
    let FSIN := (op =? 0xf200) && (Z.land op2 0xe07f =? 0x000e) in
    let FCOS := (op =? 0xf200) && (Z.land op2 0xe07f =? 0x001d) in
    let FNOP := (op =? 0xf280) && (op2 =? 0) in
    udf_events (trace (snd (EMIT_lineF s))) =
      (udf_events (trace s) +
       (if negb FABS && (FMOVECR || FSIN || FCOS || FNOP) then 0 else 1))%nat.
Proof.
  intros s op op2 FABS FMOVECR FSIN FCOS FNOP.
  destruct FABS eqn:EA; cbn [negb andb].
  - apply andb_true_iff in EA as [E1 E2]. apply Z.eqb_eq in E1, E2.
    destruct (EMIT_lineF_FABS s E1 E2) as (r & ws & E). rewrite E.
    rewrite udf_events_app. reflexivity.
  - destruct (FMOVECR || FSIN || FCOS || FNOP) eqn:EO.
    + rewrite Nat.add_0_r. apply EMIT_lineF_no_guard; [exact EA|].
      apply orb_true_iff in EO as [EO|EO]; [|now right; right; right].
      apply orb_true_iff in EO as [EO|EO]; [|now right; right; left].
      apply orb_true_iff in EO as [EO|EO]; [now left|now right; left].
    + apply orb_false_iff in EO as [EO E5]. apply orb_false_iff in EO as [EO E4].
      apply orb_false_iff in EO as [E2 E3].
      rewrite (EMIT_lineF_unrecognized s EA E2 E3 E4 E5).
      rewrite udf_events_app. reflexivity.
Qed.

End LineFMore.
